(** * Icecast URL authenticator (src/auth_url.c)

    A shallow embedding of the client-authentication-via-URL module of
    Icecast and the properties of its four event flows (listener add,
    listener remove, stream start, stream end), of the response-header
    callback and of the registration routine.

    The C functions are state transformers over an explicit [world]: a store
    of authenticators and a store of clients addressed by pointer, the
    global configuration with its read lock, the clock, and the trace of
    the externally visible events.  A null or dangling pointer dereference
    is the outcome [Undefined]. *)

From Stdlib Require Import ZArith String Ascii DecimalString List Lia.
From stdpp Require Import base option gmap strings list.

Open Scope Z_scope.

(** ** The C library functions the module calls *)

Module Libc.

(** Widths of the LP64 data model: [int] and [unsigned] have 32 bits,
    [long], [size_t] and [time_t] have 64. *)
Definition INT_BITS : Z := 32.
Definition LONG_BITS : Z := 64.

(** Conversion to an unsigned type of [bits] bits. *)
Definition to_unsigned (bits x : Z) : Z := x mod 2 ^ bits.

(** Conversion to a signed type of [bits] bits (two's complement). *)
Definition to_signed (bits x : Z) : Z :=
  let u := x mod 2 ^ bits in
  if u <? 2 ^ (bits - 1) then u else u - 2 ^ bits.

Definition INT_MAX : Z := 2 ^ (INT_BITS - 1) - 1.

(** The code of a character, and the terminating NUL read past the last
    character of a C string. *)
Definition code (c : ascii) : Z := Z.of_N (N_of_ascii c).

Definition char_at_head (s : string) : Z :=
  match s with
  | EmptyString => 0
  | String c _ => code c
  end.

Definition string_tail (s : string) : string :=
  match s with
  | EmptyString => EmptyString
  | String _ r => r
  end.

(** [tolower] in the C locale. *)
Definition tolower (c : Z) : Z :=
  if (65 <=? c) && (c <=? 90) then c + 32 else c.

(** The width of [size_t], and the conversion of an [int] to [size_t]: a
    negative value wraps around to a huge count. *)
Definition SIZE_BITS : Z := 64.

Definition int_to_size_t (n : Z) : Z :=
  if n <? 0 then n + 2 ^ SIZE_BITS else n.

(** [strncasecmp (s1, s2, n)]: compares at most [n] characters without
    regard to case and stops after a NUL.  The count [n] is a [size_t]; the
    comparison ends with [s1] at the latest, whose end reads as the NUL. *)
Fixpoint strncasecmp (s1 s2 : string) (n : Z) : Z :=
  if n <=? 0 then 0
  else
    let c1 := tolower (char_at_head s1) in
    let c2 := tolower (char_at_head s2) in
    if negb (c1 =? c2) then c1 - c2
    else if c1 =? 0 then 0
    else match s1 with
         | EmptyString => 0
         | String _ r1 => strncasecmp r1 (string_tail s2) (n - 1)
         end.

(** [strlen], as a C integer. *)
Definition strlen (s : string) : Z := Z.of_nat (String.length s).

(** [strcmp (a, b) == 0]. *)
Definition streq (a b : string) : bool := String.eqb a b.

(** The arguments of a [printf]-family call. *)
Inductive printf_arg : Type :=
| ArgString (s : string)
| ArgULong (n : Z).

(** The decimal digits of a natural number. *)
Definition digits (n : Z) : string :=
  NilZero.string_of_uint (N.to_uint (Z.to_N n)).

(** What [%lu] prints: the argument, read as an [unsigned long]. *)
Definition decimal (n : Z) : string := digits (to_unsigned LONG_BITS n).

(** The output of a format with the conversions [%s] and [%lu], the only
    ones this module uses.  [None] when a conversion finds no argument of
    its type. *)
Fixpoint format (fmt : string) (args : list printf_arg) : option string :=
  match fmt with
  | EmptyString => Some EmptyString
  | String "%" (String "s" rest) =>
      match args with
      | ArgString s :: args' =>
          match format rest args' with
          | Some out => Some (s +:+ out)
          | None => None
          end
      | _ => None
      end
  | String "%" (String "l" (String "u" rest)) =>
      match args with
      | ArgULong n :: args' =>
          match format rest args' with
          | Some out => Some (decimal n +:+ out)
          | None => None
          end
      | _ => None
      end
  | String c rest =>
      match format rest args with
      | Some out => Some (String c out)
      | None => None
      end
  end.

(** What [snprintf (buf, size, fmt, ...)] leaves in [buf]: the output cut
    to [size - 1] characters. *)
Definition snprintf (size : nat) (fmt : string) (args : list printf_arg)
  : option string :=
  match format fmt args with
  | Some out => Some (substring 0 (size - 1) out)
  | None => None
  end.

End Libc.

(** ** Data model *)

(** The results of [auth_result] that this file returns. *)
Inductive auth_result : Type := AUTH_OK | AUTH_FAILED.

(** Pointers into the stores of the [world]; [None] is the null pointer. *)
Definition auth_ptr : Type := nat.
Definition client_ptr : Type := nat.

(** [auth_client]: the event context handed to a flow and, through
    CURLOPT_WRITEHEADER, to the header callback.  [client] is null for
    stream start and stream end. *)
Record auth_client : Type := {
  mount : string;
  client : option client_ptr;
}.

(** The callbacks installed on a transfer handle. *)
Inductive curl_callback : Type :=
| cb_handle_returned_header
| cb_handle_returned_data.

(** [CURL]: the options this module sets on its transfer handle. *)
Record CURL : Type := {
  CURLOPT_URL : option string;
  CURLOPT_POSTFIELDS : option string;
  CURLOPT_WRITEHEADER : option auth_client;
  CURLOPT_HEADERFUNCTION : option curl_callback;
  CURLOPT_WRITEFUNCTION : option curl_callback;
  CURLOPT_NOSIGNAL : Z;
  CURLOPT_TIMEOUT : Z;
}.

(** [auth_url]: the private state of a URL authenticator.  [auth_header] is
    always allocated by the registration, so it is a string here; [handle]
    is null until the registration has created it. *)
Record auth_url : Type := {
  addurl : option string;
  removeurl : option string;
  stream_start : option string;
  stream_end : option string;
  url_username : option string;
  url_password : option string;
  auth_header : string;
  auth_header_len : Z;
  handle : option CURL;
}.

(** The functions of this file that the registration installs in an
    authenticator. *)
Inductive auth_method : Type :=
| fn_auth_addurl_client
| fn_auth_removeurl_client
| fn_url_stream_start
| fn_url_stream_end
| fn_auth_url_clear
| fn_auth_url_adduser
| fn_auth_url_deleteuser
| fn_auth_url_listuser.

Record auth_methods : Type := {
  authenticate : option auth_method;
  free : option auth_method;
  adduser : option auth_method;
  deleteuser : option auth_method;
  listuser : option auth_method;
  release_client : option auth_method;
  m_stream_start : option auth_method;
  m_stream_end : option auth_method;
}.

(** [auth_t]: the shared, reference-counted authenticator.  The count is
    kept in [Z]: its C type is declared in auth.h. *)
Record auth_t : Type := {
  methods : auth_methods;
  state : option auth_url;
  refcount : Z;
}.

(** [connection_t]. *)
Record connection_t : Type := {
  id : Z;
  con_time : Z;
  ip : string;
}.

(** [client_t]: [parser] holds the request variables read by
    [httpp_getvar]; [auth] is the back-reference to the authenticator. *)
Record client_t : Type := {
  con : connection_t;
  parser : list (string * string);
  auth : option auth_ptr;
  authenticated : Z;
  username : string;
  password : string;
}.

(** [mount_proxy] and [ice_config_t]: the parts of the configuration the
    flows read. *)
Record mount_proxy : Type := {
  mountname : string;
  mount_auth : option auth_ptr;
}.

Record ice_config_t : Type := {
  hostname : string;
  mounts : list mount_proxy;
}.

(** What leaves the module, in order. *)
Inductive event : Type :=
| EvConfigAcquire
| EvConfigRelease
| EvPerform (url post : string)
| EvWarn (url : string)
| EvAuthRelease (a : auth_ptr).

(** The state the flows run in. *)
Record world : Type := {
  auths : gmap nat auth_t;
  clients : gmap nat client_t;
  config : ice_config_t;
  config_held : nat;
  clock : Z;
  trace : list event;
}.

Definition with_auths (f : gmap nat auth_t -> gmap nat auth_t) (w : world) : world :=
  {| auths := f (auths w); clients := clients w; config := config w;
     config_held := config_held w; clock := clock w; trace := trace w |}.

Definition with_clients (f : gmap nat client_t -> gmap nat client_t) (w : world) : world :=
  {| auths := auths w; clients := f (clients w); config := config w;
     config_held := config_held w; clock := clock w; trace := trace w |}.

Definition with_config_held (f : nat -> nat) (w : world) : world :=
  {| auths := auths w; clients := clients w; config := config w;
     config_held := f (config_held w); clock := clock w; trace := trace w |}.

Definition with_trace (f : list event -> list event) (w : world) : world :=
  {| auths := auths w; clients := clients w; config := config w;
     config_held := config_held w; clock := clock w; trace := f (trace w) |}.

Definition set_refcount (n : Z) (a : auth_t) : auth_t :=
  {| methods := methods a; state := state a; refcount := n |}.

Definition set_state (s : option auth_url) (a : auth_t) : auth_t :=
  {| methods := methods a; state := s; refcount := refcount a |}.

Definition set_handle (h : option CURL) (u : auth_url) : auth_url :=
  {| addurl := addurl u; removeurl := removeurl u;
     stream_start := stream_start u; stream_end := stream_end u;
     url_username := url_username u; url_password := url_password u;
     auth_header := auth_header u; auth_header_len := auth_header_len u;
     handle := h |}.

Definition set_auth (a : option auth_ptr) (c : client_t) : client_t :=
  {| con := con c; parser := parser c; auth := a;
     authenticated := authenticated c;
     username := username c; password := password c |}.

Definition set_authenticated (v : Z) (c : client_t) : client_t :=
  {| con := con c; parser := parser c; auth := auth c;
     authenticated := v;
     username := username c; password := password c |}.

(** ** The monad of the flows: state and undefined behaviour *)

Inductive outcome (A : Type) : Type :=
| Returns (a : A) (w : world)
| Undefined.
Arguments Returns {A} a w.
Arguments Undefined {A}.

Definition M (A : Type) : Type := world -> outcome A.

#[global] Instance M_ret : MRet M := fun A a w => Returns a w.

#[global] Instance M_bind : MBind M := fun A B f m w =>
  match m w with
  | Returns a w' => f a w'
  | Undefined => Undefined
  end.

Definition undefined {A : Type} : M A := fun _ => Undefined.

Definition get_world : M world := fun w => Returns w w.

Definition modify (f : world -> world) : M unit := fun w => Returns tt (f w).

(** Dereference of a pointer or of a possibly absent result. *)
Definition deref {A : Type} (p : option A) : M A :=
  match p with
  | Some a => mret a
  | None => undefined
  end.

Definition load_auth (a : auth_ptr) : M auth_t :=
  w ← get_world; deref (auths w !! a).

Definition load_client (c : client_ptr) : M client_t :=
  w ← get_world; deref (clients w !! c).

(** A store through a pointer; the object must be allocated. *)
Definition store_auth (a : auth_ptr) (v : auth_t) : M unit :=
  _ ← load_auth a; modify (with_auths (insert a v)).

Definition store_client (c : client_ptr) (v : client_t) : M unit :=
  _ ← load_client c; modify (with_clients (insert c v)).

Definition emit (e : event) : M unit :=
  modify (with_trace (fun t => t ++ [e])).

(** [time (NULL)]. *)
Definition time : M Z := w ← get_world; mret (clock w).

(** The logging macro WARN2 of this file's two-argument warnings. *)
Definition WARN2 (url : string) : M unit := emit (EvWarn url).

(** ** Collaborators outside this file *)

(** What the remote endpoint makes libcurl see for one POST: the response
    header lines, in order, and the result code of the transfer (zero is
    CURLE_OK). *)
Record http_reply : Type := {
  reply_headers : list string;
  reply_code : Z;
}.

(** The collaborators whose behaviour is left open: the escaper of util.c,
    the remote endpoint behind the transfer handle, and the post-admission
    hook of auth.c, which works on the client and reports an [int]. *)
Class External : Type := {
  util_url_escape : string -> string;
  http_server : string -> string -> http_reply;
  auth_postprocess_client :
    auth_client -> gmap nat client_t -> Z * gmap nat client_t;
}.

(** Modelled from the spec: [config_get_config] of cfgfile.c is the
    acquire_snapshot of section 6.  It takes one more snapshot of the
    configuration and gives the view on it. *)
Definition config_get_config : M ice_config_t :=
  modify (with_config_held S);;
  emit EvConfigAcquire;;
  w ← get_world; mret (config w).

(** Modelled from the spec: [config_release_config] of cfgfile.c is the
    release of section 6.  It gives back one snapshot; with none held the
    release is undefined. *)
Definition config_release_config : M unit :=
  w ← get_world;
  match config_held w with
  | O => undefined
  | S n => modify (with_config_held (fun _ => n));; emit EvConfigRelease
  end.

(** Modelled from the spec: [config_find_mount] of cfgfile.c is the lookup
    find_mount (view, path) of section 6, which yields the mount of that
    name or nothing. *)
Definition config_find_mount (config : ice_config_t) (mount : string)
  : option mount_proxy :=
  List.find (fun m => Libc.streq (mountname m) mount) (mounts config).

(** Modelled from the spec: [auth_release] of auth.c is the unpin of the
    glossary: it decrements the reference count, and the authenticator is
    destroyed when the count reaches zero.  The flows never pass a null
    pointer; for it the model does nothing. *)
Definition auth_release (authenticator : option auth_ptr) : M unit :=
  match authenticator with
  | None => mret tt
  | Some a =>
      au ← load_auth a;
      emit (EvAuthRelease a);;
      let n := refcount au - 1 in
      if n =? 0 then modify (with_auths (delete a))
      else store_auth a (set_refcount n au)
  end.

(** Modelled from the spec: [httpp_getvar] of the httpp library is the read
    access to the request headers of section 6.  It gives the value of the
    variable of that name, or null. *)
Fixpoint httpp_getvar (parser : list (string * string)) (name : string)
  : option string :=
  match parser with
  | [] => None
  | (k, v) :: rest => if Libc.streq k name then Some v else httpp_getvar rest name
  end.

(** ** The functions of auth_url.c *)

(** [handle_returned_header (ptr, size, nmemb, stream)].  The count of
    [strncasecmp] is [auth_header_len], an [int] converted to [size_t]. *)
Definition handle_returned_header (ptr : string) (size nmemb : Z)
    (stream : auth_client) : M Z :=
  let auth_user := stream in
  let bytes := Libc.to_unsigned Libc.INT_BITS (size * nmemb) in
  match client auth_user with
  | Some c =>
      cl ← load_client c;
      a ← deref (auth cl);
      au ← load_auth a;
      url ← deref (state au);
      (if Libc.strncasecmp ptr (auth_header url)
            (Libc.int_to_size_t (auth_header_len url)) =? 0
       then store_client c (set_authenticated 1 cl)
       else mret tt);;
      mret (Libc.to_signed Libc.INT_BITS bytes)
  | None => mret (Libc.to_signed Libc.INT_BITS bytes)
  end.

(** [handle_returned_data]: the response body is dropped. *)
Definition handle_returned_data (ptr : string) (size nmemb : Z) : Z :=
  Libc.to_signed Libc.INT_BITS (size * nmemb).

(** [curl_easy_setopt] on the handle of authenticator [a].  On a null
    handle libcurl changes nothing and reports an error, which this module
    ignores. *)
Definition curl_easy_setopt (a : auth_ptr) (f : CURL -> CURL) : M unit :=
  au ← load_auth a;
  url ← deref (state au);
  store_auth a (set_state (Some (set_handle (f <$> handle url) url)) au).

Definition opt_URL (v : string) (h : CURL) : CURL :=
  {| CURLOPT_URL := Some v; CURLOPT_POSTFIELDS := CURLOPT_POSTFIELDS h;
     CURLOPT_WRITEHEADER := CURLOPT_WRITEHEADER h;
     CURLOPT_HEADERFUNCTION := CURLOPT_HEADERFUNCTION h;
     CURLOPT_WRITEFUNCTION := CURLOPT_WRITEFUNCTION h;
     CURLOPT_NOSIGNAL := CURLOPT_NOSIGNAL h; CURLOPT_TIMEOUT := CURLOPT_TIMEOUT h |}.

Definition opt_POSTFIELDS (v : string) (h : CURL) : CURL :=
  {| CURLOPT_URL := CURLOPT_URL h; CURLOPT_POSTFIELDS := Some v;
     CURLOPT_WRITEHEADER := CURLOPT_WRITEHEADER h;
     CURLOPT_HEADERFUNCTION := CURLOPT_HEADERFUNCTION h;
     CURLOPT_WRITEFUNCTION := CURLOPT_WRITEFUNCTION h;
     CURLOPT_NOSIGNAL := CURLOPT_NOSIGNAL h; CURLOPT_TIMEOUT := CURLOPT_TIMEOUT h |}.

Definition opt_WRITEHEADER (v : auth_client) (h : CURL) : CURL :=
  {| CURLOPT_URL := CURLOPT_URL h; CURLOPT_POSTFIELDS := CURLOPT_POSTFIELDS h;
     CURLOPT_WRITEHEADER := Some v;
     CURLOPT_HEADERFUNCTION := CURLOPT_HEADERFUNCTION h;
     CURLOPT_WRITEFUNCTION := CURLOPT_WRITEFUNCTION h;
     CURLOPT_NOSIGNAL := CURLOPT_NOSIGNAL h; CURLOPT_TIMEOUT := CURLOPT_TIMEOUT h |}.

(** CURLE_WRITE_ERROR, the result of a transfer that a callback stopped. *)
Definition CURLE_WRITE_ERROR : Z := 23.
(** CURLE_URL_MALFORMAT, the result of a transfer without a URL. *)
Definition CURLE_URL_MALFORMAT : Z := 3.
(** CURLE_BAD_FUNCTION_ARGUMENT, the result of a transfer on a null handle. *)
Definition CURLE_BAD_FUNCTION_ARGUMENT : Z := 43.

(** libcurl offers every header line to the header callback as one block of
    [size = 1] and [nmemb =] the length of the line, and stops the transfer
    when the callback returns another count. *)
Fixpoint deliver_headers (lines : list string) (stream : auth_client) : M bool :=
  match lines with
  | [] => mret true
  | line :: rest =>
      n ← handle_returned_header line 1 (Libc.strlen line) stream;
      if n =? Libc.strlen line then deliver_headers rest stream else mret false
  end.

(** [curl_easy_perform] on the handle of authenticator [a]: one blocking
    POST of CURLOPT_POSTFIELDS to CURLOPT_URL; the header lines of the reply
    go to the header callback with CURLOPT_WRITEHEADER. *)
Definition curl_easy_perform `{External} (a : auth_ptr) : M Z :=
  au ← load_auth a;
  url ← deref (state au);
  match handle url with
  | None => mret CURLE_BAD_FUNCTION_ARGUMENT
  | Some h =>
      match CURLOPT_URL h with
      | None => mret CURLE_URL_MALFORMAT
      | Some u =>
          let post := default EmptyString (CURLOPT_POSTFIELDS h) in
          emit (EvPerform u post);;
          let reply := http_server u post in
          match CURLOPT_HEADERFUNCTION h, CURLOPT_WRITEHEADER h with
          | Some cb_handle_returned_header, Some stream =>
              ok ← deliver_headers (reply_headers reply) stream;
              mret (if ok : bool then reply_code reply else CURLE_WRITE_ERROR)
          | _, _ => mret (reply_code reply)
          end
      end
  end.

(** The post-admission hook, run on the client store. *)
Definition run_postprocess `{External} (auth_user : auth_client) : M Z :=
  w ← get_world;
  let '(r, cs) := auth_postprocess_client auth_user (clients w) in
  modify (with_clients (fun _ => cs));;
  mret r.

(** [auth_removeurl_client]. *)
Definition auth_removeurl_client `{External} (auth_user : auth_client)
  : M auth_result :=
  c ← deref (client auth_user);
  cl ← load_client c;
  a ← deref (auth cl);
  au ← load_auth a;
  url ← deref (state au);
  now ← time;
  let duration := now - con_time (con cl) in
  match removeurl url with
  | None => mret AUTH_OK
  | Some removeurl_ =>
      config ← config_get_config;
      let server := util_url_escape (hostname config) in
      config_release_config;;
      let username_ := util_url_escape (username cl) in
      let password_ := util_url_escape (password cl) in
      let mount_ := util_url_escape (mount auth_user) in
      post ← deref (Libc.snprintf 1024
                ("action=remove&server=%sclient=%lu&mount=%s"
                 +:+ "&user=%s&pass=%s&duration=%lu")
                [Libc.ArgString server; Libc.ArgULong (id (con cl));
                 Libc.ArgString mount_; Libc.ArgString username_;
                 Libc.ArgString password_;
                 Libc.ArgULong (Libc.to_unsigned Libc.LONG_BITS duration)]);
      curl_easy_setopt a (opt_URL removeurl_);;
      curl_easy_setopt a (opt_POSTFIELDS post);;
      curl_easy_setopt a (opt_WRITEHEADER auth_user);;
      res ← curl_easy_perform a;
      (if negb (res =? 0) then WARN2 removeurl_ else mret tt);;
      cl' ← load_client c;
      auth_release (auth cl');;
      cl'' ← load_client c;
      store_client c (set_auth None cl'');;
      mret AUTH_OK
  end.

(** [auth_addurl_client]. *)
Definition auth_addurl_client `{External} (auth_user : auth_client)
  : M auth_result :=
  c ← deref (client auth_user);
  cl ← load_client c;
  a ← deref (auth cl);
  au ← load_auth a;
  url ← deref (state au);
  match addurl url with
  | None => mret AUTH_OK
  | Some addurl_ =>
      config ← config_get_config;
      let server := util_url_escape (hostname config) in
      config_release_config;;
      let agent := default "-"%string (httpp_getvar (parser cl) "user-agent") in
      let user_agent := util_url_escape agent in
      let username_ := util_url_escape (username cl) in
      let password_ := util_url_escape (password cl) in
      let mount_ := util_url_escape (mount auth_user) in
      let ipaddr := util_url_escape (ip (con cl)) in
      post ← deref (Libc.snprintf 1024
                ("action=auth&server=%s&client=%lu&mount=%s"
                 +:+ "&user=%s&pass=%s&ip=%s&agent=%s")
                [Libc.ArgString server; Libc.ArgULong (id (con cl));
                 Libc.ArgString mount_; Libc.ArgString username_;
                 Libc.ArgString password_; Libc.ArgString ipaddr;
                 Libc.ArgString user_agent]);
      curl_easy_setopt a (opt_URL addurl_);;
      curl_easy_setopt a (opt_POSTFIELDS post);;
      curl_easy_setopt a (opt_WRITEHEADER auth_user);;
      res ← curl_easy_perform a;
      if negb (res =? 0) then
        WARN2 addurl_;;
        mret AUTH_FAILED
      else
        cl' ← load_client c;
        if negb (authenticated cl' =? 0) then
          r ← run_postprocess auth_user;
          if r <? 0 then mret AUTH_FAILED else mret AUTH_OK
        else mret AUTH_FAILED
  end.

(** [url_stream_start]: there is no client in this case. *)
Definition url_stream_start `{External} (auth_user : auth_client)
  : M auth_result :=
  config ← config_get_config;
  mountinfo ← deref (config_find_mount config (mount auth_user));
  a ← deref (mount_auth mountinfo);
  au ← load_auth a;
  url ← deref (state au);
  match stream_start url with
  | None => config_release_config;; mret AUTH_OK
  | Some stream_start_url =>
      let server := util_url_escape (hostname config) in
      pinned ← load_auth a;
      store_auth a (set_refcount (refcount pinned + 1) pinned);;
      config_release_config;;
      let mount_ := util_url_escape (mount auth_user) in
      post ← deref (Libc.snprintf 4096 "action=start&mount=%s&server=%s"
                [Libc.ArgString mount_; Libc.ArgString server]);
      curl_easy_setopt a (opt_URL stream_start_url);;
      curl_easy_setopt a (opt_POSTFIELDS post);;
      curl_easy_setopt a (opt_WRITEHEADER auth_user);;
      res ← curl_easy_perform a;
      (if negb (res =? 0) then WARN2 stream_start_url else mret tt);;
      auth_release (Some a);;
      mret AUTH_OK
  end.

(** [url_stream_end]. *)
Definition url_stream_end `{External} (auth_user : auth_client)
  : M auth_result :=
  config ← config_get_config;
  mountinfo ← deref (config_find_mount config (mount auth_user));
  a ← deref (mount_auth mountinfo);
  au ← load_auth a;
  url ← deref (state au);
  match stream_end url with
  | None => config_release_config;; mret AUTH_OK
  | Some stream_end_url =>
      let server := util_url_escape (hostname config) in
      pinned ← load_auth a;
      store_auth a (set_refcount (refcount pinned + 1) pinned);;
      config_release_config;;
      let mount_ := util_url_escape (mount auth_user) in
      post ← deref (Libc.snprintf 4096 "action=end&mount=%s&server=%s"
                [Libc.ArgString mount_; Libc.ArgString server]);
      curl_easy_setopt a (opt_URL stream_end_url);;
      curl_easy_setopt a (opt_POSTFIELDS post);;
      curl_easy_setopt a (opt_WRITEHEADER auth_user);;
      res ← curl_easy_perform a;
      (if negb (res =? 0) then WARN2 stream_end_url else mret tt);;
      auth_release (Some a);;
      mret AUTH_OK
  end.

(** [auth_url_clear]: the handle and the state of the authenticator are
    given back; any later use of the state is undefined. *)
Definition auth_url_clear (self : auth_ptr) : M unit :=
  au ← load_auth self;
  _ ← deref (state au);
  store_auth self (set_state None au).

(** [auth_url_adduser], [auth_url_deleteuser], [auth_url_listuser]. *)
Definition auth_url_adduser (a : auth_ptr) (username password : string)
  : M auth_result := mret AUTH_FAILED.

Definition auth_url_deleteuser (a : auth_ptr) (username : string)
  : M auth_result := mret AUTH_FAILED.

Definition auth_url_listuser (a : auth_ptr) : M auth_result :=
  mret AUTH_FAILED.

(** ** Registration: [auth_get_url_auth] *)

Definition CRLF : string := String "013" (String "010" EmptyString).

(** The verdict header a fresh authenticator expects. *)
Definition default_auth_header : string := "icecast-auth-user: 1" +:+ CRLF.

(** [calloc (1, sizeof (auth_url))]. *)
Definition calloc_auth_url : auth_url :=
  {| addurl := None; removeurl := None; stream_start := None;
     stream_end := None; url_username := None; url_password := None;
     auth_header := EmptyString; auth_header_len := 0; handle := None |}.

Definition set_auth_header (v : string) (u : auth_url) : auth_url :=
  {| addurl := addurl u; removeurl := removeurl u;
     stream_start := stream_start u; stream_end := stream_end u;
     url_username := url_username u; url_password := url_password u;
     auth_header := v; auth_header_len := auth_header_len u;
     handle := handle u |}.

Definition set_auth_header_len (v : Z) (u : auth_url) : auth_url :=
  {| addurl := addurl u; removeurl := removeurl u;
     stream_start := stream_start u; stream_end := stream_end u;
     url_username := url_username u; url_password := url_password u;
     auth_header := auth_header u; auth_header_len := v;
     handle := handle u |}.

Definition set_urls (add remove start end_ : option string) (u : auth_url)
  : auth_url :=
  {| addurl := add; removeurl := remove;
     stream_start := start; stream_end := end_;
     url_username := url_username u; url_password := url_password u;
     auth_header := auth_header u; auth_header_len := auth_header_len u;
     handle := handle u |}.

Definition set_credentials (user pass : option string) (u : auth_url)
  : auth_url :=
  {| addurl := addurl u; removeurl := removeurl u;
     stream_start := stream_start u; stream_end := stream_end u;
     url_username := user; url_password := pass;
     auth_header := auth_header u; auth_header_len := auth_header_len u;
     handle := handle u |}.

(** One turn of the loop over the options: every test of the body is tried
    in the order of the source. *)
Definition read_option (url_info : auth_url) (option : string * string)
  : auth_url :=
  let '(name, value) := option in
  let u := url_info in
  let u := if Libc.streq name "username"
           then set_credentials (Some value) (url_password u) u else u in
  let u := if Libc.streq name "password"
           then set_credentials (url_username u) (Some value) u else u in
  let u := if Libc.streq name "add"
           then set_urls (Some value) (removeurl u) (stream_start u) (stream_end u) u
           else u in
  let u := if Libc.streq name "remove"
           then set_urls (addurl u) (Some value) (stream_start u) (stream_end u) u
           else u in
  let u := if Libc.streq name "start"
           then set_urls (addurl u) (removeurl u) (Some value) (stream_end u) u
           else u in
  let u := if Libc.streq name "end"
           then set_urls (addurl u) (removeurl u) (stream_start u) (Some value) u
           else u in
  let u := if Libc.streq name "header" then set_auth_header value u else u in
  u.

(** The handle [curl_easy_init] returns when it succeeds. *)
Definition fresh_handle : CURL :=
  {| CURLOPT_URL := None; CURLOPT_POSTFIELDS := None;
     CURLOPT_WRITEHEADER := None; CURLOPT_HEADERFUNCTION := None;
     CURLOPT_WRITEFUNCTION := None; CURLOPT_NOSIGNAL := 0;
     CURLOPT_TIMEOUT := 0 |}.

(** The options the registration sets on the new handle.  The write-data
    pointer and the error buffer, which feed only the dropped body and the
    text of the warning, are left out. *)
Definition registered_handle (h : CURL) : CURL :=
  {| CURLOPT_URL := CURLOPT_URL h; CURLOPT_POSTFIELDS := CURLOPT_POSTFIELDS h;
     CURLOPT_WRITEHEADER := CURLOPT_WRITEHEADER h;
     CURLOPT_HEADERFUNCTION := Some cb_handle_returned_header;
     CURLOPT_WRITEFUNCTION := Some cb_handle_returned_data;
     CURLOPT_NOSIGNAL := 1; CURLOPT_TIMEOUT := 15 |}.

Definition url_methods : auth_methods :=
  {| authenticate := Some fn_auth_addurl_client;
     free := Some fn_auth_url_clear;
     adduser := Some fn_auth_url_adduser;
     deleteuser := Some fn_auth_url_deleteuser;
     listuser := Some fn_auth_url_listuser;
     release_client := Some fn_auth_removeurl_client;
     m_stream_start := Some fn_url_stream_start;
     m_stream_end := Some fn_url_stream_end |}.

Definition set_methods (m : auth_methods) (a : auth_t) : auth_t :=
  {| methods := m; state := state a; refcount := refcount a |}.

(** The [auth_url] the registration builds from the options, before the
    handle is created. *)
Definition read_options (options : list (string * string)) : auth_url :=
  fold_left read_option options
    (set_auth_header default_auth_header calloc_auth_url).

(** The [auth_url] a successful registration leaves in the authenticator:
    the options read, the length of the verdict header, and the handle [h]
    of [curl_easy_init] with its options. *)
Definition registered_url_info (options : list (string * string)) (h : CURL)
  : auth_url :=
  let url_info := read_options options in
  let url_info :=
    set_auth_header_len
      (Libc.to_signed Libc.INT_BITS (Libc.strlen (auth_header url_info)))
      url_info in
  set_handle (Some (registered_handle h)) url_info.

(** [auth_get_url_auth (authenticator, options)]; [curl_easy_init] is the
    handle libcurl returns, or null. *)
Definition auth_get_url_auth (authenticator : auth_ptr)
    (options : list (string * string)) (curl_easy_init : option CURL) : M Z :=
  au ← load_auth authenticator;
  store_auth authenticator (set_methods url_methods au);;
  match curl_easy_init with
  | None =>
      modify (with_auths (delete authenticator));;
      mret (-1)
  | Some h =>
      au' ← load_auth authenticator;
      store_auth authenticator
        (set_state (Some (registered_url_info options h)) au');;
      mret 0
  end.

(** ** Observations on traces and bodies *)

(** The requests of a trace: endpoint and POST body, in order. *)
Fixpoint posts (tr : list event) : list (string * string) :=
  match tr with
  | [] => []
  | EvPerform url post :: rest => (url, post) :: posts rest
  | _ :: rest => posts rest
  end.

(** The snapshot discipline of section 5, checked along a trace that starts
    with [held] snapshots: no release without a snapshot, no request while
    one is held.  The result is the number held at the end. *)
Fixpoint snapshot_discipline (held : nat) (tr : list event) : option nat :=
  match tr with
  | [] => Some held
  | EvConfigAcquire :: rest => snapshot_discipline (S held) rest
  | EvConfigRelease :: rest =>
      match held with
      | O => None
      | S n => snapshot_discipline n rest
      end
  | EvPerform _ _ :: rest =>
      match held with
      | O => snapshot_discipline O rest
      | S _ => None
      end
  | _ :: rest => snapshot_discipline held rest
  end.

(** The text before the first occurrence of [sep], and the text after it. *)
Fixpoint split_at (sep : ascii) (s : string) : string * option string :=
  match s with
  | EmptyString => (EmptyString, None)
  | String c rest =>
      if Ascii.eqb c sep then (EmptyString, Some rest)
      else let '(a, b) := split_at sep rest in (String c a, b)
  end.

(** The pieces of [s] between the occurrences of [sep]. *)
Fixpoint split_on (sep : ascii) (s : string) : list string :=
  match s with
  | EmptyString => [EmptyString]
  | String c rest =>
      if Ascii.eqb c sep then EmptyString :: split_on sep rest
      else match split_on sep rest with
           | [] => [String c EmptyString]
           | p :: ps => String c p :: ps
           end
  end.

(** The fields of a form body: the pieces between [&], each cut at its
    first [=] into a name and a value. *)
Definition form_fields (body : string) : list (string * string) :=
  List.map (fun piece =>
              let '(k, v) := split_at "=" piece in (k, default EmptyString v))
           (split_on "&" body).

Definition form_field (name body : string) : option string :=
  httpp_getvar (form_fields body) name.

(** A text without the separator [&] of a form body. *)
Fixpoint amp_free (s : string) : bool :=
  match s with
  | EmptyString => true
  | String c rest => negb (Ascii.eqb c "&") && amp_free rest
  end.

(** The matching of section 4.4, in the words of the spec: [line] starts
    with [prefix], letter case apart. *)
Fixpoint prefix_nocase (prefix line : string) : bool :=
  match prefix, line with
  | EmptyString, _ => true
  | String _ _, EmptyString => false
  | String a p, String b l =>
      (Libc.tolower (Libc.code a) =? Libc.tolower (Libc.code b))
      && prefix_nocase p l
  end.

(** A C string holds no NUL. *)
Fixpoint c_string (s : string) : bool :=
  match s with
  | EmptyString => true
  | String c rest => negb (Libc.code c =? 0) && c_string rest
  end.

(** The duration of section 8, in the words of the spec: now minus the
    connection start, clamped to zero. *)
Definition duration_clamped (now connect_time : Z) : Z :=
  Z.max 0 (now - connect_time).

(** The body layouts of section 4.2, in the words of the spec. *)
Definition auth_body (server client_id mount_ user pass ip_ agent : string)
  : string :=
  "action=auth&server=" +:+ server +:+ "&client=" +:+ client_id
  +:+ "&mount=" +:+ mount_ +:+ "&user=" +:+ user +:+ "&pass=" +:+ pass
  +:+ "&ip=" +:+ ip_ +:+ "&agent=" +:+ agent.

Definition remove_body (server client_id mount_ user pass duration : string)
  : string :=
  "action=remove&server=" +:+ server +:+ "&client=" +:+ client_id
  +:+ "&mount=" +:+ mount_ +:+ "&user=" +:+ user +:+ "&pass=" +:+ pass
  +:+ "&duration=" +:+ duration.

Definition stream_body (action mount_ server : string) : string :=
  "action=" +:+ action +:+ "&mount=" +:+ mount_ +:+ "&server=" +:+ server.

(** The test of the header callback. *)
Definition header_matches (url : auth_url) (line : string) : bool :=
  Libc.strncasecmp line (auth_header url)
    (Libc.int_to_size_t (auth_header_len url)) =? 0.

(** The count the callbacks return: [size * nmemb] through [unsigned] and
    [int]. *)
Definition byte_count (size nmemb : Z) : Z :=
  Libc.to_signed Libc.INT_BITS (Libc.to_unsigned Libc.INT_BITS (size * nmemb)).

(** The transport call of a flow: the three options and the transfer. *)
Definition transport_call `{External} (a : auth_ptr) (target post : string)
    (auth_user : auth_client) : M Z :=
  curl_easy_setopt a (opt_URL target);;
  curl_easy_setopt a (opt_POSTFIELDS post);;
  curl_easy_setopt a (opt_WRITEHEADER auth_user);;
  curl_easy_perform a.

(** The authenticator while its handle carries the options of a request. *)
Definition requesting (target post : string) (auth_user : auth_client)
    (url : auth_url) (au : auth_t) : auth_t :=
  set_state
    (Some (set_handle
             (opt_WRITEHEADER auth_user
                <$> (opt_POSTFIELDS post <$> (opt_URL target <$> handle url)))
             url))
    au.

(** The events of a transport call and of the warning after it. *)
Definition request_of (target post : string) (url : auth_url) : list event :=
  match handle url with
  | Some _ => [EvPerform target post]
  | None => []
  end.

Definition warning (res : Z) (target : string) : list event :=
  if negb (res =? 0) then [EvWarn target] else [].

(** The client of the event, if there is one, is a listener with an
    authenticator that has its state: what the header callback needs. *)
Definition listener_ok (w : world) (auth_user : auth_client) : Prop :=
  match client auth_user with
  | None => True
  | Some c => exists cl a au url,
      clients w !! c = Some cl /\ auth cl = Some a /\
      auths w !! a = Some au /\ state au = Some url
  end.

(** The client store [cs] is [cs0], but for the [authenticated] flag of the
    client of the event, which may have been set. *)
Definition flagged (auth_user : auth_client) (cs0 cs : gmap nat client_t)
  : Prop :=
  cs = cs0 \/
  exists c cl, client auth_user = Some c /\ cs0 !! c = Some cl /\
               cs = <[c := set_authenticated 1 cl]> cs0.

(** Every mount of the configuration that has an authenticator has one
    that is allocated and carries its state, as registration leaves it. *)
Definition mounts_registered (w : world) : Prop :=
  forall mi a, In mi (mounts (config w)) -> mount_auth mi = Some a ->
    exists au url, auths w !! a = Some au /\ state au = Some url.

(** The flow that took [w] to [w'] kept the snapshot discipline: what it
    appended to the trace acquires and releases in balance, requests only
    with no snapshot held, and leaves as many snapshots held as before. *)
Definition snapshot_respected (w w' : world) : Prop :=
  exists tr, trace w' = trace w ++ tr
             /\ snapshot_discipline 0 tr = Some 0%nat
             /\ config_held w' = config_held w.

(** The bodies the listener flows post: the layout filled with the escaped
    fields and cut to the buffer of 1024 bytes.  The remove flow joins the
    server and the client field without a separator. *)
Definition add_post `{External} (config : ice_config_t)
    (auth_user : auth_client) (cl : client_t) : string :=
  substring 0 1023
    (auth_body (util_url_escape (hostname config)) (Libc.decimal (id (con cl)))
       (util_url_escape (mount auth_user)) (util_url_escape (username cl))
       (util_url_escape (password cl)) (util_url_escape (ip (con cl)))
       (util_url_escape
          (default "-"%string (httpp_getvar (parser cl) "user-agent")))).

Definition removeurl_post `{External} (config : ice_config_t)
    (auth_user : auth_client) (cl : client_t) (now : Z) : string :=
  substring 0 1023
    ("action=remove&server=" +:+ util_url_escape (hostname config)
     +:+ "client=" +:+ Libc.decimal (id (con cl))
     +:+ "&mount=" +:+ util_url_escape (mount auth_user)
     +:+ "&user=" +:+ util_url_escape (username cl)
     +:+ "&pass=" +:+ util_url_escape (password cl)
     +:+ "&duration="
     +:+ Libc.decimal (Libc.to_unsigned Libc.LONG_BITS (now - con_time (con cl)))).

Definition stream_post `{External} (action : string) (config : ice_config_t)
    (auth_user : auth_client) : string :=
  substring 0 4095
    (stream_body action (util_url_escape (mount auth_user))
       (util_url_escape (hostname config))).

(** ** The escaper *)

(** Modelled from the spec: the allowlist of the escaper of section 4.1,
    which util.c holds: letters, digits and a small fixed punctuation set,
    here [-], [_], [.] and [~]. *)
Definition unreserved (c : ascii) : bool :=
  let n := Libc.code c in
  ((48 <=? n) && (n <=? 57)) || ((65 <=? n) && (n <=? 90))
  || ((97 <=? n) && (n <=? 122))
  || (n =? 45) || (n =? 95) || (n =? 46) || (n =? 126).

(** Modelled from the spec: the hexadecimal digits of the escaper, in upper
    case as in the body of section 8. *)
Definition hexchar (n : Z) : ascii :=
  ascii_of_N (Z.to_N (if n <? 10 then 48 + n else 55 + n)).

(** Modelled from the spec: [util_url_escape] of util.c is the escaper of
    section 4.1.  It keeps the bytes of the allowlist and writes every
    other byte as [%] and two hexadecimal digits. *)
Fixpoint url_escape (src : string) : string :=
  match src with
  | EmptyString => EmptyString
  | String c rest =>
      if unreserved c then String c (url_escape rest)
      else String "%" (String (hexchar (Libc.code c / 16))
                         (String (hexchar (Libc.code c mod 16))
                            (url_escape rest)))
  end.

(** ** A running installation

    The installation of the end-to-end scenario of section 8, with all four
    endpoints: an authenticator registered on the mount /live of a server,
    and the listener 42. *)
Module Scenario.

Definition options : list (string * string) :=
  [("add", "http://auth.example/a"); ("remove", "http://auth.example/r");
   ("start", "http://auth.example/s"); ("end", "http://auth.example/e")]%string.

(** The state [auth_get_url_auth] builds from these options. *)
Definition url_info : auth_url := registered_url_info options fresh_handle.

(** Two references: the mount and the listener. *)
Definition authenticator : auth_t :=
  {| methods := url_methods; state := Some url_info; refcount := 2 |}.

Definition listener : client_t :=
  {| con := {| id := 42; con_time := 1000; ip := "127.0.0.1" |};
     parser := [("user-agent", "TestAgent/1.0")]%string;
     auth := Some 0%nat;
     authenticated := 0;
     username := "fred";
     password := "hunter2" |}.

Definition configuration : ice_config_t :=
  {| hostname := "stream.example.org";
     mounts := [ {| mountname := "/live"; mount_auth := Some 0%nat |} ] |}.

Definition start : world :=
  {| auths := {[ 0%nat := authenticator ]};
     clients := {[ 7%nat := listener ]};
     config := configuration;
     config_held := 0;
     clock := 1060;
     trace := [] |}.

(** The same installation after the clock was set back behind the
    connection start of the listener. *)
Definition skewed : world :=
  {| auths := {[ 0%nat := authenticator ]};
     clients := {[ 7%nat := listener ]};
     config := configuration;
     config_held := 0;
     clock := 999;
     trace := [] |}.

(** An installation whose authenticator has the add endpoint only. *)
Definition add_only : world :=
  {| auths :=
       {[ 0%nat :=
            {| methods := url_methods;
               state := Some (registered_url_info
                                [("add", "http://auth.example/a")]%string
                                fresh_handle);
               refcount := 2 |} ]};
     clients := {[ 7%nat := listener ]};
     config := configuration;
     config_held := 0;
     clock := 1060;
     trace := [] |}.

(** The listener's event, and the event of the source on /live. *)
Definition listener_event : auth_client :=
  {| mount := "/live"; client := Some 7%nat |}.

Definition source_event : auth_client :=
  {| mount := "/live"; client := None |}.

Definition accept : http_reply :=
  {| reply_headers :=
       [ "HTTP/1.1 200 OK" +:+ CRLF;
         "Icecast-Auth-User: 1" +:+ CRLF;
         CRLF ];
     reply_code := 0 |}.

Definition deny : http_reply :=
  {| reply_headers := [ "HTTP/1.1 403 Forbidden" +:+ CRLF; CRLF ];
     reply_code := 0 |}.

(** An endpoint that admits everybody, and a hook that succeeds. *)
Definition admitting : External :=
  {| util_url_escape := url_escape;
     http_server := fun _ _ => accept;
     auth_postprocess_client := fun _ cs => (0, cs) |}.

(** An endpoint that answers without the verdict header. *)
Definition denying : External :=
  {| util_url_escape := url_escape;
     http_server := fun _ _ => deny;
     auth_postprocess_client := fun _ cs => (0, cs) |}.

(** An endpoint that cannot be reached: CURLE_COULDNT_CONNECT. *)
Definition unreachable : External :=
  {| util_url_escape := url_escape;
     http_server := fun _ _ => {| reply_headers := []; reply_code := 7 |};
     auth_postprocess_client := fun _ cs => (0, cs) |}.

End Scenario.

(** ** Further observations *)

(** The handle of the authenticator exists and carries the header callback,
    as [auth_get_url_auth] leaves it. *)
Definition handle_registered (url : auth_url) : Prop :=
  exists h, handle url = Some h
            /\ CURLOPT_HEADERFUNCTION h = Some cb_handle_returned_header.

(** Header lines of a length that an [int] holds. *)
Definition lines_fit (lines : list string) : Prop :=
  Forall (fun line => Libc.strlen line <= Libc.INT_MAX) lines.

(** The client as the header lines of a reply leave it: flagged when one of
    the lines passes the test of the callback. *)
Definition after_reply (url : auth_url) (lines : list string) (cl : client_t)
  : client_t :=
  if existsb (header_matches url) lines then set_authenticated 1 cl else cl.

(** The value of the last option of a name, read from the end of the
    list. *)
Fixpoint last_value (name : string) (options : list (string * string))
  : option string :=
  match options with
  | [] => None
  | (k, v) :: rest =>
      match last_value name rest with
      | Some v' => Some v'
      | None => if Libc.streq k name then Some v else None
      end
  end.

(** The names [auth_get_url_auth] reads. *)
Definition recognised (name : string) : bool :=
  existsb (Libc.streq name)
    ["username"; "password"; "add"; "remove"; "start"; "end"; "header"]%string.

(** The flow that took [w] to [w'] posted at most one request, and its body
    has at most [n] characters. *)
Definition posted_within (n : nat) (w w' : world) : Prop :=
  exists new,
    posts (trace w') = posts (trace w) ++ new
    /\ (length new <= 1)%nat
    /\ Forall (fun request => (String.length (snd request) <= n)%nat) new.

(** What a registration fixes in an authenticator and its handle:
    everything but the three options a flow sets on the handle before a
    request. *)
Definition handle_settings (h : CURL)
  : option curl_callback * option curl_callback * Z * Z :=
  (CURLOPT_HEADERFUNCTION h, CURLOPT_WRITEFUNCTION h,
   CURLOPT_NOSIGNAL h, CURLOPT_TIMEOUT h).

Definition settings (url : auth_url) :=
  (addurl url, removeurl url, stream_start url, stream_end url,
   url_username url, url_password url, auth_header url, auth_header_len url,
   handle_settings <$> handle url).

(** Every authenticator of [w'] was there in [w], with the same methods and
    the same settings. *)
Definition settings_kept (w w' : world) : Prop :=
  forall a au', auths w' !! a = Some au' ->
    exists au, auths w !! a = Some au
               /\ methods au' = methods au
               /\ settings <$> state au' = settings <$> state au.

(** ** Allocation *)

(** [auth_get_url_auth] and [auth_url_clear] once more, this time with the
    heap blocks they allocate and free: [calloc], [strdup], [free],
    [curl_easy_init] and [curl_easy_cleanup] are explicit.  The strings
    behind the pointers of the state are the fields of [auth_url] above;
    here the state holds the pointers themselves.  The assignments of the
    methods and the options set on the handle touch no block and are left
    to the model above. *)
Module Heap.

(** What a block was allocated for: a string copied by [strdup], the
    [auth_url] of [calloc], the handle of [curl_easy_init], and the
    [auth_t] the caller allocated. *)
Inductive block : Type :=
| Bytes (s : string)
| UrlInfo
| Handle
| Authenticator.

(** The live blocks by address, and the next fresh address: an allocation
    never returns the address of a live block. *)
Record heap : Type := {
  live : gmap nat block;
  brk : nat;
}.

Definition malloc (b : block) (m : heap) : nat * heap :=
  (brk m, {| live := <[brk m := b]> (live m); brk := S (brk m) |}).

(** [free (p)]: nothing for a null pointer, undefined for a pointer to no
    live block. *)
Definition free (p : option nat) (m : heap) : option heap :=
  match p with
  | None => Some m
  | Some q =>
      match live m !! q with
      | Some _ => Some {| live := delete q (live m); brk := brk m |}
      | None => None
      end
  end.

Definition strdup (s : string) : heap -> nat * heap := malloc (Bytes s).

(** The pointer members of [auth_url]; [auth_header_len] and [errormsg]
    lie in the block of the structure itself. *)
Record auth_url : Type := {
  addurl : option nat;
  removeurl : option nat;
  stream_start : option nat;
  stream_end : option nat;
  username : option nat;
  password : option nat;
  auth_header : option nat;
  handle : option nat;
}.

(** The names of these members. *)
Inductive member : Type :=
| m_addurl | m_removeurl | m_stream_start | m_stream_end
| m_username | m_password | m_auth_header | m_handle.

#[global] Instance member_eq_dec : EqDecision member.
Proof. solve_decision. Defined.

Definition get (f : member) (u : auth_url) : option nat :=
  match f with
  | m_addurl => addurl u
  | m_removeurl => removeurl u
  | m_stream_start => stream_start u
  | m_stream_end => stream_end u
  | m_username => username u
  | m_password => password u
  | m_auth_header => auth_header u
  | m_handle => handle u
  end.

Definition set (f : member) (v : option nat) (u : auth_url) : auth_url :=
  {| addurl := if f is m_addurl then v else addurl u;
     removeurl := if f is m_removeurl then v else removeurl u;
     stream_start := if f is m_stream_start then v else stream_start u;
     stream_end := if f is m_stream_end then v else stream_end u;
     username := if f is m_username then v else username u;
     password := if f is m_password then v else password u;
     auth_header := if f is m_auth_header then v else auth_header u;
     handle := if f is m_handle then v else handle u |}.

(** [calloc (1, sizeof (auth_url))]: every member is null. *)
Definition calloc_auth_url : auth_url :=
  {| addurl := None; removeurl := None; stream_start := None;
     stream_end := None; username := None; password := None;
     auth_header := None; handle := None |}.

(** [url_info->member = strdup (value)]: the pointer the member held before
    is overwritten. *)
Definition assign (f : member) (value : string) (st : auth_url * heap)
  : auth_url * heap :=
  let '(p, m) := strdup value (snd st) in
  (set f (Some p) (fst st), m).

(** One turn of the loop over the options: every test of the body in the
    order of the source; only [header] frees the string it replaces. *)
Definition read_option (st : auth_url * heap) (opt : string * string)
  : option (auth_url * heap) :=
  let '(name, value) := opt in
  let st := if Libc.streq name "username" then assign m_username value st else st in
  let st := if Libc.streq name "password" then assign m_password value st else st in
  let st := if Libc.streq name "add" then assign m_addurl value st else st in
  let st := if Libc.streq name "remove" then assign m_removeurl value st else st in
  let st := if Libc.streq name "start" then assign m_stream_start value st else st in
  let st := if Libc.streq name "end" then assign m_stream_end value st else st in
  if Libc.streq name "header"
  then m ← free (auth_header (fst st)) (snd st);
       Some (assign m_auth_header value (fst st, m))
  else Some st.

Fixpoint read_options (st : auth_url * heap) (options : list (string * string))
  : option (auth_url * heap) :=
  match options with
  | [] => Some st
  | opt :: rest => st' ← read_option st opt; read_options st' rest
  end.

(** [auth_get_url_auth (authenticator, options)]: the result, the state
    left in the authenticator (its address and its members) and the heap.
    [curl_easy_init] tells whether libcurl could create a handle; when it
    could not, [url_info] and [authenticator] are freed. *)
Definition auth_get_url_auth (authenticator : nat)
    (options : list (string * string)) (curl_easy_init : bool) (m : heap)
  : option (Z * option (nat * auth_url) * heap) :=
  let '(url_info, m) := malloc UrlInfo m in
  let st := assign m_auth_header default_auth_header (calloc_auth_url, m) in
  st ← read_options st options;
  if curl_easy_init
  then
    let '(h, m) := malloc Handle (snd st) in
    Some (0, Some (url_info, set m_handle (Some h) (fst st)), m)
  else
    m ← free (Some url_info) (snd st);
    m ← free (Some authenticator) m;
    Some (-1, None, m).

(** [auth_url_clear (self)], for the state at [url_info] with the members
    [url]: [curl_easy_cleanup] gives back the handle, then the five frees
    of the source in their order. *)
Definition auth_url_clear (url_info : nat) (url : auth_url) (m : heap)
  : option heap :=
  m ← free (handle url) m;
  m ← free (username url) m;
  m ← free (password url) m;
  m ← free (removeurl url) m;
  m ← free (addurl url) m;
  free (Some url_info) m.

(** The string in a block, and the string behind a pointer. *)
Definition block_string (b : block) : option string :=
  match b with
  | Bytes s => Some s
  | _ => None
  end.

Definition string_at (m : heap) (p : option nat) : option string :=
  match p with
  | Some q =>
      match live m !! q with
      | Some b => block_string b
      | None => None
      end
  | None => None
  end.

(** The frees of a list of pointers, in order. *)
Fixpoint free_all (ps : list (option nat)) (m : heap) : option heap :=
  match ps with
  | [] => Some m
  | p :: rest => m' ← free p m; free_all rest m'
  end.

(** Every live block lies below the next fresh address. *)
Definition wf (m : heap) : Prop :=
  forall q, is_Some (live m !! q) -> (q < brk m)%nat.

End Heap.

(** The options of a name. *)
Definition occurrences (name : string) (options : list (string * string)) : nat :=
  length (List.filter (fun opt => Libc.streq (fst opt) name) options).

(** What the pointer members point to, read in the state [a] of the
    registration: the handle points to no string. *)
Definition member_value (a : auth_url) (f : Heap.member) : option string :=
  match f with
  | Heap.m_addurl => addurl a
  | Heap.m_removeurl => removeurl a
  | Heap.m_stream_start => stream_start a
  | Heap.m_stream_end => stream_end a
  | Heap.m_username => url_username a
  | Heap.m_password => url_password a
  | Heap.m_auth_header => Some (auth_header a)
  | Heap.m_handle => None
  end.

(** The state under construction at address [base], in a heap that had the
    blocks [old] below [base]: every member that is set points to a live
    block of its own above [base], the strings in these blocks are the
    [values], every other block above [base] is a string, and the heap
    holds [n] blocks, the old ones untouched. *)
Definition building (base : nat) (old : gmap nat Heap.block)
    (values : Heap.member -> option string) (n : nat)
    (st : Heap.auth_url * Heap.heap) : Prop :=
  let u := fst st in
  let m := snd st in
  Heap.wf m
  /\ (forall q, (q < base)%nat -> Heap.live m !! q = old !! q)
  /\ Heap.live m !! base = Some Heap.UrlInfo
  /\ (forall q b, (base < q)%nat -> Heap.live m !! q = Some b ->
        (exists s, b = Heap.Bytes s) \/ Heap.handle u = Some q)
  /\ (forall f q, Heap.get f u = Some q ->
        (base < q)%nat /\ is_Some (Heap.live m !! q))
  /\ (forall f g q, Heap.get f u = Some q -> Heap.get g u = Some q -> f = g)
  /\ (forall f, Heap.string_at m (Heap.get f u) = values f)
  /\ size (Heap.live m) = n.

(** The pointers of a list that are not null. *)
Definition pointers (ps : list (option nat)) : list nat :=
  omap (fun p => p) ps.

(** The live blocks after the pointers [ps] were freed. *)
Definition released (ps : list (option nat)) (blocks : gmap nat Heap.block)
  : gmap nat Heap.block :=
  foldl (fun live p => from_option (fun q => delete q live) live p) blocks ps.

(** The strings the registration copies: one for every option of a name
    it knows but [header], whose copy replaces the one before. *)
Definition copies (options : list (string * string)) : nat :=
  (occurrences "username" options + occurrences "password" options
   + occurrences "add" options + occurrences "remove" options
   + occurrences "start" options + occurrences "end" options)%nat.

(** The heap of an installation before its registration: the
    authenticator, allocated by the caller. *)
Definition installation_heap : Heap.heap :=
  {| Heap.live := {[ 0%nat := Heap.Authenticator ]}; Heap.brk := 1 |}.

(** ** The credentials of the registration *)

(** The world with the [username] and [password] members of every
    authenticator state replaced. *)
Definition with_credentials (user pass : option string) (w : world) : world :=
  with_auths
    (fmap (fun au => set_state (set_credentials user pass <$> state au) au)) w.

(** The outcome in a changed world. *)
Definition outcome_map {A : Type} (f : world -> world) (o : outcome A)
  : outcome A :=
  match o with
  | Returns a w => Returns a (f w)
  | Undefined => Undefined
  end.

(** * Properties *)

(** ** Strings and formats *)

Lemma append_cons (c : ascii) (s t : string) :
  String c s +:+ t = String c (s +:+ t).
Proof. reflexivity. Qed.

Lemma append_empty_r (s : string) : s +:+ "" = s.
Proof. induction s as [| c s IH]; [done |]. by rewrite append_cons, IH. Qed.

Lemma length_append (s t : string) :
  String.length (s +:+ t) = (String.length s + String.length t)%nat.
Proof.
  induction s as [| c s IH]; [done |]. rewrite append_cons. cbn. by rewrite IH.
Qed.

(** A text that fits the buffer is not cut. *)
Lemma substring_all (n : nat) (s : string) :
  (String.length s <= n)%nat -> substring 0 n s = s.
Proof.
  revert n. induction s as [| c s IH]; intros n Hn.
  - by destruct n.
  - destruct n as [| n]; cbn in Hn; [lia |]. cbn. rewrite IH; [done | lia].
Qed.

(** The three formats of the file, run on their arguments. *)
Lemma format_auth (server mount_ user pass ip_ agent : string) (n : Z) :
  Libc.format ("action=auth&server=%s&client=%lu&mount=%s"
               +:+ "&user=%s&pass=%s&ip=%s&agent=%s")
    [Libc.ArgString server; Libc.ArgULong n; Libc.ArgString mount_;
     Libc.ArgString user; Libc.ArgString pass; Libc.ArgString ip_;
     Libc.ArgString agent]
  = Some (auth_body server (Libc.decimal n) mount_ user pass ip_ agent).
Proof.
  change (Some (auth_body server (Libc.decimal n) mount_ user pass ip_ (agent +:+ ""))
          = Some (auth_body server (Libc.decimal n) mount_ user pass ip_ agent)).
  by rewrite append_empty_r.
Qed.

Lemma format_remove (server mount_ user pass : string) (n d : Z) :
  Libc.format ("action=remove&server=%sclient=%lu&mount=%s"
               +:+ "&user=%s&pass=%s&duration=%lu")
    [Libc.ArgString server; Libc.ArgULong n; Libc.ArgString mount_;
     Libc.ArgString user; Libc.ArgString pass; Libc.ArgULong d]
  = Some ("action=remove&server=" +:+ server +:+ "client=" +:+ Libc.decimal n
          +:+ "&mount=" +:+ mount_ +:+ "&user=" +:+ user +:+ "&pass=" +:+ pass
          +:+ "&duration=" +:+ Libc.decimal d).
Proof. rewrite <- (append_empty_r (Libc.decimal d)). reflexivity. Qed.

Lemma format_stream (action fmt mount_ server : string) :
  fmt = "action=" +:+ action +:+ "&mount=%s&server=%s" ->
  action = "start"%string \/ action = "end"%string ->
  Libc.format fmt [Libc.ArgString mount_; Libc.ArgString server]
  = Some (stream_body action mount_ server).
Proof.
  intros -> Haction. rewrite <- (append_empty_r server) at 2.
  by destruct Haction as [-> | ->].
Qed.

Lemma snprintf_format size fmt args out :
  Libc.format fmt args = Some out ->
  Libc.snprintf size fmt args = Some (substring 0 (size - 1) out).
Proof. intros E. unfold Libc.snprintf. by rewrite E. Qed.

(** A count that an [int] holds comes back from the callback as it is. *)
Lemma byte_count_small (size nmemb : Z) :
  0 <= size * nmemb <= Libc.INT_MAX -> byte_count size nmemb = size * nmemb.
Proof.
  unfold byte_count, Libc.to_signed, Libc.to_unsigned, Libc.INT_MAX, Libc.INT_BITS.
  intros Hn. change (2 ^ (32 - 1)) with 2147483648 in *.
  change (2 ^ 32) with 4294967296.
  rewrite Z.mod_mod by lia. rewrite Z.mod_small by lia.
  destruct (Z.ltb_spec (size * nmemb) 2147483648); lia.
Qed.

Lemma to_signed_small (n : Z) :
  0 <= n <= Libc.INT_MAX -> Libc.to_signed Libc.INT_BITS n = n.
Proof.
  unfold Libc.to_signed, Libc.INT_MAX, Libc.INT_BITS. intros Hn.
  change (2 ^ (32 - 1)) with 2147483648 in *. change (2 ^ 32) with 4294967296.
  rewrite Z.mod_small by lia.
  destruct (Z.ltb_spec n 2147483648); lia.
Qed.

Lemma tolower_nonzero (c : Z) : c <> 0 -> Libc.tolower c <> 0.
Proof.
  unfold Libc.tolower. intros Hc.
  destruct (Z.leb_spec 65 c), (Z.leb_spec c 90); cbn; lia.
Qed.

(** [strncasecmp], one character at a time. *)
Lemma strncasecmp_unfold (s1 s2 : string) (n : Z) :
  Libc.strncasecmp s1 s2 n
  = if n <=? 0 then 0
    else
      let c1 := Libc.tolower (Libc.char_at_head s1) in
      let c2 := Libc.tolower (Libc.char_at_head s2) in
      if negb (c1 =? c2) then c1 - c2
      else if c1 =? 0 then 0
      else Libc.strncasecmp (Libc.string_tail s1) (Libc.string_tail s2) (n - 1).
Proof.
  destruct s1 as [| a r1]; cbn [Libc.strncasecmp Libc.string_tail]; [| done].
  destruct (n <=? 0); [done |]. cbn [Libc.char_at_head].
  change (Libc.tolower 0) with 0. cbv zeta.
  by destruct (negb (0 =? Libc.tolower (Libc.char_at_head s2))).
Qed.

(** [strncasecmp] over the whole length of a C string is the prefix test. *)
Lemma strncasecmp_prefix (hdr line : string) :
  c_string hdr = true ->
  (Libc.strncasecmp line hdr (Z.of_nat (String.length hdr)) =? 0)
  = prefix_nocase hdr line.
Proof.
  revert line. induction hdr as [| a hdr IH]; intros line Hc.
  - rewrite strncasecmp_unfold. by cbn.
  - cbn in Hc. apply andb_true_iff in Hc as [Ha Hc].
    apply negb_true_iff, Z.eqb_neq, tolower_nonzero in Ha.
    rewrite strncasecmp_unfold.
    assert ((Z.of_nat (String.length (String a hdr)) <=? 0) = false) as ->
      by (apply Z.leb_gt; cbn [String.length]; lia).
    replace (Z.of_nat (String.length (String a hdr)) - 1)
      with (Z.of_nat (String.length hdr)) by (cbn [String.length]; lia).
    cbv zeta. cbn [Libc.char_at_head Libc.string_tail].
    destruct line as [| b line]; cbn [Libc.char_at_head Libc.string_tail prefix_nocase].
    + change (Libc.tolower 0) with 0.
      destruct (Z.eqb_spec 0 (Libc.tolower (Libc.code a))) as [E | E]; [lia |].
      cbn [negb]. apply Z.eqb_neq. lia.
    + rewrite (Z.eqb_sym (Libc.tolower (Libc.code a))).
      destruct (Z.eqb_spec (Libc.tolower (Libc.code b)) (Libc.tolower (Libc.code a)))
        as [E | E]; cbn [negb andb].
      * rewrite E. destruct (Z.eqb_spec (Libc.tolower (Libc.code a)) 0); [lia |].
        by apply IH.
      * apply Z.eqb_neq. lia.
Qed.

Lemma header_matches_prefix (url : auth_url) (line : string) :
  auth_header_len url = Libc.strlen (auth_header url) ->
  c_string (auth_header url) = true ->
  header_matches url line = prefix_nocase (auth_header url) line.
Proof.
  intros Hlen Hc. unfold header_matches. rewrite Hlen.
  unfold Libc.int_to_size_t, Libc.strlen.
  assert ((Z.of_nat (String.length (auth_header url)) <? 0) = false) as ->
    by (apply Z.ltb_ge; lia).
  by apply strncasecmp_prefix.
Qed.

(** ** Running the monad *)

Lemma run_bind {A B} (m : M A) (f : A -> M B) w :
  (m ≫= f) w
  = match m w with Returns a w' => f a w' | Undefined => Undefined end.
Proof. reflexivity. Qed.

Lemma run_ret {A} (a : A) w : mret (M := M) a w = Returns a w.
Proof. reflexivity. Qed.

Lemma run_deref {A} (a : A) w : deref (Some a) w = Returns a w.
Proof. reflexivity. Qed.

Lemma run_load_client c cl w :
  clients w !! c = Some cl -> load_client c w = Returns cl w.
Proof. intros E. unfold load_client. rewrite run_bind. cbn. by rewrite E. Qed.

Lemma run_load_auth a au w :
  auths w !! a = Some au -> load_auth a w = Returns au w.
Proof. intros E. unfold load_auth. rewrite run_bind. cbn. by rewrite E. Qed.

Lemma run_store_auth a au v w :
  auths w !! a = Some au ->
  store_auth a v w = Returns tt (with_auths (insert a v) w).
Proof.
  intros E. unfold store_auth. by rewrite run_bind, (run_load_auth _ _ _ E).
Qed.

Lemma run_store_client c cl v w :
  clients w !! c = Some cl ->
  store_client c v w = Returns tt (with_clients (insert c v) w).
Proof.
  intros E. unfold store_client. by rewrite run_bind, (run_load_client _ _ _ E).
Qed.

Lemma run_config_get w :
  config_get_config w
  = Returns (config w)
      (with_trace (fun t => t ++ [EvConfigAcquire]) (with_config_held S w)).
Proof. reflexivity. Qed.

Lemma run_config_release n w :
  config_held w = S n ->
  config_release_config w
  = Returns tt (with_trace (fun t => t ++ [EvConfigRelease])
                  (with_config_held (fun _ => n) w)).
Proof.
  intros E. unfold config_release_config. rewrite run_bind. cbn. by rewrite E.
Qed.

(** Acquire, read, release: the snapshot of the listener flows. *)
Lemma run_snapshot_read {B : Type} (k : ice_config_t -> M B) w :
  (config_get_config ≫= fun config => config_release_config ≫= fun _ => k config) w
  = k (config w)
      (with_trace (fun t => t ++ [EvConfigAcquire; EvConfigRelease]) w).
Proof.
  rewrite run_bind, run_config_get. cbv beta iota.
  rewrite run_bind, (run_config_release (config_held w)) by reflexivity.
  f_equal. destruct w; unfold with_trace, with_config_held; cbn.
  by rewrite <- app_assoc.
Qed.

Lemma run_auth_release a au w :
  auths w !! a = Some au ->
  auth_release (Some a) w
  = Returns tt
      (with_auths (if refcount au - 1 =? 0 then delete a
                   else insert a (set_refcount (refcount au - 1) au))
         (with_trace (fun t => t ++ [EvAuthRelease a]) w)).
Proof.
  intros Eau. unfold auth_release.
  rewrite run_bind, (run_load_auth _ _ _ Eau), run_bind.
  change (emit (EvAuthRelease a) w)
    with (Returns tt (with_trace (fun t => t ++ [EvAuthRelease a]) w)).
  cbv beta iota zeta. destruct (refcount au - 1 =? 0); [reflexivity |].
  by rewrite (run_store_auth a au).
Qed.

Lemma run_warning {B : Type} (k : unit -> M B) res target w :
  ((if negb (res =? 0) then WARN2 target else mret tt) ≫= k) w
  = k tt (with_trace (fun t => t ++ warning res target) w).
Proof.
  rewrite run_bind. unfold warning.
  destruct (res =? 0); cbn [negb]; [| reflexivity].
  rewrite run_ret. f_equal. destruct w; unfold with_trace; cbn.
  by rewrite app_nil_r.
Qed.

Lemma with_clients_same w : with_clients (fun _ => clients w) w = w.
Proof. by destruct w. Qed.

(** The first statements of a listener flow: the client, its authenticator
    and the state behind it are read. *)
Ltac run_listener_prologue Hc Hcl Ha Hau Hs :=
  rewrite Hc, run_bind, run_deref, run_bind, (run_load_client _ _ _ Hcl),
    Ha, run_bind, run_deref, run_bind, (run_load_auth _ _ _ Hau),
    Hs, run_bind, run_deref.

(** The first statements of a stream flow: the snapshot is acquired and the
    mount, its authenticator and the state behind it are read. *)
Ltac run_stream_prologue Hm Ha Hau Hs :=
  rewrite run_bind, run_config_get; cbv beta iota;
  rewrite Hm, run_bind, run_deref, Ha, run_bind, run_deref;
  lazymatch type of Hau with
  | auths _ !! ?a = Some ?au =>
      rewrite run_bind, (run_load_auth a au) by exact Hau
  end;
  rewrite Hs, run_bind, run_deref.

(** ** The header callback *)

Lemma run_header_none line size nmemb stream w :
  client stream = None ->
  handle_returned_header line size nmemb stream w
  = Returns (byte_count size nmemb) w.
Proof. intros E. unfold handle_returned_header. by rewrite E. Qed.

Lemma run_header_client line size nmemb stream c cl a au url w :
  client stream = Some c -> clients w !! c = Some cl -> auth cl = Some a ->
  auths w !! a = Some au -> state au = Some url ->
  handle_returned_header line size nmemb stream w
  = Returns (byte_count size nmemb)
      (if header_matches url line
       then with_clients (insert c (set_authenticated 1 cl)) w else w).
Proof.
  intros Hc Hcl Ha Hau Hs. unfold handle_returned_header. rewrite Hc.
  rewrite run_bind, (run_load_client _ _ _ Hcl), Ha, run_bind, run_deref,
    run_bind, (run_load_auth _ _ _ Hau), Hs, run_bind, run_deref, run_bind.
  fold (header_matches url line). destruct (header_matches url line).
  - by rewrite (run_store_client _ _ _ _ Hcl).
  - reflexivity.
Qed.

Lemma flagged_lookup auth_user cs0 cs c cl :
  flagged auth_user cs0 cs -> client auth_user = Some c -> cs0 !! c = Some cl ->
  exists v, cs !! c = Some (set_authenticated v cl).
Proof.
  intros [-> | (c' & cl' & Hc' & Hl' & ->)] Hc Hl.
  - exists (authenticated cl). rewrite Hl. by destruct cl.
  - assert (c' = c) as -> by congruence. assert (cl' = cl) as -> by congruence.
    exists 1. apply lookup_insert_eq.
Qed.

Lemma flagged_trans auth_user cs0 cs1 cs2 :
  flagged auth_user cs0 cs1 -> flagged auth_user cs1 cs2 ->
  flagged auth_user cs0 cs2.
Proof.
  intros [-> | (c & cl & Hc & Hl & ->)]; [done |].
  intros [-> | (c' & cl' & Hc' & Hl' & ->)]; right; exists c, cl.
  - done.
  - split; [done |]. split; [done |].
    assert (c' = c) as -> by congruence.
    rewrite lookup_insert_eq in Hl'. inversion Hl'; subst.
    by rewrite insert_insert_eq.
Qed.

Lemma listener_ok_flagged auth_user w cs :
  listener_ok w auth_user -> flagged auth_user (clients w) cs ->
  listener_ok (with_clients (fun _ => cs) w) auth_user.
Proof.
  unfold listener_ok. intros Hok Hf.
  destruct (client auth_user) as [c|] eqn:Hc; [| done].
  destruct Hok as (cl & a & au & url & Hcl & Ha & Hau & Hs).
  destruct (flagged_lookup _ _ _ _ _ Hf Hc Hcl) as (v & Hv).
  by exists (set_authenticated v cl), a, au, url.
Qed.

Lemma listener_ok_insert_auth w a au au' url' auth_user :
  listener_ok w auth_user -> auths w !! a = Some au -> state au' = Some url' ->
  listener_ok (with_auths (insert a au') w) auth_user.
Proof.
  unfold listener_ok. destruct (client auth_user) as [c|]; [| done].
  intros (cl & a0 & au0 & url0 & Hcl & Ha & Hau & Hs) Ea Es.
  destruct (decide (a = a0)) as [-> | Hne].
  - exists cl, a0, au', url'. cbn. by rewrite lookup_insert_eq.
  - exists cl, a0, au0, url0. cbn. by rewrite lookup_insert_ne.
Qed.

Lemma listener_ok_ext w w' auth_user :
  listener_ok w auth_user -> clients w' = clients w -> auths w' = auths w ->
  listener_ok w' auth_user.
Proof. unfold listener_ok. by intros Hok -> ->. Qed.

(** One line offered to the callback, for any event it can serve. *)
Lemma run_header_line line auth_user w :
  listener_ok w auth_user ->
  exists cs,
    handle_returned_header line 1 (Libc.strlen line) auth_user w
    = Returns (byte_count 1 (Libc.strlen line)) (with_clients (fun _ => cs) w)
    /\ flagged auth_user (clients w) cs.
Proof.
  unfold listener_ok. destruct (client auth_user) as [c|] eqn:Hc.
  - intros (cl & a & au & url & Hcl & Ha & Hau & Hs).
    rewrite (run_header_client _ _ _ _ _ _ _ _ _ _ Hc Hcl Ha Hau Hs).
    destruct (header_matches url line).
    + exists (<[c := set_authenticated 1 cl]> (clients w)). split; [done |].
      right. eauto.
    + exists (clients w). rewrite with_clients_same. split; [done | by left].
  - intros _. rewrite (run_header_none _ _ _ _ _ Hc). exists (clients w).
    rewrite with_clients_same. split; [done | by left].
Qed.

(** The header lines of a reply: only the flag of the listener can change,
    and lines of a length that an [int] holds are all delivered. *)
Lemma run_deliver_headers lines auth_user w :
  listener_ok w auth_user ->
  exists ok cs,
    deliver_headers lines auth_user w = Returns ok (with_clients (fun _ => cs) w)
    /\ flagged auth_user (clients w) cs
    /\ (Forall (fun line => Libc.strlen line <= Libc.INT_MAX) lines -> ok = true).
Proof.
  revert w. induction lines as [| line rest IH]; intros w Hok.
  - exists true, (clients w). cbn. rewrite run_ret, with_clients_same.
    split; [done |]. split; [by left | done].
  - cbn [deliver_headers]. rewrite run_bind.
    destruct (run_header_line line auth_user w Hok) as (cs & -> & Hf).
    destruct (byte_count 1 (Libc.strlen line) =? Libc.strlen line) eqn:Ecount.
    + destruct (IH (with_clients (fun _ => cs) w)) as (ok & cs' & E & Hf' & Hall).
      { by apply listener_ok_flagged. }
      exists ok, cs'. rewrite E. split; [done |].
      split; [eapply flagged_trans; eauto |].
      intros Hlen. apply Hall. by inversion Hlen.
    + exists false, cs. rewrite run_ret. split; [done |]. split; [done |].
      intros Hlen. inversion Hlen as [| ? ? Hline _]; subst.
      assert (byte_count 1 (Libc.strlen line) = Libc.strlen line) as Eline
        by (rewrite byte_count_small; unfold Libc.strlen in *; lia).
      by rewrite Eline, Z.eqb_refl in Ecount.
Qed.

(** ** The transport call *)

Lemma run_setopt a au url f w :
  auths w !! a = Some au -> state au = Some url ->
  curl_easy_setopt a f w
  = Returns tt
      (with_auths
         (insert a (set_state (Some (set_handle (f <$> handle url) url)) au)) w).
Proof.
  intros Hau Hs. unfold curl_easy_setopt.
  rewrite run_bind, (run_load_auth _ _ _ Hau), Hs, run_bind, run_deref.
  apply (run_store_auth _ _ _ _ Hau).
Qed.

Section Transport.
Context `{External}.

Lemma run_perform a au url h auth_user w :
  auths w !! a = Some au -> state au = Some url ->
  handle url = Some h -> CURLOPT_WRITEHEADER h = Some auth_user ->
  listener_ok w auth_user ->
  exists res cs,
    curl_easy_perform a w
    = Returns res
        (with_clients (fun _ => cs)
           (with_trace
              (fun t => t ++ match CURLOPT_URL h with
                             | Some u =>
                                 [EvPerform u
                                    (default EmptyString (CURLOPT_POSTFIELDS h))]
                             | None => []
                             end) w))
    /\ flagged auth_user (clients w) cs.
Proof.
  intros Hau Hs Hh Hw Hok. unfold curl_easy_perform.
  rewrite run_bind, (run_load_auth _ _ _ Hau), Hs, run_bind, run_deref, Hh.
  destruct (CURLOPT_URL h) as [u|].
  2:{ exists CURLE_URL_MALFORMAT, (clients w). rewrite run_ret.
      split; [| by left]. f_equal. destruct w; unfold with_clients, with_trace; cbn.
      by rewrite app_nil_r. }
  rewrite run_bind.
  change (emit (EvPerform u (default EmptyString (CURLOPT_POSTFIELDS h))) w)
    with (Returns tt
            (with_trace
               (fun t => t ++ [EvPerform u (default EmptyString (CURLOPT_POSTFIELDS h))])
               w)).
  set (w1 := with_trace _ w). rewrite Hw.
  destruct (CURLOPT_HEADERFUNCTION h) as [[|]|].
  - rewrite run_bind.
    destruct (run_deliver_headers
                (reply_headers
                   (http_server u (default EmptyString (CURLOPT_POSTFIELDS h))))
                auth_user w1 Hok) as (ok & cs & -> & Hf & _).
    eexists _, cs. rewrite run_ret. split; [reflexivity | exact Hf].
  - eexists _, (clients w). rewrite run_ret. split; [| by left]. by f_equal.
  - eexists _, (clients w). rewrite run_ret. split; [| by left]. by f_equal.
Qed.

(** The three options and the transfer, as every flow issues them, in
    front of any continuation [k]. *)
Lemma run_request a au url target post auth_user w :
  auths w !! a = Some au -> state au = Some url ->
  listener_ok w auth_user ->
  exists res cs,
    let w1 := with_clients (fun _ => cs)
                (with_trace (fun t => t ++ request_of target post url)
                   (with_auths
                      (insert a (requesting target post auth_user url au)) w)) in
    transport_call a target post auth_user w = Returns res w1
    /\ flagged auth_user (clients w) cs
    /\ forall (B : Type) (k : Z -> M B),
        (curl_easy_setopt a (opt_URL target);;
         curl_easy_setopt a (opt_POSTFIELDS post);;
         curl_easy_setopt a (opt_WRITEHEADER auth_user);;
         curl_easy_perform a ≫= k) w = k res w1.
Proof.
  intros Hau Hs Hok.
  pose proof (run_setopt a au url (opt_URL target) w Hau Hs) as E1.
  set (au1 := set_state _ au) in E1. set (w1 := with_auths _ w) in E1.
  assert (auths w1 !! a = Some au1) as Hau1 by (cbn; apply lookup_insert_eq).
  pose proof (run_setopt a au1 _ (opt_POSTFIELDS post) w1 Hau1 eq_refl) as E2.
  set (au2 := set_state _ au1) in E2. set (w2 := with_auths _ w1) in E2.
  assert (auths w2 !! a = Some au2) as Hau2 by (cbn; apply lookup_insert_eq).
  pose proof (run_setopt a au2 _ (opt_WRITEHEADER auth_user) w2 Hau2 eq_refl) as E3.
  set (au3 := set_state _ au2) in E3. set (w3 := with_auths _ w2) in E3.
  assert (auths w3 !! a = Some au3) as Hau3 by (cbn; apply lookup_insert_eq).
  assert (w3 = with_auths (insert a (requesting target post auth_user url au)) w)
    as Ew3.
  { subst w3 w2 w1. unfold with_auths; cbn. by rewrite !insert_insert_eq. }
  clearbody w3. subst w3.
  set (w3 := with_auths (insert a (requesting target post auth_user url au)) w) in *.
  assert (listener_ok w3 auth_user) as Hok3.
  { eapply listener_ok_insert_auth; eauto. }
  assert (forall res w',
             curl_easy_perform a w3 = Returns res w' ->
             transport_call a target post auth_user w = Returns res w'
             /\ forall (B : Type) (k : Z -> M B),
                 (curl_easy_setopt a (opt_URL target);;
                  curl_easy_setopt a (opt_POSTFIELDS post);;
                  curl_easy_setopt a (opt_WRITEHEADER auth_user);;
                  curl_easy_perform a ≫= k) w = k res w') as Hsteps.
  { intros res w' Ep. split.
    - unfold transport_call. by rewrite run_bind, E1, run_bind, E2, run_bind, E3.
    - intros B k.
      by rewrite run_bind, E1, run_bind, E2, run_bind, E3, run_bind, Ep. }
  destruct (handle url) as [h|] eqn:Hh.
  - destruct (run_perform a au3 _ _ auth_user w3 Hau3 eq_refl eq_refl eq_refl Hok3)
      as (res & cs & Ep & Hf).
    cbn [CURLOPT_URL CURLOPT_POSTFIELDS opt_WRITEHEADER opt_POSTFIELDS opt_URL
           default] in Ep.
    apply Hsteps in Ep as [Ecall Hk].
    exists res, cs. unfold request_of. rewrite Hh. done.
  - assert (curl_easy_perform a w3 = Returns CURLE_BAD_FUNCTION_ARGUMENT w3) as Ep.
    { unfold curl_easy_perform. by rewrite run_bind, (run_load_auth _ _ _ Hau3). }
    apply Hsteps in Ep as [Ecall Hk].
    assert (w3 = with_clients (fun _ => clients w)
                   (with_trace (fun t => t ++ request_of target post url) w3))
      as Ew3'.
    { subst w3. unfold request_of. rewrite Hh.
      destruct w; unfold with_clients, with_trace, with_auths; cbn.
      by rewrite app_nil_r. }
    exists CURLE_BAD_FUNCTION_ARGUMENT, (clients w). cbn zeta. rewrite <- Ew3'.
    split; [done |]. split; [by left | done].
Qed.

End Transport.

(** ** The four flows, run *)

(** A stream flow without an endpoint, after its prologue. *)
Ltac run_stream_without_endpoint w Hu :=
  rewrite Hu, run_bind, (run_config_release (config_held w)) by reflexivity;
  rewrite run_ret; f_equal;
  destruct w; unfold with_trace, with_config_held; cbn;
  by rewrite <- app_assoc.

(** A stream flow with an endpoint, after its prologue: the pin, the release
    of the snapshot, the request, the warning and the unpin. *)
Ltac run_stream_with_endpoint w auth_user a au url action post Hau Hs Hu Hok :=
  rewrite Hu; cbv zeta;
  rewrite run_bind, (run_load_auth a au) by exact Hau;
  rewrite run_bind, (run_store_auth a au) by exact Hau;
  rewrite run_bind, (run_config_release (config_held w)) by reflexivity;
  rewrite (snprintf_format _ _ _ _
             (format_stream action _ _ _ eq_refl ltac:(auto)));
  change (substring 0 (4096 - 1) _) with post;
  rewrite run_bind, run_deref;
  set (pinned := set_refcount (refcount au + 1) au);
  match goal with
  | |- context [ (curl_easy_setopt a (opt_URL ?target) ≫= _) ?w0 ] =>
      destruct (run_request a pinned url target post auth_user w0)
        as (res & cs & _ & Hf & Hk);
      [ apply lookup_insert_eq
      | exact Hs
      | apply (listener_ok_ext (with_auths (insert a pinned) w));
        [ apply listener_ok_insert_auth with (au := au) (url' := url);
          [exact Hok | exact Hau | exact Hs]
        | reflexivity | reflexivity ]
      | ];
      cbv zeta in Hk; rewrite Hk, run_warning;
      rewrite run_bind,
        (run_auth_release a (requesting target post auth_user url pinned))
        by apply lookup_insert_eq;
      rewrite run_ret; eexists res, _; split; [reflexivity |];
      cbn; replace (refcount au + 1 - 1) with (refcount au) by lia;
      split; [| split; [exact Hf | split; [by rewrite <- !app_assoc | reflexivity]]];
      destruct (refcount au =? 0);
      [ by rewrite !delete_insert_eq | by rewrite !insert_insert_eq ]
  end.

Section Flows.
Context `{External}.

Lemma run_add_none auth_user c cl a au url w :
  client auth_user = Some c -> clients w !! c = Some cl -> auth cl = Some a ->
  auths w !! a = Some au -> state au = Some url -> addurl url = None ->
  auth_addurl_client auth_user w = Returns AUTH_OK w.
Proof.
  intros Hc Hcl Ha Hau Hs Hu. unfold auth_addurl_client.
  run_listener_prologue Hc Hcl Ha Hau Hs. by rewrite Hu.
Qed.

Lemma run_add auth_user c cl a au url target w :
  client auth_user = Some c -> clients w !! c = Some cl -> auth cl = Some a ->
  auths w !! a = Some au -> state au = Some url -> addurl url = Some target ->
  let post := add_post (config w) auth_user cl in
  let w0 := with_trace (fun t => t ++ [EvConfigAcquire; EvConfigRelease]) w in
  exists res cs v,
    let w1 := with_clients (fun _ => cs)
                (with_trace (fun t => t ++ request_of target post url)
                   (with_auths
                      (insert a (requesting target post auth_user url au)) w0)) in
    transport_call a target post auth_user w0 = Returns res w1
    /\ cs !! c = Some (set_authenticated v cl)
    /\ auth_addurl_client auth_user w
       = if negb (res =? 0)
         then Returns AUTH_FAILED (with_trace (fun t => t ++ [EvWarn target]) w1)
         else if negb (v =? 0)
              then Returns (if fst (auth_postprocess_client auth_user cs) <? 0
                            then AUTH_FAILED else AUTH_OK)
                     (with_clients
                        (fun _ => snd (auth_postprocess_client auth_user cs)) w1)
              else Returns AUTH_FAILED w1.
Proof.
  intros Hc Hcl Ha Hau Hs Hu post w0. unfold auth_addurl_client.
  run_listener_prologue Hc Hcl Ha Hau Hs. rewrite Hu. cbv zeta.
  rewrite run_snapshot_read. fold w0.
  rewrite (snprintf_format _ _ _ _ (format_auth _ _ _ _ _ _ _)).
  change (substring 0 (1024 - 1) _) with post.
  rewrite run_bind, run_deref.
  destruct (run_request a au url target post auth_user w0)
    as (res & cs & Ecall & Hf & Hk); [done | done | |].
  { unfold listener_ok. rewrite Hc. by exists cl, a, au, url. }
  destruct (flagged_lookup _ _ _ _ _ Hf Hc Hcl) as (v & Hv).
  exists res, cs, v. cbv zeta in *. split; [exact Ecall |]. split; [exact Hv |].
  rewrite Hk. destruct (res =? 0); cbn [negb]; [| reflexivity].
  rewrite run_bind, (run_load_client c (set_authenticated v cl)) by exact Hv.
  change (authenticated (set_authenticated v cl)) with v.
  destruct (v =? 0); cbn [negb]; [reflexivity |].
  rewrite run_bind. unfold run_postprocess. rewrite run_bind. cbn [get_world].
  change (clients _) with cs.
  destruct (auth_postprocess_client auth_user cs) as [r cs']. cbn [fst snd].
  rewrite run_bind. cbn [modify]. rewrite run_ret.
  by destruct (r <? 0).
Qed.

Lemma run_remove_none auth_user c cl a au url w :
  client auth_user = Some c -> clients w !! c = Some cl -> auth cl = Some a ->
  auths w !! a = Some au -> state au = Some url -> removeurl url = None ->
  auth_removeurl_client auth_user w = Returns AUTH_OK w.
Proof.
  intros Hc Hcl Ha Hau Hs Hu. unfold auth_removeurl_client.
  run_listener_prologue Hc Hcl Ha Hau Hs. rewrite run_bind.
  change (time w) with (Returns (clock w) w). cbv beta iota zeta.
  by rewrite Hu.
Qed.

Lemma run_remove auth_user c cl a au url target w :
  client auth_user = Some c -> clients w !! c = Some cl -> auth cl = Some a ->
  auths w !! a = Some au -> state au = Some url -> removeurl url = Some target ->
  let post := removeurl_post (config w) auth_user cl (clock w) in
  let w0 := with_trace (fun t => t ++ [EvConfigAcquire; EvConfigRelease]) w in
  exists res w1 w' v,
    transport_call a target post auth_user w0 = Returns res w1
    /\ auth_removeurl_client auth_user w = Returns AUTH_OK w'
    /\ clients w' !! c = Some (set_auth None (set_authenticated v cl))
    /\ (forall c', c' <> c -> clients w' !! c' = clients w !! c')
    /\ auths w'
       = (if refcount au - 1 =? 0 then delete a (auths w)
          else <[a := set_refcount (refcount au - 1)
                        (requesting target post auth_user url au)]> (auths w))
    /\ trace w'
       = trace w ++ EvConfigAcquire :: EvConfigRelease
           :: request_of target post url ++ warning res target
           ++ [EvAuthRelease a]
    /\ config_held w' = config_held w.
Proof.
  intros Hc Hcl Ha Hau Hs Hu post w0. unfold auth_removeurl_client.
  run_listener_prologue Hc Hcl Ha Hau Hs. rewrite run_bind.
  change (time w) with (Returns (clock w) w). cbv beta iota zeta.
  rewrite Hu, run_snapshot_read. fold w0.
  rewrite (snprintf_format _ _ _ _ (format_remove _ _ _ _ _ _)).
  change (substring 0 (1024 - 1) _) with post.
  rewrite run_bind, run_deref.
  destruct (run_request a au url target post auth_user w0)
    as (res & cs & Ecall & Hf & Hk); [done | done | |].
  { unfold listener_ok. rewrite Hc. by exists cl, a, au, url. }
  destruct (flagged_lookup _ _ _ _ _ Hf Hc Hcl) as (v & Hv).
  cbv zeta in *. rewrite Hk, run_warning.
  rewrite run_bind, (run_load_client c (set_authenticated v cl)) by exact Hv.
  change (auth (set_authenticated v cl)) with (auth cl). rewrite Ha.
  rewrite run_bind, (run_auth_release a (requesting target post auth_user url au))
    by apply lookup_insert_eq.
  rewrite run_bind, (run_load_client c (set_authenticated v cl)) by exact Hv.
  rewrite run_bind, (run_store_client c (set_authenticated v cl)) by exact Hv.
  rewrite run_ret.
  eexists res, _, _, v. split; [exact Ecall |]. split; [reflexivity |].
  cbn. split; [apply lookup_insert_eq |]. split; [| split; [| split]].
  - intros c' Hne. rewrite lookup_insert_ne by done.
    destruct Hf as [-> | (c0 & cl0 & E0 & _ & ->)]; [done |].
    rewrite lookup_insert_ne; [done | congruence].
  - destruct (refcount au - 1 =? 0).
    + by rewrite delete_insert_eq.
    + by rewrite insert_insert_eq.
  - by rewrite <- !app_assoc.
  - reflexivity.
Qed.

Lemma run_stream_start_none auth_user mi a au url w :
  config_find_mount (config w) (mount auth_user) = Some mi ->
  mount_auth mi = Some a -> auths w !! a = Some au -> state au = Some url ->
  stream_start url = None ->
  url_stream_start auth_user w
  = Returns AUTH_OK
      (with_trace (fun t => t ++ [EvConfigAcquire; EvConfigRelease]) w).
Proof.
  intros Hm Ha Hau Hs Hu. unfold url_stream_start.
  run_stream_prologue Hm Ha Hau Hs. run_stream_without_endpoint w Hu.
Qed.

Lemma run_stream_end_none auth_user mi a au url w :
  config_find_mount (config w) (mount auth_user) = Some mi ->
  mount_auth mi = Some a -> auths w !! a = Some au -> state au = Some url ->
  stream_end url = None ->
  url_stream_end auth_user w
  = Returns AUTH_OK
      (with_trace (fun t => t ++ [EvConfigAcquire; EvConfigRelease]) w).
Proof.
  intros Hm Ha Hau Hs Hu. unfold url_stream_end.
  run_stream_prologue Hm Ha Hau Hs. run_stream_without_endpoint w Hu.
Qed.

Lemma run_stream_start auth_user mi a au url target w :
  config_find_mount (config w) (mount auth_user) = Some mi ->
  mount_auth mi = Some a -> auths w !! a = Some au -> state au = Some url ->
  stream_start url = Some target -> listener_ok w auth_user ->
  let post := stream_post "start" (config w) auth_user in
  exists res w',
    url_stream_start auth_user w = Returns AUTH_OK w'
    /\ auths w'
       = (if refcount au =? 0 then delete a (auths w)
          else <[a := set_refcount (refcount au)
                        (requesting target post auth_user url au)]> (auths w))
    /\ flagged auth_user (clients w) (clients w')
    /\ trace w'
       = trace w ++ EvConfigAcquire :: EvConfigRelease
           :: request_of target post url ++ warning res target
           ++ [EvAuthRelease a]
    /\ config_held w' = config_held w.
Proof.
  intros Hm Ha Hau Hs Hu Hok post. unfold url_stream_start.
  run_stream_prologue Hm Ha Hau Hs.
  run_stream_with_endpoint w auth_user a au url "start"%string post Hau Hs Hu Hok.
Qed.

Lemma run_stream_end auth_user mi a au url target w :
  config_find_mount (config w) (mount auth_user) = Some mi ->
  mount_auth mi = Some a -> auths w !! a = Some au -> state au = Some url ->
  stream_end url = Some target -> listener_ok w auth_user ->
  let post := stream_post "end" (config w) auth_user in
  exists res w',
    url_stream_end auth_user w = Returns AUTH_OK w'
    /\ auths w'
       = (if refcount au =? 0 then delete a (auths w)
          else <[a := set_refcount (refcount au)
                        (requesting target post auth_user url au)]> (auths w))
    /\ flagged auth_user (clients w) (clients w')
    /\ trace w'
       = trace w ++ EvConfigAcquire :: EvConfigRelease
           :: request_of target post url ++ warning res target
           ++ [EvAuthRelease a]
    /\ config_held w' = config_held w.
Proof.
  intros Hm Ha Hau Hs Hu Hok post. unfold url_stream_end.
  run_stream_prologue Hm Ha Hau Hs.
  run_stream_with_endpoint w auth_user a au url "end"%string post Hau Hs Hu Hok.
Qed.

End Flows.

(** ** When the flows are defined *)

Section Definedness.
Context `{External}.

Lemma listener_flow_inv (auth_user : auth_client) (w : world) :
  (exists c cl a au url,
      client auth_user = Some c /\ clients w !! c = Some cl /\ auth cl = Some a
      /\ auths w !! a = Some au /\ state au = Some url)
  \/ (auth_addurl_client auth_user w = Undefined
      /\ auth_removeurl_client auth_user w = Undefined).
Proof.
  unfold auth_addurl_client, auth_removeurl_client.
  destruct (client auth_user) as [c|] eqn:Hc; [| by right].
  rewrite !run_bind, !run_deref.
  destruct (clients w !! c) as [cl|] eqn:Hcl.
  2:{ right. unfold load_client. rewrite !run_bind. cbn [get_world]. by rewrite Hcl. }
  rewrite !run_bind, !(run_load_client _ _ _ Hcl).
  destruct (auth cl) as [a|] eqn:Ha; [| by right].
  rewrite !run_bind, !run_deref.
  destruct (auths w !! a) as [au|] eqn:Hau.
  2:{ right. unfold load_auth. rewrite !run_bind. cbn [get_world]. by rewrite Hau. }
  rewrite !run_bind, !(run_load_auth _ _ _ Hau).
  destruct (state au) as [url|] eqn:Hs; [| by right].
  left. by exists c, cl, a, au, url.
Qed.

Lemma stream_flow_inv (auth_user : auth_client) (w : world) :
  (exists mi a au url,
      config_find_mount (config w) (mount auth_user) = Some mi
      /\ mount_auth mi = Some a /\ auths w !! a = Some au /\ state au = Some url)
  \/ (url_stream_start auth_user w = Undefined
      /\ url_stream_end auth_user w = Undefined).
Proof.
  unfold url_stream_start, url_stream_end.
  rewrite !run_bind, !run_config_get. cbv beta iota.
  destruct (config_find_mount (config w) (mount auth_user)) as [mi|] eqn:Hm; [| by right].
  rewrite !run_bind, !run_deref.
  destruct (mount_auth mi) as [a|] eqn:Ha; [| by right].
  rewrite !run_bind, !run_deref.
  destruct (auths w !! a) as [au|] eqn:Hau.
  2:{ right. unfold load_auth. rewrite !run_bind. cbn [get_world]. cbn. by rewrite Hau. }
  rewrite !run_bind, !(run_load_auth a au) by exact Hau.
  destruct (state au) as [url|] eqn:Hs; [| by right].
  left. by exists mi, a, au, url.
Qed.

End Definedness.

(** ** Traces *)

Lemma posts_app (t1 t2 : list event) : posts (t1 ++ t2) = posts t1 ++ posts t2.
Proof.
  induction t1 as [| e t1 IH]; [done |].
  destruct e; cbn; by rewrite ?IH.
Qed.

Lemma posts_flow (tr : list event) (target post : string) (url : auth_url)
    (h : CURL) (res : Z) (rest : list event) :
  handle url = Some h -> posts rest = [] ->
  posts (tr ++ EvConfigAcquire :: EvConfigRelease
            :: request_of target post url ++ warning res target ++ rest)
  = posts tr ++ [(target, post)].
Proof.
  intros Hh Hrest. rewrite posts_app. f_equal. cbn.
  unfold request_of, warning. rewrite Hh. cbn.
  destruct (negb (res =? 0)); cbn; by rewrite Hrest.
Qed.

Lemma discipline_flow (target post : string) (url : auth_url) (res : Z)
    (rest : list event) :
  snapshot_discipline 0 rest = Some 0%nat ->
  snapshot_discipline 0
    (EvConfigAcquire :: EvConfigRelease
       :: request_of target post url ++ warning res target ++ rest)
  = Some 0%nat.
Proof.
  intros Hrest. cbn. unfold request_of, warning.
  destruct (handle url), (negb (res =? 0)); cbn; exact Hrest.
Qed.

Section FlowTraces.
Context `{External}.

(** What the add flow appends to the trace when it has an endpoint. *)
Lemma add_flow_trace auth_user c cl a au url target w :
  client auth_user = Some c -> clients w !! c = Some cl -> auth cl = Some a ->
  auths w !! a = Some au -> state au = Some url -> addurl url = Some target ->
  exists res r w',
    auth_addurl_client auth_user w = Returns r w'
    /\ trace w'
       = trace w ++ EvConfigAcquire :: EvConfigRelease
           :: request_of target (add_post (config w) auth_user cl) url
           ++ warning res target ++ []
    /\ config_held w' = config_held w.
Proof.
  intros Hc Hcl Ha Hau Hs Hu.
  destruct (run_add _ _ _ _ _ _ _ _ Hc Hcl Ha Hau Hs Hu)
    as (res & cs & v & _ & _ & E).
  cbv zeta in E. rewrite E. exists res. unfold warning.
  destruct (res =? 0); cbn [negb].
  - destruct (v =? 0); cbn [negb]; eexists _, _; (split; [reflexivity |]); cbn;
      by rewrite <- !app_assoc, ?app_nil_r.
  - eexists _, _. split; [reflexivity |]. cbn. by rewrite <- !app_assoc, ?app_nil_r.
Qed.

End FlowTraces.

(** ** The flows *)

Section FlowProperties.
Context `{External}.

(** C1. The add flow answers AUTH_OK at once, with the world untouched and
    so without a transport call, when no add endpoint is configured.
    Otherwise it issues its transport call, and with [res] the result of
    that call and [cl1] the client as the call left it: the flow answers
    AUTH_FAILED when the call failed; AUTH_FAILED when it succeeded and the
    [authenticated] flag is not set; AUTH_FAILED when the flag is set and the
    post-processing hook reports a negative result; AUTH_OK when the flag is
    set and the hook succeeds. *)
Theorem add_flow_verdict auth_user c cl a au url w :
  client auth_user = Some c -> clients w !! c = Some cl -> auth cl = Some a ->
  auths w !! a = Some au -> state au = Some url ->
  (addurl url = None -> auth_addurl_client auth_user w = Returns AUTH_OK w)
  /\ (forall target, addurl url = Some target ->
      exists res w1 cl1,
        transport_call a target (add_post (config w) auth_user cl) auth_user
          (with_trace (fun t => t ++ [EvConfigAcquire; EvConfigRelease]) w)
        = Returns res w1
        /\ clients w1 !! c = Some cl1
        /\ (res <> 0 ->
            exists w', auth_addurl_client auth_user w = Returns AUTH_FAILED w')
        /\ (res = 0 -> authenticated cl1 = 0 ->
            exists w', auth_addurl_client auth_user w = Returns AUTH_FAILED w')
        /\ (res = 0 -> authenticated cl1 <> 0 ->
            fst (auth_postprocess_client auth_user (clients w1)) < 0 ->
            exists w', auth_addurl_client auth_user w = Returns AUTH_FAILED w')
        /\ (res = 0 -> authenticated cl1 <> 0 ->
            0 <= fst (auth_postprocess_client auth_user (clients w1)) ->
            exists w', auth_addurl_client auth_user w = Returns AUTH_OK w')).
Proof.
  intros Hc Hcl Ha Hau Hs. split.
  - intros Hu. by apply (run_add_none auth_user c cl a au url).
  - intros target Hu.
    destruct (run_add _ _ _ _ _ _ _ _ Hc Hcl Ha Hau Hs Hu)
      as (res & cs & v & Ecall & Hv & E).
    cbv zeta in *. eexists res, _, _. split; [exact Ecall |].
    split; [exact Hv |]. rewrite E. cbn [clients with_clients authenticated set_authenticated].
    repeat split.
    + intros Hres. apply Z.eqb_neq in Hres. rewrite Hres. cbn. eauto.
    + intros -> ->. cbn. eauto.
    + intros -> Hv0 Hneg. apply Z.eqb_neq in Hv0. rewrite Hv0. cbn.
      apply Z.ltb_lt in Hneg. rewrite Hneg. eauto.
    + intros -> Hv0 Hpos. apply Z.eqb_neq in Hv0. rewrite Hv0. cbn.
      apply Z.ltb_ge in Hpos. rewrite Hpos. eauto.
Qed.

(** C3, as the code has it.  With a remove endpoint configured the remove
    flow answers AUTH_OK whatever the transport call returned, and leaves
    the client's authenticator back-reference null.  With no remove
    endpoint it answers AUTH_OK and leaves the world as it was. *)
Theorem remove_flow_clears_auth auth_user c cl a au url w :
  client auth_user = Some c -> clients w !! c = Some cl -> auth cl = Some a ->
  auths w !! a = Some au -> state au = Some url ->
  (forall target, removeurl url = Some target ->
     exists res w1 w' cl',
       transport_call a target (removeurl_post (config w) auth_user cl (clock w))
         auth_user
         (with_trace (fun t => t ++ [EvConfigAcquire; EvConfigRelease]) w)
       = Returns res w1
       /\ auth_removeurl_client auth_user w = Returns AUTH_OK w'
       /\ clients w' !! c = Some cl' /\ auth cl' = None)
  /\ (removeurl url = None ->
      auth_removeurl_client auth_user w = Returns AUTH_OK w).
Proof.
  intros Hc Hcl Ha Hau Hs. split.
  - intros target Hu.
    destruct (run_remove _ _ _ _ _ _ _ _ Hc Hcl Ha Hau Hs Hu)
      as (res & w1 & w' & v & Ecall & E & Hcl' & _).
    exists res, w1, w', (set_auth None (set_authenticated v cl)). done.
  - intros Hu. by apply (run_remove_none auth_user c cl a au url).
Qed.

(** C5. A stream-start and a stream-end flow leave the reference count of
    the mount's authenticator as they found it, with an endpoint configured
    or not, whatever the transport call returns. *)
Theorem stream_flows_keep_refcount auth_user mi a au url w :
  client auth_user = None ->
  config_find_mount (config w) (mount auth_user) = Some mi ->
  mount_auth mi = Some a -> auths w !! a = Some au -> state au = Some url ->
  0 < refcount au ->
  (exists w' au', url_stream_start auth_user w = Returns AUTH_OK w'
                  /\ auths w' !! a = Some au' /\ refcount au' = refcount au)
  /\ (exists w' au', url_stream_end auth_user w = Returns AUTH_OK w'
                     /\ auths w' !! a = Some au' /\ refcount au' = refcount au).
Proof.
  intros Hc Hm Ha Hau Hs Hpos.
  assert (listener_ok w auth_user) as Hok by (unfold listener_ok; by rewrite Hc).
  assert ((refcount au =? 0) = false) as Hnz by (apply Z.eqb_neq; lia).
  split.
  - destruct (stream_start url) as [target|] eqn:Hu.
    + destruct (run_stream_start _ _ _ _ _ _ _ Hm Ha Hau Hs Hu Hok)
        as (res & w' & E & Eauths & _).
      eexists w', _. split; [exact E |]. rewrite Eauths, Hnz, lookup_insert_eq. done.
    + rewrite (run_stream_start_none _ _ _ _ _ _ Hm Ha Hau Hs Hu).
      eexists _, au. done.
  - destruct (stream_end url) as [target|] eqn:Hu.
    + destruct (run_stream_end _ _ _ _ _ _ _ Hm Ha Hau Hs Hu Hok)
        as (res & w' & E & Eauths & _).
      eexists w', _. split; [exact E |]. rewrite Eauths, Hnz, lookup_insert_eq. done.
    + rewrite (run_stream_end_none _ _ _ _ _ _ Hm Ha Hau Hs Hu).
      eexists _, au. done.
Qed.

(** C8. Every flow that returns has released each configuration snapshot
    it acquired before it issued its transport call, and holds none it did
    not hold before: the trace it appended keeps the snapshot discipline.
    The two stream flows are run on events without a client. *)
Theorem snapshot_released_before_transport auth_user w r w' :
  (auth_addurl_client auth_user w = Returns r w' -> snapshot_respected w w')
  /\ (auth_removeurl_client auth_user w = Returns r w' -> snapshot_respected w w')
  /\ (client auth_user = None ->
      url_stream_start auth_user w = Returns r w' -> snapshot_respected w w')
  /\ (client auth_user = None ->
      url_stream_end auth_user w = Returns r w' -> snapshot_respected w w').
Proof.
  assert (snapshot_respected w w) as Hsame.
  { exists []. by rewrite app_nil_r. }
  assert (forall a, snapshot_discipline 0 [EvAuthRelease a] = Some 0%nat) as Hrel by done.
  repeat split.
  - intros E.
    destruct (listener_flow_inv auth_user w)
      as [(c & cl & a & au & url & Hc & Hcl & Ha & Hau & Hs) | [E' _]];
      [| congruence].
    destruct (addurl url) as [target|] eqn:Hu.
    + destruct (add_flow_trace _ _ _ _ _ _ _ _ Hc Hcl Ha Hau Hs Hu)
        as (res & r0 & w0 & E0 & Etr & Eheld).
      assert (w0 = w') by congruence. subst w0.
      eexists. split; [exact Etr |]. split; [| exact Eheld].
      by apply discipline_flow.
    + rewrite (run_add_none _ _ _ _ _ _ _ Hc Hcl Ha Hau Hs Hu) in E.
      by inversion E; subst.
  - intros E.
    destruct (listener_flow_inv auth_user w)
      as [(c & cl & a & au & url & Hc & Hcl & Ha & Hau & Hs) | [_ E']];
      [| congruence].
    destruct (removeurl url) as [target|] eqn:Hu.
    + destruct (run_remove _ _ _ _ _ _ _ _ Hc Hcl Ha Hau Hs Hu)
        as (res & w1 & w0 & v & _ & E0 & _ & _ & _ & Etr & Eheld).
      assert (w0 = w') by congruence. subst w0.
      eexists. split; [exact Etr |]. split; [| exact Eheld].
      by apply discipline_flow.
    + rewrite (run_remove_none _ _ _ _ _ _ _ Hc Hcl Ha Hau Hs Hu) in E.
      by inversion E; subst.
  - intros Hc E.
    assert (listener_ok w auth_user) as Hok by (unfold listener_ok; by rewrite Hc).
    destruct (stream_flow_inv auth_user w)
      as [(mi & a & au & url & Hm & Ha & Hau & Hs) | [E' _]]; [| congruence].
    destruct (stream_start url) as [target|] eqn:Hu.
    + destruct (run_stream_start _ _ _ _ _ _ _ Hm Ha Hau Hs Hu Hok)
        as (res & w0 & E0 & _ & _ & Etr & Eheld).
      assert (w0 = w') by congruence. subst w0.
      eexists. split; [exact Etr |]. split; [| exact Eheld].
      by apply discipline_flow.
    + rewrite (run_stream_start_none _ _ _ _ _ _ Hm Ha Hau Hs Hu) in E.
      inversion E; subst. by exists [EvConfigAcquire; EvConfigRelease].
  - intros Hc E.
    assert (listener_ok w auth_user) as Hok by (unfold listener_ok; by rewrite Hc).
    destruct (stream_flow_inv auth_user w)
      as [(mi & a & au & url & Hm & Ha & Hau & Hs) | [_ E']]; [| congruence].
    destruct (stream_end url) as [target|] eqn:Hu.
    + destruct (run_stream_end _ _ _ _ _ _ _ Hm Ha Hau Hs Hu Hok)
        as (res & w0 & E0 & _ & _ & Etr & Eheld).
      assert (w0 = w') by congruence. subst w0.
      eexists. split; [exact Etr |]. split; [| exact Eheld].
      by apply discipline_flow.
    + rewrite (run_stream_end_none _ _ _ _ _ _ Hm Ha Hau Hs Hu) in E.
      inversion E; subst. by exists [EvConfigAcquire; EvConfigRelease].
Qed.

(** C9. In a world whose mounts carry registered authenticators, a
    stream-start or stream-end flow on an event without a client returns
    exactly when the mount of the event is in the configuration and has a
    non-null authenticator.  For a mount that is not in the configuration
    the lookup yields nothing and the flows are undefined. *)
Theorem stream_flows_need_mount auth_user w :
  mounts_registered w -> client auth_user = None ->
  ((exists r w', url_stream_start auth_user w = Returns r w')
   <-> (exists mi a, config_find_mount (config w) (mount auth_user) = Some mi
                     /\ mount_auth mi = Some a))
  /\ ((exists r w', url_stream_end auth_user w = Returns r w')
      <-> (exists mi a, config_find_mount (config w) (mount auth_user) = Some mi
                        /\ mount_auth mi = Some a))
  /\ (config_find_mount (config w) (mount auth_user) = None ->
      url_stream_start auth_user w = Undefined
      /\ url_stream_end auth_user w = Undefined).
Proof.
  intros Hreg Hc.
  assert (listener_ok w auth_user) as Hok by (unfold listener_ok; by rewrite Hc).
  assert (forall mi a,
             config_find_mount (config w) (mount auth_user) = Some mi ->
             mount_auth mi = Some a ->
             exists au url, auths w !! a = Some au /\ state au = Some url) as Hfound.
  { intros mi a Hm Ha. apply (Hreg mi a); [| exact Ha].
    unfold config_find_mount in Hm. by apply find_some in Hm as [Hin _]. }
  split; [| split].
  - split.
    + intros (r & w' & E).
      destruct (stream_flow_inv auth_user w)
        as [(mi & a & au & url & Hm & Ha & _) | [E' _]]; [eauto | congruence].
    + intros (mi & a & Hm & Ha).
      destruct (Hfound mi a Hm Ha) as (au & url & Hau & Hs).
      destruct (stream_start url) as [target|] eqn:Hu.
      * destruct (run_stream_start _ _ _ _ _ _ _ Hm Ha Hau Hs Hu Hok)
          as (res & w' & E & _). eauto.
      * rewrite (run_stream_start_none _ _ _ _ _ _ Hm Ha Hau Hs Hu). eauto.
  - split.
    + intros (r & w' & E).
      destruct (stream_flow_inv auth_user w)
        as [(mi & a & au & url & Hm & Ha & _) | [_ E']]; [eauto | congruence].
    + intros (mi & a & Hm & Ha).
      destruct (Hfound mi a Hm Ha) as (au & url & Hau & Hs).
      destruct (stream_end url) as [target|] eqn:Hu.
      * destruct (run_stream_end _ _ _ _ _ _ _ Hm Ha Hau Hs Hu Hok)
          as (res & w' & E & _). eauto.
      * rewrite (run_stream_end_none _ _ _ _ _ _ Hm Ha Hau Hs Hu). eauto.
  - intros Hm.
    destruct (stream_flow_inv auth_user w)
      as [(mi & a & au & url & Hm' & _) | E]; [congruence | exact E].
Qed.

End FlowProperties.

(** ** The bodies the listener flows post *)

Lemma amp_free_digits (n : Z) : amp_free (Libc.digits n) = true.
Proof.
  unfold Libc.digits, NilZero.string_of_uint.
  assert (forall d, amp_free (NilEmpty.string_of_uint d) = true) as Hd
    by (induction d; cbn; done).
  destruct (N.to_uint (Z.to_N n)); try apply Hd. reflexivity.
Qed.

(** The escaper of section 4.1 leaves no [&] in a value. *)
Lemma url_escape_amp_free (s : string) : amp_free (url_escape s) = true.
Proof.
  induction s as [| c s IH]; [done |]. cbn [url_escape].
  assert ((if unreserved c then negb (Ascii.eqb c "&")
           else negb (Ascii.eqb (hexchar (Libc.code c / 16)) "&")
                && negb (Ascii.eqb (hexchar (Libc.code c mod 16)) "&"))
          = true) as Hc
    by (destruct c as [[] [] [] [] [] [] [] []]; by vm_compute).
  destruct (unreserved c); cbn [amp_free].
  - by rewrite Hc, IH.
  - apply andb_true_iff in Hc as [-> ->]. by rewrite IH.
Qed.

Lemma split_on_amp (rest : string) :
  split_on "&" (String "&" rest) = EmptyString :: split_on "&" rest.
Proof. reflexivity. Qed.

(** A text without [&] before the first piece joins that piece. *)
Lemma split_on_prefix (a b p : string) (ps : list string) :
  amp_free a = true -> split_on "&" b = p :: ps ->
  split_on "&" (a +:+ b) = (a +:+ p) :: ps.
Proof.
  intros Ha Hb. induction a as [| c a IH]; [exact Hb |].
  cbn in Ha. apply andb_true_iff in Ha as [Hc Ha].
  apply negb_true_iff in Hc. rewrite append_cons. cbn [split_on].
  by rewrite Hc, (IH Ha), append_cons.
Qed.

Lemma split_on_whole (a : string) :
  amp_free a = true -> split_on "&" a = [a].
Proof.
  intros Ha. induction a as [| c a IH]; [done |].
  cbn in Ha. apply andb_true_iff in Ha as [Hc Ha].
  apply negb_true_iff in Hc. cbn [split_on]. by rewrite Hc, (IH Ha).
Qed.

(** The duration field of a remove body that was not cut. *)
Lemma form_field_duration (server client_id mount_ user pass duration : string) :
  amp_free server = true -> amp_free client_id = true ->
  amp_free mount_ = true -> amp_free user = true -> amp_free pass = true ->
  amp_free duration = true ->
  form_field "duration"
    ("action=remove&server=" +:+ server +:+ "client=" +:+ client_id
     +:+ "&mount=" +:+ mount_ +:+ "&user=" +:+ user +:+ "&pass=" +:+ pass
     +:+ "&duration=" +:+ duration)
  = Some duration.
Proof.
  intros Hs Hc Hm Hu Hp Hd.
  assert (split_on "&" ("&duration=" +:+ duration)
          = [EmptyString; "duration=" +:+ duration]) as E5.
  { change ("&duration=" +:+ duration) with (String "&" ("duration=" +:+ duration)).
    rewrite split_on_amp.
    by rewrite (split_on_prefix "duration=" duration duration []
                  eq_refl (split_on_whole _ Hd)). }
  pose proof (split_on_prefix pass _ _ _ Hp E5) as E5'.
  assert (split_on "&" ("&pass=" +:+ pass +:+ "&duration=" +:+ duration)
          = [EmptyString; "pass=" +:+ pass +:+ ""; "duration=" +:+ duration])
    as E4.
  { change ("&pass=" +:+ pass +:+ "&duration=" +:+ duration)
      with (String "&" ("pass=" +:+ pass +:+ "&duration=" +:+ duration)).
    rewrite split_on_amp. by rewrite (split_on_prefix "pass=" _ _ _ eq_refl E5'). }
  pose proof (split_on_prefix user _ _ _ Hu E4) as E4'.
  assert (split_on "&" ("&user=" +:+ user +:+ "&pass=" +:+ pass
                        +:+ "&duration=" +:+ duration)
          = [EmptyString; "user=" +:+ user +:+ "";
             "pass=" +:+ pass +:+ ""; "duration=" +:+ duration]) as E3.
  { change ("&user=" +:+ ?r) with (String "&" ("user=" +:+ r)).
    rewrite split_on_amp. by rewrite (split_on_prefix "user=" _ _ _ eq_refl E4'). }
  pose proof (split_on_prefix mount_ _ _ _ Hm E3) as E3'.
  assert (split_on "&" ("&mount=" +:+ mount_ +:+ "&user=" +:+ user
                        +:+ "&pass=" +:+ pass +:+ "&duration=" +:+ duration)
          = [EmptyString; "mount=" +:+ mount_ +:+ ""; "user=" +:+ user +:+ "";
             "pass=" +:+ pass +:+ ""; "duration=" +:+ duration]) as E2.
  { change ("&mount=" +:+ ?r) with (String "&" ("mount=" +:+ r)).
    rewrite split_on_amp. by rewrite (split_on_prefix "mount=" _ _ _ eq_refl E3'). }
  pose proof (split_on_prefix client_id _ _ _ Hc E2) as E2'.
  pose proof (split_on_prefix "client=" _ _ _ eq_refl E2') as E1.
  pose proof (split_on_prefix server _ _ _ Hs E1) as E1'.
  pose proof (split_on_prefix "server=" _ _ _ eq_refl E1') as E0.
  unfold form_field, form_fields.
  change ("action=remove&server=" +:+ ?r)
    with ("action=remove" +:+ String "&" ("server=" +:+ r)).
  rewrite (split_on_prefix "action=remove" _ EmptyString _ eq_refl
             (eq_trans (split_on_amp _) (f_equal (cons EmptyString) E0))).
  reflexivity.
Qed.

Section Bodies.
Context `{External}.

Lemma add_flow_posts auth_user c cl a au url h target w :
  client auth_user = Some c -> clients w !! c = Some cl -> auth cl = Some a ->
  auths w !! a = Some au -> state au = Some url -> handle url = Some h ->
  addurl url = Some target ->
  exists r w',
    auth_addurl_client auth_user w = Returns r w'
    /\ posts (trace w')
       = posts (trace w) ++ [(target, add_post (config w) auth_user cl)].
Proof.
  intros Hc Hcl Ha Hau Hs Hh Hu.
  destruct (add_flow_trace _ _ _ _ _ _ _ _ Hc Hcl Ha Hau Hs Hu)
    as (res & r & w' & E & Etr & _).
  exists r, w'. split; [exact E |]. rewrite Etr. by apply (posts_flow _ _ _ _ h).
Qed.

Lemma remove_flow_posts auth_user c cl a au url h target w :
  client auth_user = Some c -> clients w !! c = Some cl -> auth cl = Some a ->
  auths w !! a = Some au -> state au = Some url -> handle url = Some h ->
  removeurl url = Some target ->
  exists w',
    auth_removeurl_client auth_user w = Returns AUTH_OK w'
    /\ posts (trace w')
       = posts (trace w)
         ++ [(target, removeurl_post (config w) auth_user cl (clock w))].
Proof.
  intros Hc Hcl Ha Hau Hs Hh Hu.
  destruct (run_remove _ _ _ _ _ _ _ _ Hc Hcl Ha Hau Hs Hu)
    as (res & w1 & w' & v & _ & E & _ & _ & _ & Etr & _).
  exists w'. split; [exact E |]. rewrite Etr. by apply (posts_flow _ _ _ _ h).
Qed.

(** C7, as the code has it.  The remove flow posts one body: the text below
    cut to the 1023 characters the buffer holds.  When the text fits the
    buffer and the escaped values hold no [&], the duration field of the
    transmitted body is the decimal form of the current time minus the
    connection start, in seconds, converted to [unsigned long]: the
    difference itself when it is not negative, and the difference plus 2^64
    when clock skew makes it negative.  The value is not clamped. *)
Theorem remove_duration_field auth_user c cl a au url h target w :
  client auth_user = Some c -> clients w !! c = Some cl -> auth cl = Some a ->
  auths w !! a = Some au -> state au = Some url -> handle url = Some h ->
  removeurl url = Some target ->
  let elapsed := clock w - con_time (con cl) in
  let text :=
    "action=remove&server=" +:+ util_url_escape (hostname (config w))
    +:+ "client=" +:+ Libc.decimal (id (con cl))
    +:+ "&mount=" +:+ util_url_escape (mount auth_user)
    +:+ "&user=" +:+ util_url_escape (username cl)
    +:+ "&pass=" +:+ util_url_escape (password cl)
    +:+ "&duration=" +:+ Libc.digits (elapsed mod 2 ^ 64) in
  exists w',
    auth_removeurl_client auth_user w = Returns AUTH_OK w'
    /\ posts (trace w') = posts (trace w) ++ [(target, substring 0 1023 text)]
    /\ ((String.length text <= 1023)%nat ->
        amp_free (util_url_escape (hostname (config w))) = true ->
        amp_free (util_url_escape (mount auth_user)) = true ->
        amp_free (util_url_escape (username cl)) = true ->
        amp_free (util_url_escape (password cl)) = true ->
        form_field "duration" (substring 0 1023 text)
        = Some (Libc.digits (elapsed mod 2 ^ 64)))
    /\ (0 <= elapsed < 2 ^ 64 -> elapsed mod 2 ^ 64 = elapsed)
    /\ (- 2 ^ 64 <= elapsed < 0 -> elapsed mod 2 ^ 64 = elapsed + 2 ^ 64).
Proof.
  intros Hc Hcl Ha Hau Hs Hh Hu elapsed text.
  destruct (remove_flow_posts _ _ _ _ _ _ _ _ _ Hc Hcl Ha Hau Hs Hh Hu) as (w' & E & Ep).
  exists w'. split; [exact E |]. split; [| split; [| split]].
  - rewrite Ep. unfold removeurl_post, text. fold elapsed.
    unfold Libc.decimal at 2. unfold Libc.to_unsigned, Libc.LONG_BITS.
    by rewrite Z.mod_mod.
  - intros Hfits Hhost Hmount Huser Hpass. rewrite (substring_all _ _ Hfits).
    apply form_field_duration; try done; apply amp_free_digits.
  - intros Hrange. by apply Z.mod_small.
  - intros Hrange. rewrite <- (Z.mod_add elapsed 1 (2 ^ 64)) by lia.
    apply Z.mod_small. lia.
Qed.

End Bodies.

(** C6.  The add flow posts to the add endpoint one body: the fields in the
    order below, every value passed through the escaper before it is put in
    its place (the connection id is printed in decimal, a missing user
    agent is the text -), cut to the 1023 characters the buffer holds.
    With the escaper of section 4.1, for connection 42 from 127.0.0.1 with
    the user agent TestAgent/1.0, on the mount /live, for fred with the
    password hunter2, this body is the expected text, whole when the
    escaped host name has at most 922 characters. *)
Theorem add_post_body_scenario
    (escape : string -> string)
    (server : string -> string -> http_reply)
    (hook : auth_client -> gmap nat client_t -> Z * gmap nat client_t)
    auth_user c cl a au url h target w :
  let E := {| util_url_escape := escape; http_server := server;
              auth_postprocess_client := hook |} in
  client auth_user = Some c -> clients w !! c = Some cl -> auth cl = Some a ->
  auths w !! a = Some au -> state au = Some url -> handle url = Some h ->
  addurl url = Some target ->
  let body :=
    substring 0 1023
      ("action=auth&server=" +:+ escape (hostname (config w))
       +:+ "&client=" +:+ Libc.decimal (id (con cl))
       +:+ "&mount=" +:+ escape (mount auth_user)
       +:+ "&user=" +:+ escape (username cl)
       +:+ "&pass=" +:+ escape (password cl)
       +:+ "&ip=" +:+ escape (ip (con cl))
       +:+ "&agent="
       +:+ escape (default "-"%string (httpp_getvar (parser cl) "user-agent"))) in
  let expected :=
    "action=auth&server=" +:+ url_escape (hostname (config w))
    +:+ "&client=42&mount=%2Flive&user=fred&pass=hunter2"
    +:+ "&ip=127.0.0.1&agent=TestAgent%2F1.0" in
  exists r w',
    auth_addurl_client auth_user w = Returns r w'
    /\ posts (trace w') = posts (trace w) ++ [(target, body)]
    /\ ((forall s, escape s = url_escape s) ->
        id (con cl) = 42 -> ip (con cl) = "127.0.0.1"%string ->
        httpp_getvar (parser cl) "user-agent" = Some "TestAgent/1.0"%string ->
        mount auth_user = "/live"%string ->
        username cl = "fred"%string -> password cl = "hunter2"%string ->
        body = substring 0 1023 expected
        /\ ((String.length (url_escape (hostname (config w))) <= 922)%nat ->
            body = expected)).
Proof.
  intros E Hc Hcl Ha Hau Hs Hh Hu body expected.
  destruct (add_flow_posts (H := E) _ _ _ _ _ _ _ _ _ Hc Hcl Ha Hau Hs Hh Hu)
    as (r & w' & Erun & Ep).
  exists r, w'. split; [exact Erun |]. split; [exact Ep |].
  intros Hesc Hid Hip Hagent Hmount Huser Hpass.
  assert (body = substring 0 1023 expected) as Ebody.
  { unfold body, expected. rewrite !Hesc.
    rewrite Hid, Hip, Hagent, Hmount, Huser, Hpass. reflexivity. }
  split; [exact Ebody |].
  intros Hlen. rewrite Ebody. apply substring_all. unfold expected.
  rewrite !length_append. cbn. lia.
Qed.

(** ** The header callback and the registration *)

Lemma read_option_keeps_header (u : auth_url) (o : string * string) :
  fst o <> "header"%string -> auth_header (read_option u o) = auth_header u.
Proof.
  destruct o as [name value]. cbn [fst]. intros Hname.
  apply String.eqb_neq in Hname. unfold read_option, Libc.streq. rewrite Hname.
  by destruct (name =? "username")%string, (name =? "password")%string,
    (name =? "add")%string, (name =? "remove")%string,
    (name =? "start")%string, (name =? "end")%string.
Qed.

Lemma read_options_default_header (options : list (string * string)) :
  (forall o, In o options -> fst o <> "header"%string) ->
  auth_header (read_options options) = default_auth_header.
Proof.
  unfold read_options.
  assert (forall u, (forall o, In o options -> fst o <> "header"%string) ->
                    auth_header (fold_left read_option options u) = auth_header u)
    as Hkeep.
  { induction options as [| o options IH]; intros u Hno; [done |].
    cbn [fold_left]. rewrite IH.
    - apply read_option_keeps_header, Hno. by left.
    - intros o' Hin. apply Hno. by right. }
  intros Hno. by rewrite Hkeep.
Qed.

Lemma run_registration p au0 options h w :
  auths w !! p = Some au0 ->
  auth_get_url_auth p options (Some h) w
  = Returns 0
      (with_auths
         (insert p {| methods := url_methods;
                      state := Some (registered_url_info options h);
                      refcount := refcount au0 |}) w).
Proof.
  intros Hp. unfold auth_get_url_auth.
  rewrite run_bind, (run_load_auth _ _ _ Hp).
  rewrite run_bind, (run_store_auth _ _ _ _ Hp).
  rewrite run_bind, (run_load_auth p (set_methods url_methods au0))
    by apply lookup_insert_eq.
  rewrite run_bind, (run_store_auth p (set_methods url_methods au0))
    by apply lookup_insert_eq.
  rewrite run_ret. f_equal. unfold with_auths; cbn. by rewrite insert_insert_eq.
Qed.

Lemma run_registration_failed p au0 options w :
  auths w !! p = Some au0 ->
  auth_get_url_auth p options None w = Returns (-1) (with_auths (delete p) w).
Proof.
  intros Hp. unfold auth_get_url_auth.
  rewrite run_bind, (run_load_auth _ _ _ Hp).
  rewrite run_bind, (run_store_auth _ _ _ _ Hp).
  rewrite run_bind. cbn [modify]. rewrite run_ret.
  f_equal. unfold with_auths; cbn. by rewrite delete_insert_eq.
Qed.

(** The operations on a local user store are refused. *)
Lemma unsupported_operations a user pass w :
  auth_url_adduser a user pass w = Returns AUTH_FAILED w
  /\ auth_url_deleteuser a user w = Returns AUTH_FAILED w
  /\ auth_url_listuser a w = Returns AUTH_FAILED w.
Proof. done. Qed.

(** C4, as the code has it.  For a listener event and an authenticator
    whose recorded header length is the length of its expected header, the
    callback sets the [authenticated] flag of the client exactly when the
    line starts, letter case apart, with the expected header, and leaves
    the world as it was for any other line.  A registration records the
    length of the expected header whenever an [int] holds it, and without a
    header option the expected header is the whole line
    icecast-auth-user: 1 with its CR LF, of length 22. *)
Theorem verdict_header_match line size nmemb auth_user c cl a au url w :
  client auth_user = Some c -> clients w !! c = Some cl -> auth cl = Some a ->
  auths w !! a = Some au -> state au = Some url ->
  auth_header_len url = Libc.strlen (auth_header url) ->
  c_string (auth_header url) = true ->
  handle_returned_header line size nmemb auth_user w
  = Returns (byte_count size nmemb)
      (if prefix_nocase (auth_header url) line
       then with_clients (insert c (set_authenticated 1 cl)) w
       else w)
  /\ (forall p au0 options h0 w0,
        auths w0 !! p = Some au0 ->
        exists w1 au1 fresh,
          auth_get_url_auth p options (Some h0) w0 = Returns 0 w1
          /\ auths w1 !! p = Some au1 /\ state au1 = Some fresh
          /\ (Libc.strlen (auth_header fresh) <= Libc.INT_MAX ->
              auth_header_len fresh = Libc.strlen (auth_header fresh))
          /\ ((forall o, In o options -> fst o <> "header"%string) ->
              auth_header fresh = "icecast-auth-user: 1" +:+ CRLF
              /\ auth_header_len fresh = 22)).
Proof.
  intros Hc Hcl Ha Hau Hs Hlen Hstr. split.
  - rewrite (run_header_client _ _ _ _ _ _ _ _ _ _ Hc Hcl Ha Hau Hs).
    by rewrite header_matches_prefix.
  - intros p au0 options h0 w0 Hp.
    rewrite (run_registration _ _ options h0 _ Hp).
    eexists _, _, (registered_url_info options h0).
    split; [reflexivity |]. split; [apply lookup_insert_eq |].
    split; [reflexivity |]. split.
    + intros Hfits.
      change (auth_header (registered_url_info options h0))
        with (auth_header (read_options options)) in *.
      apply to_signed_small. unfold Libc.strlen in *. lia.
    + intros Hno. pose proof (read_options_default_header options Hno) as Hdef.
      split; [exact Hdef |].
      change (auth_header_len (registered_url_info options h0))
        with (Libc.to_signed Libc.INT_BITS
                (Libc.strlen (auth_header (read_options options)))).
      by rewrite Hdef.
Qed.

(** C10. For a count that an [int] holds, the header callback returns the
    whole count [size * nmemb]: on an event without a client it leaves the
    world as it was; with a listener it returns the count too, whether the
    line matches or not.  So no transfer is stopped by the callback: every
    header line of a reply is delivered. *)
Theorem header_callback_returns_count line size nmemb auth_user w :
  0 <= size * nmemb <= Libc.INT_MAX ->
  (client auth_user = None ->
   handle_returned_header line size nmemb auth_user w = Returns (size * nmemb) w)
  /\ (listener_ok w auth_user ->
      exists w',
        handle_returned_header line size nmemb auth_user w
        = Returns (size * nmemb) w')
  /\ (forall lines,
        Forall (fun l => Libc.strlen l <= Libc.INT_MAX) lines ->
        listener_ok w auth_user ->
        exists w', deliver_headers lines auth_user w = Returns true w').
Proof.
  intros Hcount. apply byte_count_small in Hcount. split; [| split].
  - intros Hc. by rewrite (run_header_none _ _ _ _ _ Hc), Hcount.
  - unfold listener_ok. destruct (client auth_user) as [c|] eqn:Hc.
    + intros (cl & a & au & url & Hcl & Ha & Hau & Hs).
      rewrite (run_header_client _ _ _ _ _ _ _ _ _ _ Hc Hcl Ha Hau Hs), Hcount.
      eauto.
    + intros _. rewrite (run_header_none _ _ _ _ _ Hc), Hcount. eauto.
  - intros lines Hlen Hok.
    destruct (run_deliver_headers lines auth_user w Hok) as (ok & cs & E & _ & Htrue).
    rewrite E, (Htrue Hlen). eauto.
Qed.

(** ** The installation at work *)

(** The listener of the installation is admitted by an endpoint that
    answers with the verdict header. *)
Lemma add_flow_verdict_witness :
  exists w',
    auth_addurl_client (H := Scenario.admitting)
      Scenario.listener_event Scenario.start
    = Returns AUTH_OK w'.
Proof.
  destruct (add_flow_verdict (H := Scenario.admitting)
              Scenario.listener_event 7%nat Scenario.listener 0%nat
              Scenario.authenticator Scenario.url_info Scenario.start
              eq_refl eq_refl eq_refl eq_refl eq_refl) as [_ Hurl].
  destruct (Hurl "http://auth.example/a"%string eq_refl)
    as (res & w1 & cl1 & Ecall & Hcl1 & _ & _ & _ & Hok).
  vm_compute in Ecall. injection Ecall as <- <-.
  vm_compute in Hcl1. injection Hcl1 as <-.
  apply Hok; [reflexivity | discriminate | vm_compute; discriminate].
Defined.

(** The listener is refused by an endpoint that answers without the
    verdict header, and by one that cannot be reached. *)
Lemma add_flow_refused :
  (exists w',
      auth_addurl_client (H := Scenario.denying)
        Scenario.listener_event Scenario.start = Returns AUTH_FAILED w'
      /\ clients w' !! 7%nat = Some Scenario.listener)
  /\ (exists w',
         auth_addurl_client (H := Scenario.unreachable)
           Scenario.listener_event Scenario.start = Returns AUTH_FAILED w').
Proof. split; vm_compute; eexists; eauto. Qed.

(** The listener is released although the endpoint cannot be reached. *)
Lemma remove_flow_clears_auth_witness :
  exists w' cl',
    auth_removeurl_client (H := Scenario.unreachable)
      Scenario.listener_event Scenario.start
    = Returns AUTH_OK w'
    /\ clients w' !! 7%nat = Some cl' /\ auth cl' = None.
Proof.
  destruct (remove_flow_clears_auth (H := Scenario.unreachable)
              Scenario.listener_event 7%nat Scenario.listener 0%nat
              Scenario.authenticator Scenario.url_info Scenario.start
              eq_refl eq_refl eq_refl eq_refl eq_refl) as [Hurl _].
  destruct (Hurl "http://auth.example/r"%string eq_refl)
    as (res & w1 & w' & cl' & _ & E & Hcl' & Hauth).
  exists w', cl'. split; [exact E |]. split; [exact Hcl' | exact Hauth].
Defined.

(** C3 fails as stated: with no remove endpoint the flow returns at once
    and the back-reference of the client stays in place. *)
Lemma remove_without_endpoint_keeps_auth :
  exists w' cl',
    auth_removeurl_client (H := Scenario.admitting)
      Scenario.listener_event Scenario.add_only
    = Returns AUTH_OK w'
    /\ clients w' !! 7%nat = Some cl' /\ auth cl' <> None.
Proof.
  exists Scenario.add_only, Scenario.listener. split; [| split].
  - by apply (run_remove_none (H := Scenario.admitting)
                Scenario.listener_event 7%nat Scenario.listener 0%nat
                {| methods := url_methods;
                   state := Some (registered_url_info
                                    [("add", "http://auth.example/a")]%string
                                    fresh_handle);
                   refcount := 2 |}
                (registered_url_info [("add", "http://auth.example/a")]%string
                   fresh_handle)).
  - reflexivity.
  - discriminate.
Qed.

(** The verdict line of the accepting reply sets the flag of the listener. *)
Lemma verdict_header_match_witness :
  handle_returned_header ("Icecast-Auth-User: 1" +:+ CRLF) 1 22
    Scenario.listener_event Scenario.start
  = Returns (byte_count 1 22)
      (with_clients (insert 7%nat (set_authenticated 1 Scenario.listener))
         Scenario.start).
Proof.
  exact (proj1 (verdict_header_match ("Icecast-Auth-User: 1" +:+ CRLF) 1 22
                  Scenario.listener_event 7%nat Scenario.listener 0%nat
                  Scenario.authenticator Scenario.url_info Scenario.start
                  eq_refl eq_refl eq_refl eq_refl eq_refl eq_refl eq_refl)).
Defined.

(** C4 fails as stated: the line icecast-auth-user: 10 starts with
    icecast-auth-user: 1, yet an authenticator registered without a header
    option leaves the flag of the listener unset. *)
Lemma verdict_header_default_is_whole_line :
  let line := "icecast-auth-user: 10" +:+ CRLF in
  auth_header Scenario.url_info = default_auth_header
  /\ prefix_nocase "icecast-auth-user: 1" line = true
  /\ handle_returned_header line 1 (Libc.strlen line)
       Scenario.listener_event Scenario.start
     = Returns (Libc.strlen line) Scenario.start
  /\ clients Scenario.start !! 7%nat = Some Scenario.listener
  /\ authenticated Scenario.listener = 0.
Proof.
  split; [reflexivity |]. split; [reflexivity |]. split; [| split; reflexivity].
  exact (run_header_client _ 1 _ Scenario.listener_event 7%nat Scenario.listener
           0%nat Scenario.authenticator Scenario.url_info Scenario.start
           eq_refl eq_refl eq_refl eq_refl eq_refl).
Qed.

(** The source of /live starts and ends: the count of two references is two
    again after each flow. *)
Lemma stream_flows_keep_refcount_witness :
  (exists w' au',
      url_stream_start (H := Scenario.unreachable)
        Scenario.source_event Scenario.start = Returns AUTH_OK w'
      /\ auths w' !! 0%nat = Some au' /\ refcount au' = 2)
  /\ (exists w' au',
         url_stream_end (H := Scenario.unreachable)
           Scenario.source_event Scenario.start = Returns AUTH_OK w'
         /\ auths w' !! 0%nat = Some au' /\ refcount au' = 2).
Proof.
  exact (stream_flows_keep_refcount (H := Scenario.unreachable)
           Scenario.source_event
           {| mountname := "/live"; mount_auth := Some 0%nat |} 0%nat
           Scenario.authenticator Scenario.url_info Scenario.start
           eq_refl eq_refl eq_refl eq_refl eq_refl eq_refl).
Defined.

(** C2 fails on the code.  The remove flow of the installation posts one
    body, in which the server field runs into the client field: there is no
    separator between them, the body has six fields and none is named
    client, and it is not the remove body of section 4.2. *)
Theorem remove_post_lacks_separator :
  exists w' body,
    auth_removeurl_client (H := Scenario.admitting)
      Scenario.listener_event Scenario.start
    = Returns AUTH_OK w'
    /\ posts (trace w') = [("http://auth.example/r"%string, body)]
    /\ body = ("action=remove&server=stream.example.orgclient=42"
               +:+ "&mount=%2Flive&user=fred&pass=hunter2&duration=60")
    /\ form_fields body
       = [("action", "remove"); ("server", "stream.example.orgclient=42");
          ("mount", "%2Flive"); ("user", "fred"); ("pass", "hunter2");
          ("duration", "60")]%string
    /\ form_field "client" body = None
    /\ body <> remove_body "stream.example.org" "42" "%2Flive" "fred"
                 "hunter2" "60".
Proof.
  destruct (remove_flow_posts (H := Scenario.admitting)
              Scenario.listener_event 7%nat Scenario.listener 0%nat
              Scenario.authenticator Scenario.url_info
              (registered_handle fresh_handle) "http://auth.example/r"
              Scenario.start eq_refl eq_refl eq_refl eq_refl eq_refl eq_refl eq_refl)
    as (w' & E & Ep).
  exists w', (removeurl_post (H := Scenario.admitting) Scenario.configuration
                Scenario.listener_event Scenario.listener 1060).
  split; [exact E |]. split; [exact Ep |].
  split; [reflexivity |]. split; [reflexivity |]. split; [reflexivity |].
  vm_compute. discriminate.
Qed.

(** The body of the end-to-end scenario of section 8, for the host
    stream.example.org. *)
Lemma add_post_body_scenario_witness :
  exists r w',
    auth_addurl_client (H := Scenario.admitting)
      Scenario.listener_event Scenario.start
    = Returns r w'
    /\ posts (trace w')
       = [("http://auth.example/a",
           "action=auth&server=stream.example.org&client=42&mount=%2Flive"
           +:+ "&user=fred&pass=hunter2&ip=127.0.0.1&agent=TestAgent%2F1.0")]%string.
Proof.
  destruct (add_post_body_scenario url_escape
              (fun _ _ => Scenario.accept) (fun _ cs => (0, cs))
              Scenario.listener_event 7%nat Scenario.listener 0%nat
              Scenario.authenticator Scenario.url_info
              (registered_handle fresh_handle) "http://auth.example/a"
              Scenario.start
              eq_refl eq_refl eq_refl eq_refl eq_refl eq_refl eq_refl)
    as (r & w' & E & Ep & Hexpected).
  exists r, w'. split; [exact E |]. rewrite Ep.
  destruct (Hexpected (fun _ => eq_refl) eq_refl eq_refl eq_refl eq_refl
              eq_refl eq_refl) as [_ Hwhole].
  by rewrite (Hwhole ltac:(vm_compute; lia)).
Defined.

(** Values that need the escaper: a user name with a blank and a password
    with the separators of the form reach the endpoint escaped. *)
Lemma add_post_body_escapes_values :
  let cl :=
    {| con := con Scenario.listener; parser := parser Scenario.listener;
       auth := Some 0%nat; authenticated := 0;
       username := "fred smith"; password := "p&ss=1" |} in
  let w :=
    {| auths := auths Scenario.start; clients := {[ 7%nat := cl ]};
       config := Scenario.configuration; config_held := 0;
       clock := 1060; trace := [] |} in
  exists r w',
    auth_addurl_client (H := Scenario.admitting) Scenario.listener_event w
    = Returns r w'
    /\ posts (trace w')
       = [("http://auth.example/a",
           "action=auth&server=stream.example.org&client=42&mount=%2Flive"
           +:+ "&user=fred%20smith&pass=p%26ss%3D1"
           +:+ "&ip=127.0.0.1&agent=TestAgent%2F1.0")]%string.
Proof.
  intros cl w.
  destruct (add_flow_posts (H := Scenario.admitting)
              Scenario.listener_event 7%nat cl 0%nat
              Scenario.authenticator Scenario.url_info
              (registered_handle fresh_handle) "http://auth.example/a"
              w eq_refl eq_refl eq_refl eq_refl eq_refl eq_refl eq_refl)
    as (r & w' & E & Ep).
  exists r, w'. split; [exact E |]. by rewrite Ep.
Qed.

(** A listener that was connected for sixty seconds. *)
Lemma remove_duration_field_witness :
  exists w' body,
    auth_removeurl_client (H := Scenario.admitting)
      Scenario.listener_event Scenario.start
    = Returns AUTH_OK w'
    /\ posts (trace w') = [("http://auth.example/r"%string, body)]
    /\ body
       = ("action=remove&server=stream.example.orgclient=42"
          +:+ "&mount=%2Flive&user=fred&pass=hunter2&duration=60")%string
    /\ form_field "duration" body = Some "60"%string.
Proof.
  destruct (remove_duration_field (H := Scenario.admitting)
              Scenario.listener_event 7%nat Scenario.listener 0%nat
              Scenario.authenticator Scenario.url_info
              (registered_handle fresh_handle) "http://auth.example/r"
              Scenario.start eq_refl eq_refl eq_refl eq_refl eq_refl eq_refl eq_refl)
    as (w' & E & Ep & Hfield & _).
  eexists w', _. split; [exact E |]. split; [exact Ep |].
  split; [reflexivity |].
  exact (Hfield ltac:(vm_compute; lia) eq_refl eq_refl eq_refl eq_refl).
Defined.

(** A body that does not fit the buffer is cut, and the duration field,
    the last one, goes first: the listener with a user name of 1100
    characters is released with a body of 1023 characters that holds no
    duration field. *)
Lemma remove_duration_cut_off :
  let cl :=
    {| con := con Scenario.listener; parser := parser Scenario.listener;
       auth := Some 0%nat; authenticated := 0;
       username := string_of_list_ascii (List.repeat "a"%char 1100);
       password := "hunter2" |} in
  let w :=
    {| auths := auths Scenario.start; clients := {[ 7%nat := cl ]};
       config := Scenario.configuration; config_held := 0;
       clock := 1060; trace := [] |} in
  exists w' body,
    auth_removeurl_client (H := Scenario.admitting) Scenario.listener_event w
    = Returns AUTH_OK w'
    /\ posts (trace w') = [("http://auth.example/r"%string, body)]
    /\ String.length body = 1023%nat
    /\ form_field "duration" body = None.
Proof.
  intros cl w.
  destruct (remove_flow_posts (H := Scenario.admitting)
              Scenario.listener_event 7%nat cl 0%nat
              Scenario.authenticator Scenario.url_info
              (registered_handle fresh_handle) "http://auth.example/r"
              w eq_refl eq_refl eq_refl eq_refl eq_refl eq_refl eq_refl)
    as (w' & E & Ep).
  exists w', (removeurl_post (H := Scenario.admitting) Scenario.configuration
                Scenario.listener_event cl 1060).
  split; [exact E |]. split; [exact Ep |]. split; by vm_compute.
Qed.

(** C7 fails as stated: with the clock one second behind the connection
    start, the duration field is 2^64 - 1 and not the clamped value 0. *)
Lemma remove_duration_not_clamped :
  exists w' body,
    auth_removeurl_client (H := Scenario.admitting)
      Scenario.listener_event Scenario.skewed
    = Returns AUTH_OK w'
    /\ posts (trace w') = [("http://auth.example/r"%string, body)]
    /\ clock Scenario.skewed - con_time (con Scenario.listener) = -1
    /\ form_field "duration" body = Some "18446744073709551615"%string
    /\ form_field "duration" body
       <> Some (Libc.digits
                  (duration_clamped (clock Scenario.skewed)
                     (con_time (con Scenario.listener)))).
Proof.
  destruct (remove_flow_posts (H := Scenario.admitting)
              Scenario.listener_event 7%nat Scenario.listener 0%nat
              Scenario.authenticator Scenario.url_info
              (registered_handle fresh_handle) "http://auth.example/r"
              Scenario.skewed eq_refl eq_refl eq_refl eq_refl eq_refl eq_refl eq_refl)
    as (w' & E & Ep).
  exists w', (removeurl_post (H := Scenario.admitting) Scenario.configuration
                Scenario.listener_event Scenario.listener 999).
  split; [exact E |]. split; [exact Ep |].
  split; [reflexivity |]. split; [reflexivity |].
  vm_compute. discriminate.
Qed.

(** The add flow of the listener and the start flow of the source keep the
    snapshot discipline. *)
Lemma snapshot_released_before_transport_witness :
  (exists w',
      auth_addurl_client (H := Scenario.admitting)
        Scenario.listener_event Scenario.start = Returns AUTH_OK w'
      /\ snapshot_respected Scenario.start w')
  /\ (exists w',
         url_stream_start (H := Scenario.admitting)
           Scenario.source_event Scenario.start = Returns AUTH_OK w'
         /\ snapshot_respected Scenario.start w').
Proof.
  split.
  - assert (exists w',
               auth_addurl_client (H := Scenario.admitting)
                 Scenario.listener_event Scenario.start = Returns AUTH_OK w')
      as [w' E] by (vm_compute; eexists; reflexivity).
    exists w'. split; [exact E |].
    exact (proj1 (snapshot_released_before_transport (H := Scenario.admitting)
                    Scenario.listener_event Scenario.start AUTH_OK w') E).
  - assert (exists w',
               url_stream_start (H := Scenario.admitting)
                 Scenario.source_event Scenario.start = Returns AUTH_OK w')
      as [w' E] by (vm_compute; eexists; reflexivity).
    exists w'. split; [exact E |].
    exact (proj1 (proj2 (proj2
             (snapshot_released_before_transport (H := Scenario.admitting)
                Scenario.source_event Scenario.start AUTH_OK w'))) eq_refl E).
Defined.

Lemma scenario_mounts_registered : mounts_registered Scenario.start.
Proof.
  intros mi a [<- | []] Ha. injection Ha as <-.
  by exists Scenario.authenticator, Scenario.url_info.
Defined.

(** The source of /live is served; an event for a mount that is not in the
    configuration is undefined. *)
Lemma stream_flows_need_mount_witness :
  (exists r w',
      url_stream_start (H := Scenario.admitting)
        Scenario.source_event Scenario.start = Returns r w')
  /\ url_stream_start (H := Scenario.admitting)
       {| mount := "/absent"; client := None |} Scenario.start = Undefined.
Proof.
  split.
  - apply (proj1 (stream_flows_need_mount (H := Scenario.admitting)
                    Scenario.source_event Scenario.start
                    scenario_mounts_registered eq_refl)).
    by exists {| mountname := "/live"; mount_auth := Some 0%nat |}, 0%nat.
  - apply (proj2 (proj2 (stream_flows_need_mount (H := Scenario.admitting)
                           {| mount := "/absent"; client := None |}
                           Scenario.start scenario_mounts_registered eq_refl))).
    reflexivity.
Defined.

(** The status line of a reply, offered during a stream event. *)
Lemma header_callback_returns_count_witness :
  handle_returned_header ("HTTP/1.1 200 OK" +:+ CRLF) 1 17
    Scenario.source_event Scenario.start
  = Returns 17 Scenario.start.
Proof.
  apply (proj1 (header_callback_returns_count ("HTTP/1.1 200 OK" +:+ CRLF) 1 17
                  Scenario.source_event Scenario.start
                  ltac:(vm_compute; split; discriminate))).
  reflexivity.
Defined.

(** * Further properties *)

(** ** The reply of the endpoint, line by line *)

Lemma set_authenticated_same (cl : client_t) :
  set_authenticated (authenticated cl) cl = cl.
Proof. by destruct cl. Qed.

Lemma world_ext (w w' : world) :
  auths w = auths w' -> clients w = clients w' -> config w = config w' ->
  config_held w = config_held w' -> clock w = clock w' -> trace w = trace w' ->
  w = w'.
Proof. destruct w, w'; cbn; by intros -> -> -> -> -> ->. Qed.

Lemma with_clients_insert_same c cl w :
  clients w !! c = Some cl -> with_clients (insert c cl) w = w.
Proof.
  intros Hcl. destruct w; unfold with_clients; cbn in *. by rewrite insert_id.
Qed.

(** The lines of a reply set the flag of the listener when one of them
    passes the test, and no later line takes it back. *)
Lemma run_deliver_headers_listener lines auth_user c cl a au url w :
  client auth_user = Some c -> clients w !! c = Some cl -> auth cl = Some a ->
  auths w !! a = Some au -> state au = Some url -> lines_fit lines ->
  deliver_headers lines auth_user w
  = Returns true (with_clients (insert c (after_reply url lines cl)) w).
Proof.
  intros Hc Hcl Ha Hau Hs Hfit. revert cl w Hcl Ha Hau.
  induction Hfit as [| line rest Hline Hrest IH]; intros cl w Hcl Ha Hau.
  - cbn. rewrite run_ret. unfold after_reply. cbn.
    by rewrite with_clients_insert_same.
  - cbn [deliver_headers]. rewrite run_bind.
    rewrite (run_header_client _ _ _ _ _ _ _ _ _ _ Hc Hcl Ha Hau Hs).
    assert (byte_count 1 (Libc.strlen line) = Libc.strlen line) as ->
      by (rewrite byte_count_small; unfold Libc.strlen in *; lia).
    rewrite Z.eqb_refl. unfold after_reply. cbn [existsb].
    destruct (header_matches url line); cbn [orb].
    + rewrite (IH (set_authenticated 1 cl)); [| apply lookup_insert_eq | done | done].
      f_equal. unfold with_clients, after_reply; cbn.
      rewrite insert_insert_eq. by destruct (existsb (header_matches url) rest).
    + by rewrite (IH cl).
Qed.

Lemma run_deliver_headers_source lines auth_user w :
  client auth_user = None -> lines_fit lines ->
  deliver_headers lines auth_user w = Returns true w.
Proof.
  intros Hc Hfit. induction Hfit as [| line rest Hline Hrest IH]; [done |].
  cbn [deliver_headers]. rewrite run_bind, (run_header_none _ _ _ _ _ Hc).
  assert (byte_count 1 (Libc.strlen line) = Libc.strlen line) as ->
    by (rewrite byte_count_small; unfold Libc.strlen in *; lia).
  by rewrite Z.eqb_refl.
Qed.

(** ** The transport call on a registered handle *)

Section RegisteredTransport.
Context `{External}.

(** The transfer itself, once the three options are on the handle. *)
Lemma run_perform_registered a au url h target post auth_user w w' :
  auths w !! a = Some au -> state au = Some url -> handle url = Some h ->
  CURLOPT_URL h = Some target -> CURLOPT_POSTFIELDS h = Some post ->
  CURLOPT_WRITEHEADER h = Some auth_user ->
  CURLOPT_HEADERFUNCTION h = Some cb_handle_returned_header ->
  deliver_headers (reply_headers (http_server target post)) auth_user
    (with_trace (fun t => t ++ [EvPerform target post]) w)
  = Returns true w' ->
  curl_easy_perform a w = Returns (reply_code (http_server target post)) w'.
Proof.
  intros Hau Hs Hh Hu Hp Hw Hf Hd. unfold curl_easy_perform.
  rewrite run_bind, (run_load_auth _ _ _ Hau), Hs, run_bind, run_deref, Hh, Hu, Hp.
  change (default EmptyString (Some post)) with post. rewrite run_bind.
  change (emit (EvPerform target post) w)
    with (Returns tt (with_trace (fun t => t ++ [EvPerform target post]) w)).
  cbv beta iota. rewrite Hf, Hw. cbv beta iota. by rewrite run_bind, Hd.
Qed.

(** The three options, then the transfer: what a flow makes of the call
    when the lines of the reply are delivered to [w']. *)
Lemma run_request_registered a au url target post auth_user w w' :
  auths w !! a = Some au -> state au = Some url -> handle_registered url ->
  deliver_headers (reply_headers (http_server target post)) auth_user
    (with_trace (fun t => t ++ [EvPerform target post])
       (with_auths (insert a (requesting target post auth_user url au)) w))
  = Returns true w' ->
  transport_call a target post auth_user w
  = Returns (reply_code (http_server target post)) w'.
Proof.
  intros Hau Hs (h & Hh & Hf) Hd. unfold transport_call.
  pose proof (run_setopt a au url (opt_URL target) w Hau Hs) as E1.
  set (au1 := set_state _ au) in E1. set (w1 := with_auths _ w) in E1.
  assert (auths w1 !! a = Some au1) as Hau1 by (cbn; apply lookup_insert_eq).
  pose proof (run_setopt a au1 _ (opt_POSTFIELDS post) w1 Hau1 eq_refl) as E2.
  set (au2 := set_state _ au1) in E2. set (w2 := with_auths _ w1) in E2.
  assert (auths w2 !! a = Some au2) as Hau2 by (cbn; apply lookup_insert_eq).
  pose proof (run_setopt a au2 _ (opt_WRITEHEADER auth_user) w2 Hau2 eq_refl) as E3.
  set (au3 := set_state _ au2) in E3. set (w3 := with_auths _ w2) in E3.
  assert (auths w3 !! a = Some au3) as Hau3 by (cbn; apply lookup_insert_eq).
  assert (w3 = with_auths (insert a (requesting target post auth_user url au)) w)
    as Ew3.
  { subst w3 w2 w1. unfold with_auths; cbn. by rewrite !insert_insert_eq. }
  rewrite run_bind, E1, run_bind, E2, run_bind, E3.
  apply (run_perform_registered a au3 _
           (opt_WRITEHEADER auth_user (opt_POSTFIELDS post (opt_URL target h)))
           target post auth_user w3 w' Hau3 eq_refl);
    [subst au3 au2 au1; cbn; by rewrite Hh | done | done | done | exact Hf |].
  by rewrite Ew3.
Qed.

End RegisteredTransport.

(** ** The flows against a registered handle, to the end *)

Section RegisteredFlows.
Context `{External}.

Lemma run_request_registered_k {B : Type} (k : Z -> M B)
    a au url target post auth_user w w' :
  auths w !! a = Some au -> state au = Some url -> handle_registered url ->
  listener_ok w auth_user ->
  deliver_headers (reply_headers (http_server target post)) auth_user
    (with_trace (fun t => t ++ [EvPerform target post])
       (with_auths (insert a (requesting target post auth_user url au)) w))
  = Returns true w' ->
  (curl_easy_setopt a (opt_URL target);;
   curl_easy_setopt a (opt_POSTFIELDS post);;
   curl_easy_setopt a (opt_WRITEHEADER auth_user);;
   curl_easy_perform a ≫= k) w
  = k (reply_code (http_server target post)) w'.
Proof.
  intros Hau Hs Hreg Hok Hd.
  destruct (run_request a au url target post auth_user w Hau Hs Hok)
    as (res & cs & Ecall & _ & Hk).
  cbv zeta in *. rewrite Hk.
  rewrite (run_request_registered _ _ _ _ _ _ _ _ Hau Hs Hreg Hd) in Ecall.
  by inversion Ecall.
Qed.

(** The remove flow with an endpoint, as it leaves the world. *)
Lemma run_remove_registered auth_user c cl a au url target w :
  client auth_user = Some c -> clients w !! c = Some cl -> auth cl = Some a ->
  auths w !! a = Some au -> state au = Some url -> handle_registered url ->
  removeurl url = Some target ->
  let post := removeurl_post (config w) auth_user cl (clock w) in
  let reply := http_server target post in
  lines_fit (reply_headers reply) ->
  auth_removeurl_client auth_user w
  = Returns AUTH_OK
      {| auths :=
           (if refcount au - 1 =? 0 then delete a (auths w)
            else <[a := set_refcount (refcount au - 1)
                          (requesting target post auth_user url au)]> (auths w));
         clients :=
           <[c := set_auth None (after_reply url (reply_headers reply) cl)]>
             (clients w);
         config := config w;
         config_held := config_held w;
         clock := clock w;
         trace :=
           trace w ++ EvConfigAcquire :: EvConfigRelease
             :: EvPerform target post
             :: warning (reply_code reply) target ++ [EvAuthRelease a] |}.
Proof.
  intros Hc Hcl Ha Hau Hs Hreg Hu post reply Hfit. unfold auth_removeurl_client.
  run_listener_prologue Hc Hcl Ha Hau Hs. rewrite run_bind.
  change (time w) with (Returns (clock w) w). cbv beta iota zeta.
  rewrite Hu, run_snapshot_read.
  rewrite (snprintf_format _ _ _ _ (format_remove _ _ _ _ _ _)).
  change (substring 0 (1024 - 1) _) with post.
  rewrite run_bind, run_deref.
  set (w0 := with_trace _ w).
  set (cl1 := after_reply url (reply_headers reply) cl).
  erewrite (run_request_registered_k _ a au url target post auth_user w0);
    [| exact Hau | exact Hs | exact Hreg
     | unfold listener_ok; rewrite Hc; by exists cl, a, au, url
     | apply (run_deliver_headers_listener _ _ c cl a
                (requesting target post auth_user url au));
       [exact Hc | exact Hcl | exact Ha | apply lookup_insert_eq
       | reflexivity | exact Hfit] ].
  fold reply. rewrite run_warning.
  rewrite run_bind, (run_load_client c cl1) by apply lookup_insert_eq.
  assert (auth cl1 = Some a) as -> by (subst cl1; unfold after_reply;
                                         by destruct (existsb _ _)).
  rewrite run_bind, (run_auth_release a (requesting target post auth_user url au))
    by apply lookup_insert_eq.
  rewrite run_bind, (run_load_client c cl1) by apply lookup_insert_eq.
  rewrite run_bind, (run_store_client c cl1) by apply lookup_insert_eq.
  rewrite run_ret. f_equal.
  unfold with_clients, with_auths, with_trace; cbn. f_equal.
  - destruct (refcount au - 1 =? 0).
    + by rewrite delete_insert_eq.
    + by rewrite insert_insert_eq.
  - by rewrite insert_insert_eq.
  - by rewrite <- !app_assoc.
Qed.

(** A stream flow with an endpoint on an event without a client, after its
    prologue, to the world it leaves. *)
Ltac run_stream_registered w auth_user a au url action post reply
       Hc Hau Hs Hreg Hu Hfit :=
  rewrite Hu; cbv zeta;
  rewrite run_bind, (run_load_auth a au) by exact Hau;
  rewrite run_bind, (run_store_auth a au) by exact Hau;
  rewrite run_bind, (run_config_release (config_held w)) by reflexivity;
  rewrite (snprintf_format _ _ _ _
             (format_stream action _ _ _ eq_refl ltac:(auto)));
  change (substring 0 (4096 - 1) _) with post;
  rewrite run_bind, run_deref;
  set (pinned := set_refcount (refcount au + 1) au);
  match goal with
  | |- context [ (curl_easy_setopt a (opt_URL ?target) ≫= _) ?w0 ] =>
      erewrite (run_request_registered_k _ a pinned url target post auth_user w0);
      [ | apply lookup_insert_eq | exact Hs | exact Hreg
        | unfold listener_ok; by rewrite Hc
        | apply run_deliver_headers_source; [exact Hc | exact Hfit] ];
      fold reply; rewrite run_warning;
      rewrite run_bind,
        (run_auth_release a (requesting target post auth_user url pinned))
        by apply lookup_insert_eq;
      rewrite run_ret; f_equal;
      apply world_ext; cbn; try reflexivity;
      [ replace (refcount au + 1 - 1) with (refcount au) by lia;
        destruct (refcount au =? 0);
        [ by rewrite !delete_insert_eq | by rewrite !insert_insert_eq ]
      | by rewrite <- !app_assoc ]
  end.

Lemma run_stream_start_registered auth_user mi a au url target w :
  client auth_user = None ->
  config_find_mount (config w) (mount auth_user) = Some mi ->
  mount_auth mi = Some a -> auths w !! a = Some au -> state au = Some url ->
  handle_registered url -> stream_start url = Some target ->
  let post := stream_post "start" (config w) auth_user in
  let reply := http_server target post in
  lines_fit (reply_headers reply) ->
  url_stream_start auth_user w
  = Returns AUTH_OK
      {| auths :=
           (if refcount au =? 0 then delete a (auths w)
            else <[a := set_refcount (refcount au)
                          (requesting target post auth_user url au)]> (auths w));
         clients := clients w;
         config := config w;
         config_held := config_held w;
         clock := clock w;
         trace :=
           trace w ++ EvConfigAcquire :: EvConfigRelease
             :: EvPerform target post
             :: warning (reply_code reply) target ++ [EvAuthRelease a] |}.
Proof.
  intros Hc Hm Ha Hau Hs Hreg Hu post reply Hfit. unfold url_stream_start.
  run_stream_prologue Hm Ha Hau Hs.
  run_stream_registered w auth_user a au url "start"%string post reply
    Hc Hau Hs Hreg Hu Hfit.
Qed.

Lemma run_stream_end_registered auth_user mi a au url target w :
  client auth_user = None ->
  config_find_mount (config w) (mount auth_user) = Some mi ->
  mount_auth mi = Some a -> auths w !! a = Some au -> state au = Some url ->
  handle_registered url -> stream_end url = Some target ->
  let post := stream_post "end" (config w) auth_user in
  let reply := http_server target post in
  lines_fit (reply_headers reply) ->
  url_stream_end auth_user w
  = Returns AUTH_OK
      {| auths :=
           (if refcount au =? 0 then delete a (auths w)
            else <[a := set_refcount (refcount au)
                          (requesting target post auth_user url au)]> (auths w));
         clients := clients w;
         config := config w;
         config_held := config_held w;
         clock := clock w;
         trace :=
           trace w ++ EvConfigAcquire :: EvConfigRelease
             :: EvPerform target post
             :: warning (reply_code reply) target ++ [EvAuthRelease a] |}.
Proof.
  intros Hc Hm Ha Hau Hs Hreg Hu post reply Hfit. unfold url_stream_end.
  run_stream_prologue Hm Ha Hau Hs.
  run_stream_registered w auth_user a au url "end"%string post reply
    Hc Hau Hs Hreg Hu Hfit.
Qed.

(** The add flow with an endpoint, as it leaves the world. *)
Lemma run_add_registered auth_user c cl a au url target w :
  client auth_user = Some c -> clients w !! c = Some cl -> auth cl = Some a ->
  auths w !! a = Some au -> state au = Some url -> handle_registered url ->
  addurl url = Some target ->
  let post := add_post (config w) auth_user cl in
  let reply := http_server target post in
  lines_fit (reply_headers reply) ->
  let cl1 := after_reply url (reply_headers reply) cl in
  let cs1 := <[c := cl1]> (clients w) in
  let w1 :=
    {| auths := <[a := requesting target post auth_user url au]> (auths w);
       clients := cs1;
       config := config w;
       config_held := config_held w;
       clock := clock w;
       trace :=
         trace w ++ [EvConfigAcquire; EvConfigRelease; EvPerform target post] |} in
  auth_addurl_client auth_user w
  = if negb (reply_code reply =? 0)
    then Returns AUTH_FAILED (with_trace (fun t => t ++ [EvWarn target]) w1)
    else if negb (authenticated cl1 =? 0)
         then Returns (if fst (auth_postprocess_client auth_user cs1) <? 0
                       then AUTH_FAILED else AUTH_OK)
                (with_clients
                   (fun _ => snd (auth_postprocess_client auth_user cs1)) w1)
         else Returns AUTH_FAILED w1.
Proof.
  intros Hc Hcl Ha Hau Hs Hreg Hu post reply Hfit cl1 cs1 w1.
  destruct (run_add _ _ _ _ _ _ _ _ Hc Hcl Ha Hau Hs Hu)
    as (res & cs & v & Ecall & Hv & E).
  cbv zeta in Ecall, E. fold post in Ecall, E.
  set (w0 := with_trace (fun t => t ++ [EvConfigAcquire; EvConfigRelease]) w) in *.
  assert (deliver_headers (reply_headers reply) auth_user
            (with_trace (fun t => t ++ [EvPerform target post])
               (with_auths (insert a (requesting target post auth_user url au)) w0))
          = Returns true
              (with_clients (insert c cl1)
                 (with_trace (fun t => t ++ [EvPerform target post])
                    (with_auths
                       (insert a (requesting target post auth_user url au)) w0))))
    as Hd.
  { apply (run_deliver_headers_listener _ _ c cl a
             (requesting target post auth_user url au)
             (set_handle
                (opt_WRITEHEADER auth_user
                   <$> (opt_POSTFIELDS post <$> (opt_URL target <$> handle url)))
                url));
      [exact Hc | exact Hcl | exact Ha | apply lookup_insert_eq
      | reflexivity | exact Hfit]. }
  rewrite (run_request_registered a au url target post auth_user w0 _
             Hau Hs Hreg Hd) in Ecall.
  assert (res = reply_code reply) as -> by (fold reply in Ecall; congruence).
  assert (cs = cs1) as ->.
  { apply (f_equal (fun o => match o with
                             | Returns _ w' => clients w'
                             | Undefined => clients w
                             end)) in Ecall.
    by cbn in Ecall. }
  assert (v = authenticated cl1) as ->.
  { unfold cs1 in Hv. rewrite lookup_insert_eq in Hv.
    injection Hv as Hv. by rewrite Hv. }
  destruct Hreg as (h & Hh & _). rewrite E. fold reply.
  assert (with_clients (fun _ => cs1)
            (with_trace (fun t => t ++ request_of target post url)
               (with_auths (insert a (requesting target post auth_user url au)) w0))
          = w1) as ->.
  { unfold w1, w0, with_clients, with_trace, with_auths, request_of; cbn.
    rewrite Hh. by rewrite <- app_assoc. }
  reflexivity.
Qed.

End RegisteredFlows.

(** ** The listener flows, from the reply to the answer *)

Section ListenerFlows.
Context `{External}.

(** X1. With a registered handle and an add endpoint, the add flow answers
    AUTH_OK exactly when the transfer succeeds, the listener is flagged
    (by a header line of this reply that passes the test, or already
    before the call: the flow never clears the flag) and the
    post-processing hook does not report a negative result.  The hook runs
    only on a flagged listener of a successful transfer; otherwise the
    clients are left as the reply flagged them.  One request is posted. *)
Theorem add_flow_end_to_end auth_user c cl a au url target w :
  client auth_user = Some c -> clients w !! c = Some cl -> auth cl = Some a ->
  auths w !! a = Some au -> state au = Some url -> handle_registered url ->
  addurl url = Some target ->
  let post := add_post (config w) auth_user cl in
  let reply := http_server target post in
  lines_fit (reply_headers reply) ->
  let cl1 := after_reply url (reply_headers reply) cl in
  let cs1 := <[c := cl1]> (clients w) in
  let heard := (reply_code reply =? 0) && negb (authenticated cl1 =? 0) in
  exists w',
    auth_addurl_client auth_user w
    = Returns (if heard && negb (fst (auth_postprocess_client auth_user cs1) <? 0)
               then AUTH_OK else AUTH_FAILED) w'
    /\ clients w'
       = (if heard then snd (auth_postprocess_client auth_user cs1) else cs1)
    /\ posts (trace w') = posts (trace w) ++ [(target, post)].
Proof.
  intros Hc Hcl Ha Hau Hs Hreg Hu post reply Hfit cl1 cs1 heard.
  rewrite (run_add_registered _ _ _ _ _ _ _ _ Hc Hcl Ha Hau Hs Hreg Hu Hfit).
  fold post reply cl1 cs1. unfold heard.
  destruct (reply_code reply =? 0); cbn [negb andb].
  - destruct (authenticated cl1 =? 0); cbn [negb andb].
    + eexists. split; [reflexivity |]. split; [reflexivity |].
      cbn. rewrite posts_app. cbn. reflexivity.
    + destruct (fst (auth_postprocess_client auth_user cs1) <? 0); cbn [negb];
        (eexists; split; [reflexivity |]; split; [reflexivity |]);
        cbn; rewrite posts_app; cbn; reflexivity.
  - eexists. split; [reflexivity |]. split; [reflexivity |].
    cbn. rewrite !posts_app. cbn. by rewrite app_nil_r.
Qed.

(** X2. With a registered handle and a remove endpoint, the remove flow
    posts one request, logs a warning exactly when the transfer failed, and
    then gives back one reference of the authenticator, which is destroyed
    when that was the last one.  It leaves the listener with a null
    back-reference and with the flag as the header lines of the reply set
    it, and every other client as it was. *)
Theorem remove_flow_end_to_end auth_user c cl a au url target w :
  client auth_user = Some c -> clients w !! c = Some cl -> auth cl = Some a ->
  auths w !! a = Some au -> state au = Some url -> handle_registered url ->
  removeurl url = Some target ->
  let post := removeurl_post (config w) auth_user cl (clock w) in
  let reply := http_server target post in
  lines_fit (reply_headers reply) ->
  exists w',
    auth_removeurl_client auth_user w = Returns AUTH_OK w'
    /\ clients w'
       = <[c := set_auth None (after_reply url (reply_headers reply) cl)]>
           (clients w)
    /\ (refcount au = 1 -> auths w' = delete a (auths w))
    /\ (refcount au <> 1 ->
        exists au', auths w' = <[a := au']> (auths w)
                    /\ refcount au' = refcount au - 1)
    /\ trace w'
       = trace w ++ [EvConfigAcquire; EvConfigRelease; EvPerform target post]
           ++ (if reply_code reply =? 0 then [] else [EvWarn target])
           ++ [EvAuthRelease a]
    /\ config_held w' = config_held w.
Proof.
  intros Hc Hcl Ha Hau Hs Hreg Hu post reply Hfit.
  rewrite (run_remove_registered _ _ _ _ _ _ _ _ Hc Hcl Ha Hau Hs Hreg Hu Hfit).
  fold post reply. eexists. split; [reflexivity |]. cbn.
  split; [reflexivity |]. split; [| split; [| split; [| reflexivity]]].
  - intros Hone. by rewrite Hone.
  - intros Hmore. assert ((refcount au - 1 =? 0) = false) as ->
      by (apply Z.eqb_neq; lia).
    by eexists.
  - unfold warning. by destruct (reply_code reply =? 0).
Qed.

(** X3. A listener that connects and disconnects: when the add flow has
    answered AUTH_OK and the hook has left the listener in the client
    store, the remove flow on the world the add flow left answers AUTH_OK,
    the two requests were posted in this order, each to its endpoint, and
    the listener ends without its back-reference. *)
Theorem listener_added_then_removed auth_user c cl a au url h add_target remove_target
    w w1 :
  client auth_user = Some c -> clients w !! c = Some cl -> auth cl = Some a ->
  auths w !! a = Some au -> state au = Some url -> handle url = Some h ->
  addurl url = Some add_target -> removeurl url = Some remove_target ->
  (forall cs, snd (auth_postprocess_client auth_user cs) !! c = cs !! c) ->
  auth_addurl_client auth_user w = Returns AUTH_OK w1 ->
  exists w2 cl2,
    auth_removeurl_client auth_user w1 = Returns AUTH_OK w2
    /\ posts (trace w2)
       = posts (trace w)
         ++ [(add_target, add_post (config w) auth_user cl);
             (remove_target, removeurl_post (config w) auth_user cl (clock w))]
    /\ clients w2 !! c = Some cl2
    /\ auth cl2 = None.
Proof.
  intros Hc Hcl Ha Hau Hs Hh Hadd Hrem Hhook Hok.
  destruct (run_add _ _ _ _ _ _ _ _ Hc Hcl Ha Hau Hs Hadd)
    as (res & cs & v & _ & Hv & E).
  cbv zeta in E. rewrite E in Hok. clear E.
  destruct (res =? 0) eqn:Eres; cbn [negb] in Hok; [| discriminate].
  destruct (v =? 0) eqn:Ev; cbn [negb] in Hok; [discriminate |].
  destruct (fst (auth_postprocess_client auth_user cs) <? 0); [discriminate |].
  injection Hok as <-.
  set (post := add_post (config w) auth_user cl) in *.
  destruct (run_remove auth_user c (set_authenticated v cl) a
              (requesting add_target post auth_user url au)
              (set_handle
                 (opt_WRITEHEADER auth_user
                    <$> (opt_POSTFIELDS post <$> (opt_URL add_target <$> handle url)))
                 url)
              remove_target
              (with_clients
                 (fun _ => snd (auth_postprocess_client auth_user cs))
                 (with_clients (fun _ => cs)
                    (with_trace (fun t => t ++ request_of add_target post url)
                       (with_auths
                          (insert a (requesting add_target post auth_user url au))
                          (with_trace
                             (fun t => t ++ [EvConfigAcquire; EvConfigRelease])
                             w))))))
    as (res' & w1' & w2 & v' & _ & Erun & Hcl2 & _ & _ & Etr & _).
  { exact Hc. }
  { cbn. by rewrite Hhook. }
  { exact Ha. }
  { cbn. apply lookup_insert_eq. }
  { reflexivity. }
  { exact Hrem. }
  exists w2, (set_auth None (set_authenticated v' (set_authenticated v cl))).
  split; [exact Erun |]. split; [| split; [exact Hcl2 | reflexivity]].
  rewrite Etr. cbn. rewrite !posts_app. unfold request_of. cbn. rewrite Hh.
  cbn. rewrite <- !app_assoc. cbn.
  unfold warning. by destruct (negb (res' =? 0)).
Qed.

(** X4. The listener flows dereference the client of the event, its
    authenticator and the state of that authenticator before anything
    else: each of them returns exactly when the event has a client that is
    allocated and has an allocated authenticator with its state, and is
    undefined otherwise, with or without an endpoint. *)
Theorem listener_flows_need_listener auth_user w :
  let served :=
    exists c cl a au url,
      client auth_user = Some c /\ clients w !! c = Some cl /\ auth cl = Some a
      /\ auths w !! a = Some au /\ state au = Some url in
  ((exists r w', auth_addurl_client auth_user w = Returns r w') <-> served)
  /\ ((exists r w', auth_removeurl_client auth_user w = Returns r w') <-> served)
  /\ (~ served ->
      auth_addurl_client auth_user w = Undefined
      /\ auth_removeurl_client auth_user w = Undefined).
Proof.
  intros served.
  assert (served -> (exists r w', auth_addurl_client auth_user w = Returns r w')
                    /\ (exists r w', auth_removeurl_client auth_user w = Returns r w'))
    as Hruns.
  { intros (c & cl & a & au & url & Hc & Hcl & Ha & Hau & Hs). split.
    - destruct (addurl url) as [target|] eqn:Hu.
      + destruct (add_flow_trace _ _ _ _ _ _ _ _ Hc Hcl Ha Hau Hs Hu)
          as (res & r & w' & E & _). eauto.
      + rewrite (run_add_none _ _ _ _ _ _ _ Hc Hcl Ha Hau Hs Hu). eauto.
    - destruct (removeurl url) as [target|] eqn:Hu.
      + destruct (run_remove _ _ _ _ _ _ _ _ Hc Hcl Ha Hau Hs Hu)
          as (res & w1 & w' & v & _ & E & _). eauto.
      + rewrite (run_remove_none _ _ _ _ _ _ _ Hc Hcl Ha Hau Hs Hu). eauto. }
  destruct (listener_flow_inv auth_user w) as [Hserved | [Eadd Erem]].
  - split; [| split]; [split; [done | by intros; apply Hruns]
                      | split; [done | by intros; apply Hruns] | done].
  - split; [| split].
    + split; [intros (r & w' & E); congruence | intros Hs; by apply Hruns in Hs as [? _]].
    + split; [intros (r & w' & E); congruence | intros Hs; by apply Hruns in Hs as [_ ?]].
    + done.
Qed.

End ListenerFlows.

(** ** The stream flows, from the event to the trace *)

Section StreamFlows.
Context `{External}.

(** X5. With a registered handle, a stream-start flow on an event without a
    client answers AUTH_OK whatever the endpoint replies.  With an endpoint
    it posts one request whose body names the action, the escaped mount and
    the escaped host in this order, cut to the 4095 characters of its
    buffer, logs a warning exactly when the transfer failed and then
    releases its pin; with no endpoint it only takes and gives back the
    snapshot.  Clients and configuration are never touched.  The
    stream-end flow does the same with its own endpoint and action. *)
Theorem stream_flows_end_to_end auth_user mi a au url w :
  client auth_user = None ->
  config_find_mount (config w) (mount auth_user) = Some mi ->
  mount_auth mi = Some a -> auths w !! a = Some au -> state au = Some url ->
  handle_registered url ->
  let body action :=
    substring 0 4095
      ("action=" +:+ action +:+ "&mount=" +:+ util_url_escape (mount auth_user)
       +:+ "&server=" +:+ util_url_escape (hostname (config w))) in
  let told flow endpoint action :=
    match endpoint with
    | Some target =>
        let reply := http_server target (body action) in
        lines_fit (reply_headers reply) ->
        exists w',
          flow auth_user w = Returns AUTH_OK w'
          /\ clients w' = clients w /\ config w' = config w
          /\ trace w'
             = trace w
               ++ [EvConfigAcquire; EvConfigRelease; EvPerform target (body action)]
               ++ (if reply_code reply =? 0 then [] else [EvWarn target])
               ++ [EvAuthRelease a]
    | None =>
        flow auth_user w
        = Returns AUTH_OK
            (with_trace (fun t => t ++ [EvConfigAcquire; EvConfigRelease]) w)
    end in
  told url_stream_start (stream_start url) "start"%string
  /\ told url_stream_end (stream_end url) "end"%string.
Proof.
  intros Hc Hm Ha Hau Hs Hreg body told. split; unfold told.
  - destruct (stream_start url) as [target|] eqn:Hu.
    + intros Hfit.
      rewrite (run_stream_start_registered _ _ _ _ _ _ _ Hc Hm Ha Hau Hs Hreg Hu Hfit).
      eexists. split; [reflexivity |]. cbn. split; [done |]. split; [done |].
      change (stream_post "start" (config w) auth_user) with (body "start"%string).
      unfold warning.
      by destruct (reply_code (http_server target (body "start"%string)) =? 0).
    + apply (run_stream_start_none _ _ _ _ _ _ Hm Ha Hau Hs Hu).
  - destruct (stream_end url) as [target|] eqn:Hu.
    + intros Hfit.
      rewrite (run_stream_end_registered _ _ _ _ _ _ _ Hc Hm Ha Hau Hs Hreg Hu Hfit).
      eexists. split; [reflexivity |]. cbn. split; [done |]. split; [done |].
      change (stream_post "end" (config w) auth_user) with (body "end"%string).
      unfold warning.
      by destruct (reply_code (http_server target (body "end"%string)) =? 0).
    + apply (run_stream_end_none _ _ _ _ _ _ Hm Ha Hau Hs Hu).
Qed.

Lemma handle_registered_requesting target post auth_user url :
  handle_registered url ->
  handle_registered
    (set_handle
       (opt_WRITEHEADER auth_user
          <$> (opt_POSTFIELDS post <$> (opt_URL target <$> handle url))) url).
Proof.
  intros (h & Hh & Hf). cbn. rewrite Hh. cbn. by eexists.
Qed.

(** X6. A source that starts and ends: on a mount whose live authenticator
    has both endpoints and a registered handle, the stream-end flow runs on
    the world the stream-start flow left; both answer AUTH_OK, the start
    request and the end request were posted in this order, and the
    reference count, the clients and the snapshots held are as before the
    first flow. *)
Theorem stream_start_then_end auth_user mi a au url start_target end_target w :
  client auth_user = None ->
  config_find_mount (config w) (mount auth_user) = Some mi ->
  mount_auth mi = Some a -> auths w !! a = Some au -> state au = Some url ->
  handle_registered url -> 0 < refcount au ->
  stream_start url = Some start_target -> stream_end url = Some end_target ->
  let start_post := stream_post "start" (config w) auth_user in
  let end_post := stream_post "end" (config w) auth_user in
  lines_fit (reply_headers (http_server start_target start_post)) ->
  lines_fit (reply_headers (http_server end_target end_post)) ->
  exists w1 w2 au2,
    url_stream_start auth_user w = Returns AUTH_OK w1
    /\ url_stream_end auth_user w1 = Returns AUTH_OK w2
    /\ posts (trace w2)
       = posts (trace w) ++ [(start_target, start_post); (end_target, end_post)]
    /\ auths w2 !! a = Some au2 /\ refcount au2 = refcount au
    /\ clients w2 = clients w /\ config_held w2 = config_held w.
Proof.
  intros Hc Hm Ha Hau Hs Hreg Hpos Hstart Hend start_post end_post Hfit1 Hfit2.
  assert ((refcount au =? 0) = false) as Hnz by (apply Z.eqb_neq; lia).
  rewrite (run_stream_start_registered _ _ _ _ _ _ _ Hc Hm Ha Hau Hs Hreg Hstart Hfit1).
  fold start_post. rewrite Hnz. eexists _, _, _. split; [reflexivity |].
  set (au1 := set_refcount (refcount au)
                (requesting start_target start_post auth_user url au)).
  erewrite (run_stream_end_registered auth_user mi a au1 _ end_target);
    [| exact Hc | exact Hm | exact Ha | apply lookup_insert_eq | reflexivity
     | by apply handle_registered_requesting | exact Hend | exact Hfit2].
  split; [reflexivity |]. cbn. rewrite Hnz, lookup_insert_eq.
  split; [| done].
  rewrite !posts_app. cbn. rewrite !posts_app. cbn.
  unfold warning. change (stream_post "end" (config w) auth_user) with end_post.
  destruct (negb (reply_code (http_server start_target start_post) =? 0)),
    (negb (reply_code (http_server end_target end_post) =? 0)); cbn;
    by rewrite <- ?app_assoc.
Qed.

End StreamFlows.

(** ** Buffers *)

Lemma length_substring_le (n : nat) (s : string) :
  (String.length (substring 0 n s) <= n)%nat.
Proof.
  revert s. induction n as [| n IH]; intros [| c s]; cbn; try lia.
  specialize (IH s). lia.
Qed.

Lemma posted_within_flow (n : nat) (w w' : world) (target post : string)
    (url : auth_url) (res : Z) (rest : list event) :
  trace w'
  = trace w ++ EvConfigAcquire :: EvConfigRelease
      :: request_of target post url ++ warning res target ++ rest ->
  posts rest = [] -> (String.length post <= n)%nat ->
  posted_within n w w'.
Proof.
  intros Etr Hrest Hlen. exists (posts (request_of target post url)).
  rewrite Etr, posts_app. cbn. rewrite !posts_app, Hrest.
  unfold request_of, warning.
  destruct (handle url), (negb (res =? 0)); cbn;
    (split; [done |]; split; [lia |]); by repeat constructor.
Qed.

Section Buffers.
Context `{External}.

(** X7. No flow retries and no flow overruns its buffer: a flow that
    returns has posted at most one request, and the body of that request
    has at most 1023 characters in the listener flows and at most 4095 in
    the stream flows, whatever the length of the host name, the mount and
    the credentials. *)
Theorem flows_post_within_buffer auth_user w r w' :
  (auth_addurl_client auth_user w = Returns r w' -> posted_within 1023 w w')
  /\ (auth_removeurl_client auth_user w = Returns r w' -> posted_within 1023 w w')
  /\ (client auth_user = None ->
      url_stream_start auth_user w = Returns r w' -> posted_within 4095 w w')
  /\ (client auth_user = None ->
      url_stream_end auth_user w = Returns r w' -> posted_within 4095 w w').
Proof.
  assert (forall n, posted_within n w w) as Hsame.
  { intros n. exists []. rewrite app_nil_r. cbn. repeat split; [lia | constructor]. }
  assert (forall n, posted_within n w
            (with_trace (fun t => t ++ [EvConfigAcquire; EvConfigRelease]) w))
    as Hsnapshot.
  { intros n. exists []. cbn. rewrite posts_app, app_nil_r. cbn.
    rewrite app_nil_r. repeat split; [lia | constructor]. }
  repeat split.
  - intros E.
    destruct (listener_flow_inv auth_user w)
      as [(c & cl & a & au & url & Hc & Hcl & Ha & Hau & Hs) | [E' _]];
      [| congruence].
    destruct (addurl url) as [target|] eqn:Hu.
    + destruct (add_flow_trace _ _ _ _ _ _ _ _ Hc Hcl Ha Hau Hs Hu)
        as (res & r0 & w0 & E0 & Etr & _).
      assert (w0 = w') as -> by congruence.
      apply (posted_within_flow _ _ _ _ _ _ _ _ Etr); [done |].
      apply length_substring_le.
    + rewrite (run_add_none _ _ _ _ _ _ _ Hc Hcl Ha Hau Hs Hu) in E.
      by inversion E; subst.
  - intros E.
    destruct (listener_flow_inv auth_user w)
      as [(c & cl & a & au & url & Hc & Hcl & Ha & Hau & Hs) | [_ E']];
      [| congruence].
    destruct (removeurl url) as [target|] eqn:Hu.
    + destruct (run_remove _ _ _ _ _ _ _ _ Hc Hcl Ha Hau Hs Hu)
        as (res & w1 & w0 & v & _ & E0 & _ & _ & _ & Etr & _).
      assert (w0 = w') as -> by congruence.
      apply (posted_within_flow _ _ _ _ _ _ _ _ Etr); [done |].
      apply length_substring_le.
    + rewrite (run_remove_none _ _ _ _ _ _ _ Hc Hcl Ha Hau Hs Hu) in E.
      by inversion E; subst.
  - intros Hc E.
    assert (listener_ok w auth_user) as Hok by (unfold listener_ok; by rewrite Hc).
    destruct (stream_flow_inv auth_user w)
      as [(mi & a & au & url & Hm & Ha & Hau & Hs) | [E' _]]; [| congruence].
    destruct (stream_start url) as [target|] eqn:Hu.
    + destruct (run_stream_start _ _ _ _ _ _ _ Hm Ha Hau Hs Hu Hok)
        as (res & w0 & E0 & _ & _ & Etr & _).
      assert (w0 = w') as -> by congruence.
      apply (posted_within_flow _ _ _ _ _ _ _ _ Etr); [done |].
      apply length_substring_le.
    + rewrite (run_stream_start_none _ _ _ _ _ _ Hm Ha Hau Hs Hu) in E.
      by inversion E; subst.
  - intros Hc E.
    assert (listener_ok w auth_user) as Hok by (unfold listener_ok; by rewrite Hc).
    destruct (stream_flow_inv auth_user w)
      as [(mi & a & au & url & Hm & Ha & Hau & Hs) | [_ E']]; [| congruence].
    destruct (stream_end url) as [target|] eqn:Hu.
    + destruct (run_stream_end _ _ _ _ _ _ _ Hm Ha Hau Hs Hu Hok)
        as (res & w0 & E0 & _ & _ & Etr & _).
      assert (w0 = w') as -> by congruence.
      apply (posted_within_flow _ _ _ _ _ _ _ _ Etr); [done |].
      apply length_substring_le.
    + rewrite (run_stream_end_none _ _ _ _ _ _ Hm Ha Hau Hs Hu) in E.
      by inversion E; subst.
Qed.

End Buffers.

(** ** The counts the callbacks return *)

Lemma to_signed_unsigned (bits x : Z) :
  Libc.to_signed bits (Libc.to_unsigned bits x) = Libc.to_signed bits x.
Proof.
  unfold Libc.to_signed, Libc.to_unsigned.
  destruct (Z.eq_dec (2 ^ bits) 0) as [E | E].
  - by rewrite E, !Z.mod_0_r.
  - by rewrite Z.mod_mod.
Qed.

Lemma to_signed_int_range (x : Z) :
  - 2 ^ 31 <= Libc.to_signed Libc.INT_BITS x <= Libc.INT_MAX
  /\ (Libc.to_signed Libc.INT_BITS x - x) mod 2 ^ 32 = 0.
Proof.
  unfold Libc.to_signed, Libc.INT_MAX, Libc.INT_BITS.
  change (2 ^ 32) with 4294967296. change (2 ^ (32 - 1)) with 2147483648.
  change (2 ^ 31) with 2147483648.
  pose proof (Z.mod_pos_bound x 4294967296 ltac:(lia)) as Hb.
  pose proof (Z.div_mod x 4294967296 ltac:(lia)) as Hd.
  destruct (x mod 4294967296 <? 2147483648) eqn:E;
    [apply Z.ltb_lt in E | apply Z.ltb_ge in E]; (split; [lia |]).
  - replace (x mod 4294967296 - x) with ((- (x / 4294967296)) * 4294967296) by lia.
    apply Z_mod_mult.
  - replace (x mod 4294967296 - 4294967296 - x)
      with ((- (x / 4294967296) - 1) * 4294967296) by lia.
    apply Z_mod_mult.
Qed.

(** X8. Both callbacks return [size * nmemb] cut to an [int]: the body
    callback and the header callback return the same count for the same
    block, whether the header callback finds a listener or not; the count
    is the number of bytes offered exactly when that number is at most
    INT_MAX, and otherwise differs from it by a multiple of [2 ^ 32]. *)
Theorem callbacks_return_int_count ptr size nmemb auth_user w :
  0 <= size * nmemb -> listener_ok w auth_user ->
  (exists w',
     handle_returned_header ptr size nmemb auth_user w
     = Returns (handle_returned_data ptr size nmemb) w')
  /\ (handle_returned_data ptr size nmemb = size * nmemb
      <-> size * nmemb <= Libc.INT_MAX)
  /\ - 2 ^ 31 <= handle_returned_data ptr size nmemb <= Libc.INT_MAX
  /\ (handle_returned_data ptr size nmemb - size * nmemb) mod 2 ^ 32 = 0.
Proof.
  intros Hpos Hok.
  assert (byte_count size nmemb = handle_returned_data ptr size nmemb) as Ecount
    by apply to_signed_unsigned.
  destruct (to_signed_int_range (size * nmemb)) as [Hrange Hmod].
  split; [| split; [| split; [exact Hrange | exact Hmod]]].
  - unfold listener_ok in Hok. destruct (client auth_user) as [c|] eqn:Hc.
    + destruct Hok as (cl & a & au & url & Hcl & Ha & Hau & Hs).
      rewrite (run_header_client _ _ _ _ _ _ _ _ _ _ Hc Hcl Ha Hau Hs), Ecount.
      eauto.
    + rewrite (run_header_none _ _ _ _ _ Hc), Ecount. eauto.
  - unfold handle_returned_data in *. split.
    + intros E. rewrite <- E. apply Hrange.
    + intros Hfits. rewrite <- Ecount. apply byte_count_small. lia.
Qed.

(** ** The header lines of a reply *)

Lemma existsb_Permutation {A : Type} (f : A -> bool) (l l' : list A) :
  Permutation l l' -> existsb f l = existsb f l'.
Proof.
  induction 1 as [| x l l' _ IH | x y l | l l' l'' _ IH1 _ IH2]; cbn.
  - reflexivity.
  - by rewrite IH.
  - by destruct (f x), (f y).
  - by rewrite IH1.
Qed.

(** X9. The verdict of a reply does not depend on the order of its header
    lines: for a listener, the lines of a reply in any order leave the same
    world.  The listener ends flagged exactly when it was flagged before or
    some line passes the test, and nothing else of it changes: no line
    takes a flag back. *)
Theorem verdict_ignores_line_order lines lines' auth_user c cl a au url w :
  client auth_user = Some c -> clients w !! c = Some cl -> auth cl = Some a ->
  auths w !! a = Some au -> state au = Some url ->
  lines_fit lines -> Permutation lines lines' ->
  exists cl',
    deliver_headers lines auth_user w
    = Returns true (with_clients (insert c cl') w)
    /\ deliver_headers lines' auth_user w
       = Returns true (with_clients (insert c cl') w)
    /\ (authenticated cl' <> 0
        <-> authenticated cl <> 0
            \/ Exists (fun line => header_matches url line = true) lines)
    /\ set_authenticated (authenticated cl) cl' = cl.
Proof.
  intros Hc Hcl Ha Hau Hs Hfit Hperm.
  assert (lines_fit lines') as Hfit'
    by (unfold lines_fit in *; by rewrite <- Hperm).
  exists (after_reply url lines cl).
  rewrite (run_deliver_headers_listener _ _ _ _ _ _ _ _ Hc Hcl Ha Hau Hs Hfit).
  rewrite (run_deliver_headers_listener _ _ _ _ _ _ _ _ Hc Hcl Ha Hau Hs Hfit').
  unfold after_reply. rewrite <- (existsb_Permutation _ _ _ Hperm).
  split; [reflexivity |]. split; [reflexivity |].
  destruct (existsb (header_matches url) lines) eqn:E.
  - split; [| by destruct cl].
    apply existsb_exists in E as (line & Hin & Hline). cbn.
    split; [| done]. intros _. right. apply Exists_exists.
    exists line. split; [by apply list_elem_of_In | done].
  - split; [| by destruct cl]. split; [by left |].
    intros [Hflag | Hex]; [done |].
    apply Exists_exists in Hex as (line & Hin & Hline).
    apply list_elem_of_In in Hin.
    assert (existsb (header_matches url) lines = true) as E'
      by (apply existsb_exists; eauto).
    congruence.
Qed.

(** ** The options of a registration *)

Lemma auth_url_ext (u v : auth_url) :
  addurl u = addurl v -> removeurl u = removeurl v ->
  stream_start u = stream_start v -> stream_end u = stream_end v ->
  url_username u = url_username v -> url_password u = url_password v ->
  auth_header u = auth_header v -> auth_header_len u = auth_header_len v ->
  handle u = handle v -> u = v.
Proof. destruct u, v; cbn; by intros -> -> -> -> -> -> -> -> ->. Qed.

(** One turn of the loop, field by field. *)
Lemma read_option_fields (u : auth_url) (k v : string) :
  let set name old := if Libc.streq k name then Some v else old in
  addurl (read_option u (k, v)) = set "add"%string (addurl u)
  /\ removeurl (read_option u (k, v)) = set "remove"%string (removeurl u)
  /\ stream_start (read_option u (k, v)) = set "start"%string (stream_start u)
  /\ stream_end (read_option u (k, v)) = set "end"%string (stream_end u)
  /\ url_username (read_option u (k, v)) = set "username"%string (url_username u)
  /\ url_password (read_option u (k, v)) = set "password"%string (url_password u)
  /\ auth_header (read_option u (k, v))
     = (if Libc.streq k "header" then v else auth_header u)
  /\ auth_header_len (read_option u (k, v)) = auth_header_len u
  /\ handle (read_option u (k, v)) = handle u.
Proof.
  unfold read_option.
  destruct (Libc.streq k "username"), (Libc.streq k "password"),
    (Libc.streq k "add"), (Libc.streq k "remove"), (Libc.streq k "start"),
    (Libc.streq k "end"), (Libc.streq k "header");
    repeat split; reflexivity.
Qed.

(** The loop, field by field: the last value of a name, or what the field
    held before the loop. *)
Lemma fold_read_option_fields (options : list (string * string)) (u : auth_url) :
  let now name old := from_option Some old (last_value name options) in
  let u' := fold_left read_option options u in
  addurl u' = now "add"%string (addurl u)
  /\ removeurl u' = now "remove"%string (removeurl u)
  /\ stream_start u' = now "start"%string (stream_start u)
  /\ stream_end u' = now "end"%string (stream_end u)
  /\ url_username u' = now "username"%string (url_username u)
  /\ url_password u' = now "password"%string (url_password u)
  /\ auth_header u' = default (auth_header u) (last_value "header" options)
  /\ auth_header_len u' = auth_header_len u
  /\ handle u' = handle u.
Proof.
  cbv zeta. revert u. induction options as [| [k v] options IH]; intros u.
  - by cbn.
  - cbn [fold_left last_value].
    destruct (IH (read_option u (k, v)))
      as (E1 & E2 & E3 & E4 & E5 & E6 & E7 & E8 & E9).
    destruct (read_option_fields u k v)
      as (F1 & F2 & F3 & F4 & F5 & F6 & F7 & F8 & F9).
    cbv zeta in *.
    split; [rewrite E1, F1; by destruct (last_value "add" options), (Libc.streq k "add") |].
    split; [rewrite E2, F2; by destruct (last_value "remove" options), (Libc.streq k "remove") |].
    split; [rewrite E3, F3; by destruct (last_value "start" options), (Libc.streq k "start") |].
    split; [rewrite E4, F4; by destruct (last_value "end" options), (Libc.streq k "end") |].
    split; [rewrite E5, F5; by destruct (last_value "username" options), (Libc.streq k "username") |].
    split; [rewrite E6, F6; by destruct (last_value "password" options), (Libc.streq k "password") |].
    split; [rewrite E7, F7; by destruct (last_value "header" options), (Libc.streq k "header") |].
    split; [by rewrite E8, F8 | by rewrite E9, F9].
Qed.

(** X10. The loop over the options keeps, for every name it knows, the
    value of the last option of that name: the four endpoints and the two
    credentials are null without such an option, and the expected header
    is the default line icecast-auth-user: 1 with its CR LF unless a header
    option replaces it.  The loop sets neither the handle nor the recorded
    length of the header. *)
Theorem read_options_last_wins (options : list (string * string)) :
  read_options options
  = {| addurl := last_value "add" options;
       removeurl := last_value "remove" options;
       stream_start := last_value "start" options;
       stream_end := last_value "end" options;
       url_username := last_value "username" options;
       url_password := last_value "password" options;
       auth_header :=
         default default_auth_header (last_value "header" options);
       auth_header_len := 0;
       handle := None |}.
Proof.
  unfold read_options.
  destruct (fold_read_option_fields options
              (set_auth_header default_auth_header calloc_auth_url))
    as (E1 & E2 & E3 & E4 & E5 & E6 & E7 & E8 & E9).
  cbv zeta in *. apply auth_url_ext; cbn [addurl removeurl stream_start
    stream_end url_username url_password auth_header auth_header_len handle].
  - rewrite E1. by destruct (last_value "add" options).
  - rewrite E2. by destruct (last_value "remove" options).
  - rewrite E3. by destruct (last_value "start" options).
  - rewrite E4. by destruct (last_value "end" options).
  - rewrite E5. by destruct (last_value "username" options).
  - rewrite E6. by destruct (last_value "password" options).
  - by rewrite E7.
  - by rewrite E8.
  - by rewrite E9.
Qed.

Lemma read_option_unknown (u : auth_url) (k v : string) :
  recognised k = false -> read_option u (k, v) = u.
Proof.
  unfold recognised. cbn [existsb]. intros Hk.
  repeat (apply orb_false_elim in Hk as [? Hk]).
  unfold read_option.
  repeat match goal with
         | E : Libc.streq k ?n = false |- _ => rewrite E; clear E
         end.
  reflexivity.
Qed.

(** X11. An option whose name is none of username, password, add, remove,
    start, end and header, spelled exactly so, is ignored: the registration
    with it and the registration without it leave the same world.  The
    names are compared with [strcmp], so an option named Add or HEADER is
    such an option. *)
Theorem registration_ignores_unknown_option before after k v p init w :
  recognised k = false ->
  read_options (before ++ (k, v) :: after) = read_options (before ++ after)
  /\ auth_get_url_auth p (before ++ (k, v) :: after) init w
     = auth_get_url_auth p (before ++ after) init w.
Proof.
  intros Hk.
  assert (read_options (before ++ (k, v) :: after) = read_options (before ++ after))
    as E.
  { unfold read_options. rewrite !fold_left_app. cbn [fold_left].
    by rewrite (read_option_unknown _ _ _ Hk). }
  split; [exact E |].
  unfold auth_get_url_auth, registered_url_info. by rewrite E.
Qed.

(** ** Pointers that dangle *)

Lemma run_load_auth_none a w : auths w !! a = None -> load_auth a w = Undefined.
Proof. intros E. unfold load_auth. rewrite run_bind. cbn. by rewrite E. Qed.

Lemma run_header_dangling line size nmemb auth_user c cl a w :
  client auth_user = Some c -> clients w !! c = Some cl -> auth cl = Some a ->
  (auths w !! a = None \/ exists au, auths w !! a = Some au /\ state au = None) ->
  handle_returned_header line size nmemb auth_user w = Undefined.
Proof.
  intros Hc Hcl Ha Hdangling. unfold handle_returned_header. rewrite Hc.
  rewrite run_bind, (run_load_client _ _ _ Hcl), Ha, run_bind, run_deref, run_bind.
  destruct Hdangling as [Hnone | (au & Hau & Hs)].
  - by rewrite (run_load_auth_none _ _ Hnone).
  - by rewrite (run_load_auth _ _ _ Hau), Hs.
Qed.

Section Dangling.
Context `{External}.

(** The flows of a listener whose authenticator is gone or has lost its
    state. *)
Lemma listener_flows_dangling auth_user c cl a w :
  client auth_user = Some c -> clients w !! c = Some cl -> auth cl = Some a ->
  (auths w !! a = None \/ exists au, auths w !! a = Some au /\ state au = None) ->
  auth_addurl_client auth_user w = Undefined
  /\ auth_removeurl_client auth_user w = Undefined.
Proof.
  intros Hc Hcl Ha Hdangling.
  destruct (listener_flow_inv auth_user w)
    as [(c' & cl' & a' & au' & url' & Hc' & Hcl' & Ha' & Hau' & Hs') | Hundef];
    [| exact Hundef].
  assert (c' = c) as -> by congruence. assert (cl' = cl) as -> by congruence.
  assert (a' = a) as -> by congruence.
  destruct Hdangling as [Hnone | (au & Hau & Hs)]; congruence.
Qed.

(** The flows of a source on a mount whose authenticator is gone or has
    lost its state. *)
Lemma stream_flows_dangling auth_user mi a w :
  config_find_mount (config w) (mount auth_user) = Some mi ->
  mount_auth mi = Some a ->
  (auths w !! a = None \/ exists au, auths w !! a = Some au /\ state au = None) ->
  url_stream_start auth_user w = Undefined
  /\ url_stream_end auth_user w = Undefined.
Proof.
  intros Hm Ha Hdangling.
  destruct (stream_flow_inv auth_user w)
    as [(mi' & a' & au' & url' & Hm' & Ha' & Hau' & Hs') | Hundef];
    [| exact Hundef].
  assert (mi' = mi) as -> by congruence. assert (a' = a) as -> by congruence.
  destruct Hdangling as [Hnone | (au & Hau & Hs)]; congruence.
Qed.

(** X12. When [curl_easy_init] fails, the registration answers -1 and has
    freed the authenticator it was given: no request was sent and the
    clients and the configuration are as before, but the pointer dangles.
    A second registration or a clear through it is undefined, and so is
    every flow of a source whose mount still names it, every flow of a
    listener that still refers to it, and the header callback for such a
    listener. *)
Theorem failed_registration_frees_authenticator p au0 options auth_user w :
  auths w !! p = Some au0 ->
  exists w',
    auth_get_url_auth p options None w = Returns (-1) w'
    /\ auths w' = delete p (auths w)
    /\ clients w' = clients w /\ config w' = config w /\ trace w' = trace w
    /\ (forall options' init, auth_get_url_auth p options' init w' = Undefined)
    /\ auth_url_clear p w' = Undefined
    /\ (forall mi,
          config_find_mount (config w) (mount auth_user) = Some mi ->
          mount_auth mi = Some p ->
          url_stream_start auth_user w' = Undefined
          /\ url_stream_end auth_user w' = Undefined)
    /\ (forall c cl,
          client auth_user = Some c -> clients w !! c = Some cl ->
          auth cl = Some p ->
          auth_addurl_client auth_user w' = Undefined
          /\ auth_removeurl_client auth_user w' = Undefined
          /\ forall line size nmemb,
               handle_returned_header line size nmemb auth_user w' = Undefined).
Proof.
  intros Hp. rewrite (run_registration_failed _ _ _ _ Hp).
  eexists. split; [reflexivity |].
  set (w' := with_auths (delete p) w).
  assert (auths w' !! p = None) as Hgone by (cbn; apply lookup_delete_eq).
  split; [reflexivity |]. split; [reflexivity |]. split; [reflexivity |].
  split; [reflexivity |]. split; [| split; [| split]].
  - intros options' init. unfold auth_get_url_auth.
    by rewrite run_bind, (run_load_auth_none _ _ Hgone).
  - unfold auth_url_clear. by rewrite run_bind, (run_load_auth_none _ _ Hgone).
  - intros mi Hm Ha. apply (stream_flows_dangling auth_user mi p w' Hm Ha).
    by left.
  - intros c cl Hc Hcl Ha.
    destruct (listener_flows_dangling auth_user c cl p w' Hc Hcl Ha) as [E1 E2];
      [by left |].
    split; [exact E1 |]. split; [exact E2 |]. intros line size nmemb.
    apply (run_header_dangling line size nmemb auth_user c cl p w' Hc Hcl Ha).
    by left.
Qed.

(** X13. The clear releases the state of a registered authenticator and
    touches nothing else: the methods, the reference count, the other
    authenticators, the clients and the trace are as before.  The pointer
    to the state dangles from then on: a second clear is undefined, and so
    is every flow of a source whose mount names the authenticator, every
    flow of a listener that refers to it, and the header callback for such
    a listener.  Without a state there is nothing to clear: the first
    clear is undefined too. *)
Theorem clear_leaves_state_dangling self au auth_user w :
  auths w !! self = Some au ->
  (state au = None -> auth_url_clear self w = Undefined)
  /\ (forall url, state au = Some url ->
      exists w' au',
        auth_url_clear self w = Returns tt w'
        /\ auths w' = <[self := au']> (auths w)
        /\ methods au' = methods au /\ refcount au' = refcount au
        /\ clients w' = clients w /\ config w' = config w /\ trace w' = trace w
        /\ auth_url_clear self w' = Undefined
        /\ (forall mi,
              config_find_mount (config w) (mount auth_user) = Some mi ->
              mount_auth mi = Some self ->
              url_stream_start auth_user w' = Undefined
              /\ url_stream_end auth_user w' = Undefined)
        /\ (forall c cl,
              client auth_user = Some c -> clients w !! c = Some cl ->
              auth cl = Some self ->
              auth_addurl_client auth_user w' = Undefined
              /\ auth_removeurl_client auth_user w' = Undefined
              /\ forall line size nmemb,
                   handle_returned_header line size nmemb auth_user w'
                   = Undefined)).
Proof.
  intros Hau. split.
  - intros Hs. unfold auth_url_clear.
    by rewrite run_bind, (run_load_auth _ _ _ Hau), Hs.
  - intros url Hs. unfold auth_url_clear.
    rewrite run_bind, (run_load_auth _ _ _ Hau), Hs, run_bind, run_deref.
    rewrite (run_store_auth _ _ _ _ Hau).
    set (w' := with_auths (insert self (set_state None au)) w).
    assert (exists au1, auths w' !! self = Some au1 /\ state au1 = None) as Hlost
      by (exists (set_state None au); split; [apply lookup_insert_eq | done]).
    exists w', (set_state None au).
    split; [reflexivity |]. split; [reflexivity |]. split; [reflexivity |].
    split; [reflexivity |]. split; [reflexivity |]. split; [reflexivity |].
    split; [reflexivity |]. split; [| split].
    + destruct Hlost as (au1 & Hau1 & Hs1).
      by rewrite run_bind, (run_load_auth _ _ _ Hau1), Hs1.
    + intros mi Hm Ha. apply (stream_flows_dangling auth_user mi self w' Hm Ha).
      by right.
    + intros c cl Hc Hcl Ha.
      destruct (listener_flows_dangling auth_user c cl self w' Hc Hcl Ha)
        as [E1 E2]; [by right |].
      split; [exact E1 |]. split; [exact E2 |]. intros line size nmemb.
      apply (run_header_dangling line size nmemb auth_user c cl self w' Hc Hcl Ha).
      by right.
Qed.

End Dangling.

(** ** What the flows leave of a registration *)

Lemma settings_requesting target post auth_user url :
  settings
    (set_handle
       (opt_WRITEHEADER auth_user
          <$> (opt_POSTFIELDS post <$> (opt_URL target <$> handle url))) url)
  = settings url.
Proof. unfold settings. by destruct (handle url). Qed.

Lemma settings_kept_same w w' : auths w' = auths w -> settings_kept w w'.
Proof. intros E a au' Hau'. rewrite E in Hau'. by exists au'. Qed.

Lemma settings_kept_insert a au0 au w w' :
  auths w !! a = Some au0 -> methods au = methods au0 ->
  settings <$> state au = settings <$> state au0 ->
  auths w' = <[a := au]> (auths w) -> settings_kept w w'.
Proof.
  intros Hau0 Hm Hs E a' au' Hau'. rewrite E in Hau'.
  destruct (decide (a' = a)) as [-> | Hne].
  - rewrite lookup_insert_eq in Hau'. injection Hau' as <-. by exists au0.
  - rewrite lookup_insert_ne in Hau' by done. by exists au'.
Qed.

Lemma settings_kept_delete a w w' :
  auths w' = delete a (auths w) -> settings_kept w w'.
Proof.
  intros E a' au' Hau'. rewrite E in Hau'.
  apply lookup_delete_Some in Hau' as [_ Hau']. by exists au'.
Qed.

Lemma settings_kept_released a au0 au w w' (n : Z) :
  auths w !! a = Some au0 -> methods au = methods au0 ->
  settings <$> state au = settings <$> state au0 ->
  auths w'
  = (if n =? 0 then delete a (auths w)
     else <[a := set_refcount n au]> (auths w)) ->
  settings_kept w w'.
Proof.
  intros Hau0 Hm Hs E. destruct (n =? 0).
  - by apply (settings_kept_delete a).
  - by apply (settings_kept_insert a au0 (set_refcount n au)).
Qed.

Section Settings.
Context `{External}.

(** X14. No flow configures anything: a flow that returns has created no
    authenticator, and every authenticator it has left alive has the
    methods, the endpoints, the credentials, the expected header with its
    recorded length, and the callbacks, the timeout and the signal option
    of its handle as before.  A flow writes only the three request options
    of the handle and the reference count. *)
Theorem flows_keep_settings auth_user w r w' :
  (auth_addurl_client auth_user w = Returns r w' -> settings_kept w w')
  /\ (auth_removeurl_client auth_user w = Returns r w' -> settings_kept w w')
  /\ (listener_ok w auth_user ->
      url_stream_start auth_user w = Returns r w' -> settings_kept w w')
  /\ (listener_ok w auth_user ->
      url_stream_end auth_user w = Returns r w' -> settings_kept w w').
Proof.
  repeat split.
  - intros E.
    destruct (listener_flow_inv auth_user w)
      as [(c & cl & a & au & url & Hc & Hcl & Ha & Hau & Hs) | [E' _]];
      [| congruence].
    destruct (addurl url) as [target|] eqn:Hu.
    + destruct (run_add _ _ _ _ _ _ _ _ Hc Hcl Ha Hau Hs Hu)
        as (res & cs & v & _ & _ & E0).
      cbv zeta in E0. rewrite E0 in E.
      apply (settings_kept_insert a au
               (requesting target (add_post (config w) auth_user cl)
                  auth_user url au));
        [exact Hau | reflexivity
        | cbn; rewrite Hs; cbn; by rewrite settings_requesting |].
      destruct (negb (res =? 0)); [by inversion E |].
      destruct (negb (v =? 0)); by inversion E.
    + rewrite (run_add_none _ _ _ _ _ _ _ Hc Hcl Ha Hau Hs Hu) in E.
      inversion E; subst. by apply settings_kept_same.
  - intros E.
    destruct (listener_flow_inv auth_user w)
      as [(c & cl & a & au & url & Hc & Hcl & Ha & Hau & Hs) | [_ E']];
      [| congruence].
    destruct (removeurl url) as [target|] eqn:Hu.
    + destruct (run_remove _ _ _ _ _ _ _ _ Hc Hcl Ha Hau Hs Hu)
        as (res & w1 & w0 & v & _ & E0 & _ & _ & Eauths & _).
      assert (w0 = w') as -> by congruence.
      eapply (settings_kept_released a au); [exact Hau | | | exact Eauths];
        [reflexivity | cbn; rewrite Hs; cbn; by rewrite settings_requesting].
    + rewrite (run_remove_none _ _ _ _ _ _ _ Hc Hcl Ha Hau Hs Hu) in E.
      inversion E; subst. by apply settings_kept_same.
  - intros Hok E.
    destruct (stream_flow_inv auth_user w)
      as [(mi & a & au & url & Hm & Ha & Hau & Hs) | [E' _]]; [| congruence].
    destruct (stream_start url) as [target|] eqn:Hu.
    + destruct (run_stream_start _ _ _ _ _ _ _ Hm Ha Hau Hs Hu Hok)
        as (res & w0 & E0 & Eauths & _).
      assert (w0 = w') as -> by congruence.
      eapply (settings_kept_released a au); [exact Hau | | | exact Eauths];
        [reflexivity | cbn; rewrite Hs; cbn; by rewrite settings_requesting].
    + rewrite (run_stream_start_none _ _ _ _ _ _ Hm Ha Hau Hs Hu) in E.
      inversion E; subst. by apply settings_kept_same.
  - intros Hok E.
    destruct (stream_flow_inv auth_user w)
      as [(mi & a & au & url & Hm & Ha & Hau & Hs) | [_ E']]; [| congruence].
    destruct (stream_end url) as [target|] eqn:Hu.
    + destruct (run_stream_end _ _ _ _ _ _ _ Hm Ha Hau Hs Hu Hok)
        as (res & w0 & E0 & Eauths & _).
      assert (w0 = w') as -> by congruence.
      eapply (settings_kept_released a au); [exact Hau | | | exact Eauths];
        [reflexivity | cbn; rewrite Hs; cbn; by rewrite settings_requesting].
    + rewrite (run_stream_end_none _ _ _ _ _ _ Hm Ha Hau Hs Hu) in E.
      inversion E; subst. by apply settings_kept_same.
Qed.

End Settings.

(** ** From the registration to the first listener *)

Lemma existsb_eq {A : Type} (f g : A -> bool) (l : list A) :
  (forall x, f x = g x) -> existsb f l = existsb g l.
Proof. intros E. induction l as [| x l IH]; cbn; [done | by rewrite E, IH]. Qed.

(** The expected header of a registered authenticator and its recorded
    length. *)
Lemma registered_header options h :
  let hdr := default default_auth_header (last_value "header" options) in
  auth_header (registered_url_info options h) = hdr
  /\ (Libc.strlen hdr <= Libc.INT_MAX ->
      auth_header_len (registered_url_info options h) = Libc.strlen hdr).
Proof.
  cbv zeta.
  destruct (fold_read_option_fields options
              (set_auth_header default_auth_header calloc_auth_url))
    as (_ & _ & _ & _ & _ & _ & E7 & _).
  cbv zeta in E7. fold (read_options options) in E7.
  change (auth_header (set_auth_header default_auth_header calloc_auth_url))
    with default_auth_header in E7.
  split; [exact E7 |]. intros Hfits.
  change (auth_header_len (registered_url_info options h))
    with (Libc.to_signed Libc.INT_BITS
            (Libc.strlen (auth_header (read_options options)))).
  rewrite E7. apply to_signed_small. unfold Libc.strlen in *. lia.
Qed.

Lemma registered_addurl options h :
  addurl (registered_url_info options h) = last_value "add" options.
Proof.
  destruct (fold_read_option_fields options
              (set_auth_header default_auth_header calloc_auth_url))
    as (E1 & _).
  cbv zeta in E1. fold (read_options options) in E1.
  change (addurl (registered_url_info options h))
    with (addurl (read_options options)).
  rewrite E1. by destruct (last_value "add" options).
Qed.

Section Registered.
Context `{External}.

(** X15. From the registration to the first listener: a registration with
    an add option succeeds without sending anything, and the add flow that
    follows posts one request to the last add option.  It answers AUTH_OK
    exactly when the transfer succeeds, the listener is flagged (before
    the call, or by a header line of the reply that starts, letter case
    apart, with the last header option, or with the default line when
    there is none) and the hook does not report a negative result. *)
Theorem registration_then_add_flow p au0 options h auth_user c cl target w :
  auths w !! p = Some au0 ->
  client auth_user = Some c -> clients w !! c = Some cl -> auth cl = Some p ->
  last_value "add" options = Some target ->
  let hdr := default default_auth_header (last_value "header" options) in
  c_string hdr = true -> Libc.strlen hdr <= Libc.INT_MAX ->
  let post := add_post (config w) auth_user cl in
  let reply := http_server target post in
  lines_fit (reply_headers reply) ->
  let cl1 := if existsb (prefix_nocase hdr) (reply_headers reply)
             then set_authenticated 1 cl else cl in
  let cs1 := <[c := cl1]> (clients w) in
  let heard := (reply_code reply =? 0) && negb (authenticated cl1 =? 0) in
  exists w1 w2,
    auth_get_url_auth p options (Some h) w = Returns 0 w1
    /\ clients w1 = clients w /\ trace w1 = trace w
    /\ auth_addurl_client auth_user w1
       = Returns (if heard && negb (fst (auth_postprocess_client auth_user cs1) <? 0)
                  then AUTH_OK else AUTH_FAILED) w2
    /\ clients w2
       = (if heard then snd (auth_postprocess_client auth_user cs1) else cs1)
    /\ posts (trace w2) = posts (trace w) ++ [(target, post)].
Proof.
  intros Hp Hc Hcl Ha Hadd hdr Hstr Hfits post reply Hfit cl1 cs1 heard.
  rewrite (run_registration _ _ options h _ Hp).
  set (url := registered_url_info options h).
  set (au := {| methods := url_methods; state := Some url;
                refcount := refcount au0 |}).
  set (w1 := with_auths (insert p au) w).
  destruct (registered_header options h) as [Ehdr Elen]. fold url hdr in Ehdr, Elen.
  specialize (Elen Hfits).
  assert (after_reply url (reply_headers reply) cl = cl1) as Ecl1.
  { unfold after_reply, cl1.
    rewrite (existsb_eq (header_matches url) (prefix_nocase hdr)); [done |].
    intros line. rewrite header_matches_prefix; rewrite Ehdr; done. }
  clearbody cl1. subst cl1.
  assert (auth_addurl_client auth_user w1
          = let w2 :=
              {| auths := <[p := requesting target post auth_user url au]> (auths w1);
                 clients := cs1;
                 config := config w;
                 config_held := config_held w;
                 clock := clock w;
                 trace :=
                   trace w
                   ++ [EvConfigAcquire; EvConfigRelease; EvPerform target post] |} in
            if negb (reply_code reply =? 0)
            then Returns AUTH_FAILED (with_trace (fun t => t ++ [EvWarn target]) w2)
            else if negb (authenticated
                            (after_reply url (reply_headers reply) cl) =? 0)
                 then Returns (if fst (auth_postprocess_client auth_user cs1) <? 0
                               then AUTH_FAILED else AUTH_OK)
                        (with_clients
                           (fun _ => snd (auth_postprocess_client auth_user cs1)) w2)
                 else Returns AUTH_FAILED w2) as Erun.
  { apply (run_add_registered auth_user c cl p au url target w1);
      [exact Hc | exact Hcl | exact Ha | apply lookup_insert_eq | reflexivity
      | by exists (registered_handle h)
      | unfold url; by rewrite registered_addurl
      | exact Hfit]. }
  cbv zeta in Erun. exists w1. rewrite Erun. unfold heard.
  destruct (reply_code reply =? 0); cbn [negb andb].
  - destruct (authenticated (after_reply url (reply_headers reply) cl) =? 0);
      cbn [negb andb].
    + eexists. do 4 (split; [reflexivity |]). split; [reflexivity |].
      cbn. rewrite posts_app. cbn. reflexivity.
    + destruct (fst (auth_postprocess_client auth_user cs1) <? 0); cbn [negb];
        (eexists; do 4 (split; [reflexivity |]); split; [reflexivity |]);
        cbn; rewrite posts_app; cbn; reflexivity.
  - eexists. do 4 (split; [reflexivity |]). split; [reflexivity |].
    cbn. rewrite !posts_app. cbn. by rewrite app_nil_r.
Qed.

End Registered.

(** X16. A header option with an empty value makes every line pass the
    test of the callback: the recorded length is zero and [strncasecmp]
    over no characters finds no difference.  For a listener of such an
    authenticator any reply with at least one header line, the status line
    included, sets the flag. *)
Theorem empty_header_option_flags_any_reply options h lines auth_user c cl a au w :
  last_value "header" options = Some ""%string ->
  client auth_user = Some c -> clients w !! c = Some cl -> auth cl = Some a ->
  auths w !! a = Some au -> state au = Some (registered_url_info options h) ->
  lines_fit lines -> lines <> [] ->
  (forall line, header_matches (registered_url_info options h) line = true)
  /\ deliver_headers lines auth_user w
     = Returns true (with_clients (insert c (set_authenticated 1 cl)) w).
Proof.
  intros Hopt Hc Hcl Ha Hau Hs Hfit Hlines.
  destruct (registered_header options h) as [Ehdr Elen].
  rewrite Hopt in Ehdr, Elen. cbn [default from_option] in Ehdr, Elen.
  specialize (Elen ltac:(done)).
  assert (forall line, header_matches (registered_url_info options h) line = true)
    as Hall.
  { intros line. unfold header_matches. by rewrite Elen, strncasecmp_unfold. }
  split; [exact Hall |].
  rewrite (run_deliver_headers_listener _ _ _ _ _ _ _ _ Hc Hcl Ha Hau Hs Hfit).
  unfold after_reply. destruct lines as [| line rest]; [done |].
  cbn [existsb]. by rewrite Hall.
Qed.

(** ** The installation at work, to the end *)

Lemma scenario_handle_registered : handle_registered Scenario.url_info.
Proof. exists (registered_handle fresh_handle). by split. Defined.

Lemma scenario_accept_fits : lines_fit (reply_headers Scenario.accept).
Proof. repeat constructor; vm_compute; discriminate. Defined.

Lemma scenario_unreachable_fits : lines_fit [].
Proof. constructor. Defined.

(** The listener of the installation is admitted, and the one request of
    the flow went to the add endpoint. *)
Lemma add_flow_end_to_end_witness :
  exists w',
    auth_addurl_client (H := Scenario.admitting)
      Scenario.listener_event Scenario.start = Returns AUTH_OK w'
    /\ posts (trace w')
       = [("http://auth.example/a"%string,
           add_post (H := Scenario.admitting) Scenario.configuration
             Scenario.listener_event Scenario.listener)].
Proof.
  destruct (add_flow_end_to_end (H := Scenario.admitting)
              Scenario.listener_event 7%nat Scenario.listener 0%nat
              Scenario.authenticator Scenario.url_info
              "http://auth.example/a" Scenario.start
              eq_refl eq_refl eq_refl eq_refl eq_refl
              scenario_handle_registered eq_refl scenario_accept_fits)
    as (w' & E & _ & Hposts).
  exists w'. split; [exact E | exact Hposts].
Defined.

(** The listener is released although the endpoint cannot be reached: the
    failure is logged and one of the two references is given back. *)
Lemma remove_flow_end_to_end_witness :
  exists w' au',
    auth_removeurl_client (H := Scenario.unreachable)
      Scenario.listener_event Scenario.start = Returns AUTH_OK w'
    /\ auths w' = <[0%nat := au']> (auths Scenario.start)
    /\ refcount au' = 1
    /\ trace w'
       = [EvConfigAcquire; EvConfigRelease;
          EvPerform "http://auth.example/r"
            (removeurl_post (H := Scenario.unreachable) Scenario.configuration
               Scenario.listener_event Scenario.listener 1060);
          EvWarn "http://auth.example/r"; EvAuthRelease 0%nat].
Proof.
  destruct (remove_flow_end_to_end (H := Scenario.unreachable)
              Scenario.listener_event 7%nat Scenario.listener 0%nat
              Scenario.authenticator Scenario.url_info
              "http://auth.example/r" Scenario.start
              eq_refl eq_refl eq_refl eq_refl eq_refl
              scenario_handle_registered eq_refl scenario_unreachable_fits)
    as (w' & E & _ & _ & Hmore & Htrace & _).
  destruct (Hmore ltac:(discriminate)) as (au' & Hauths & Hcount).
  exists w', au'. split; [exact E |]. split; [exact Hauths |].
  split; [exact Hcount | exact Htrace].
Defined.

(** The listener of the installation connects and disconnects. *)
Lemma listener_added_then_removed_witness :
  exists w1 w2 cl2,
    auth_addurl_client (H := Scenario.admitting)
      Scenario.listener_event Scenario.start = Returns AUTH_OK w1
    /\ auth_removeurl_client (H := Scenario.admitting)
         Scenario.listener_event w1 = Returns AUTH_OK w2
    /\ map fst (posts (trace w2))
       = ["http://auth.example/a"; "http://auth.example/r"]%string
    /\ clients w2 !! 7%nat = Some cl2 /\ auth cl2 = None.
Proof.
  assert (exists w1,
             auth_addurl_client (H := Scenario.admitting)
               Scenario.listener_event Scenario.start = Returns AUTH_OK w1)
    as [w1 E1] by (vm_compute; eexists; reflexivity).
  destruct (listener_added_then_removed (H := Scenario.admitting)
              Scenario.listener_event 7%nat Scenario.listener 0%nat
              Scenario.authenticator Scenario.url_info
              (registered_handle fresh_handle)
              "http://auth.example/a" "http://auth.example/r"
              Scenario.start w1
              eq_refl eq_refl eq_refl eq_refl eq_refl eq_refl eq_refl eq_refl
              (fun cs => eq_refl) E1)
    as (w2 & cl2 & E2 & Hposts & Hcl2 & Hauth).
  exists w1, w2, cl2. split; [exact E1 |]. split; [exact E2 |].
  split; [by rewrite Hposts |]. split; [exact Hcl2 | exact Hauth].
Defined.

(** The source of /live starts: one request to the start endpoint, no
    warning, the pin released. *)
Lemma stream_flows_end_to_end_witness :
  exists w' body,
    url_stream_start (H := Scenario.admitting)
      Scenario.source_event Scenario.start = Returns AUTH_OK w'
    /\ trace w'
       = [EvConfigAcquire; EvConfigRelease;
          EvPerform "http://auth.example/s" body; EvAuthRelease 0%nat].
Proof.
  pose proof (proj1 (stream_flows_end_to_end (H := Scenario.admitting)
                       Scenario.source_event
                       {| mountname := "/live"; mount_auth := Some 0%nat |}
                       0%nat Scenario.authenticator Scenario.url_info
                       Scenario.start
                       eq_refl eq_refl eq_refl eq_refl eq_refl
                       scenario_handle_registered)) as Hstart.
  cbv zeta in Hstart.
  change (stream_start Scenario.url_info)
    with (Some "http://auth.example/s"%string) in Hstart.
  cbv beta iota in Hstart.
  destruct (Hstart scenario_accept_fits) as (w' & E & _ & _ & Htrace).
  exists w'. eexists. split; [exact E | exact Htrace].
Defined.

(** The source of /live starts and ends. *)
Lemma stream_start_then_end_witness :
  exists w1 w2 au2,
    url_stream_start (H := Scenario.admitting)
      Scenario.source_event Scenario.start = Returns AUTH_OK w1
    /\ url_stream_end (H := Scenario.admitting)
         Scenario.source_event w1 = Returns AUTH_OK w2
    /\ map fst (posts (trace w2))
       = ["http://auth.example/s"; "http://auth.example/e"]%string
    /\ auths w2 !! 0%nat = Some au2 /\ refcount au2 = 2.
Proof.
  destruct (stream_start_then_end (H := Scenario.admitting)
              Scenario.source_event
              {| mountname := "/live"; mount_auth := Some 0%nat |}
              0%nat Scenario.authenticator Scenario.url_info
              "http://auth.example/s" "http://auth.example/e" Scenario.start
              eq_refl eq_refl eq_refl eq_refl eq_refl
              scenario_handle_registered ltac:(reflexivity) eq_refl eq_refl
              scenario_accept_fits scenario_accept_fits)
    as (w1 & w2 & au2 & E1 & E2 & Hposts & Hau2 & Hcount & _).
  exists w1, w2, au2. split; [exact E1 |]. split; [exact E2 |].
  split; [by rewrite Hposts |]. split; [exact Hau2 | exact Hcount].
Defined.

(** The add flow of the installation posted within its buffer. *)
Lemma flows_post_within_buffer_witness :
  exists w',
    auth_addurl_client (H := Scenario.admitting)
      Scenario.listener_event Scenario.start = Returns AUTH_OK w'
    /\ posted_within 1023 Scenario.start w'.
Proof.
  assert (exists w',
             auth_addurl_client (H := Scenario.admitting)
               Scenario.listener_event Scenario.start = Returns AUTH_OK w')
    as [w' E] by (vm_compute; eexists; reflexivity).
  exists w'. split; [exact E |].
  exact (proj1 (flows_post_within_buffer (H := Scenario.admitting)
                  Scenario.listener_event Scenario.start AUTH_OK w') E).
Defined.

(** The status line of a reply, offered to both callbacks. *)
Lemma callbacks_return_int_count_witness :
  handle_returned_data ("HTTP/1.1 200 OK" +:+ CRLF) 1 17 = 1 * 17
  /\ exists w',
       handle_returned_header ("HTTP/1.1 200 OK" +:+ CRLF) 1 17
         Scenario.source_event Scenario.start
       = Returns (handle_returned_data ("HTTP/1.1 200 OK" +:+ CRLF) 1 17) w'.
Proof.
  destruct (callbacks_return_int_count ("HTTP/1.1 200 OK" +:+ CRLF) 1 17
              Scenario.source_event Scenario.start
              ltac:(vm_compute; discriminate) I) as (Hheader & Hcount & _).
  split; [| exact Hheader].
  apply (proj2 Hcount). vm_compute. discriminate.
Defined.

(** The verdict header before or after the status line. *)
Lemma verdict_ignores_line_order_witness :
  exists cl',
    deliver_headers
      ["HTTP/1.1 200 OK" +:+ CRLF; "Icecast-Auth-User: 1" +:+ CRLF]
      Scenario.listener_event Scenario.start
    = Returns true (with_clients (insert 7%nat cl') Scenario.start)
    /\ deliver_headers
         ["Icecast-Auth-User: 1" +:+ CRLF; "HTTP/1.1 200 OK" +:+ CRLF]
         Scenario.listener_event Scenario.start
       = Returns true (with_clients (insert 7%nat cl') Scenario.start)
    /\ authenticated cl' <> 0.
Proof.
  destruct (verdict_ignores_line_order
              ["HTTP/1.1 200 OK" +:+ CRLF; "Icecast-Auth-User: 1" +:+ CRLF]
              ["Icecast-Auth-User: 1" +:+ CRLF; "HTTP/1.1 200 OK" +:+ CRLF]
              Scenario.listener_event 7%nat Scenario.listener 0%nat
              Scenario.authenticator Scenario.url_info Scenario.start
              eq_refl eq_refl eq_refl eq_refl eq_refl
              ltac:(repeat constructor; vm_compute; discriminate)
              (perm_swap _ _ _))
    as (cl' & E1 & E2 & Hflag & _).
  exists cl'. split; [exact E1 |]. split; [exact E2 |].
  apply Hflag. right. apply Exists_cons_tl, Exists_cons_hd. reflexivity.
Defined.

(** An option named Add is not the add option. *)
Lemma registration_ignores_unknown_option_witness :
  read_options [("Add", "http://auth.example/b"); ("add", "http://auth.example/a")]%string
  = read_options [("add", "http://auth.example/a")]%string.
Proof.
  exact (proj1 (registration_ignores_unknown_option []
                  [("add", "http://auth.example/a")]%string
                  "Add" "http://auth.example/b" 0%nat None Scenario.start
                  eq_refl)).
Defined.

(** The registration of the installation fails: the source of /live is
    left with a dangling authenticator. *)
Lemma failed_registration_frees_authenticator_witness :
  exists w',
    auth_get_url_auth 0%nat Scenario.options None Scenario.start
    = Returns (-1) w'
    /\ auths w' !! 0%nat = None
    /\ url_stream_start (H := Scenario.admitting) Scenario.source_event w'
       = Undefined.
Proof.
  destruct (failed_registration_frees_authenticator (H := Scenario.admitting)
              0%nat Scenario.authenticator Scenario.options
              Scenario.source_event Scenario.start eq_refl)
    as (w' & E & Hauths & _ & _ & _ & _ & _ & Hstream & _).
  exists w'. split; [exact E |]. split; [by rewrite Hauths |].
  exact (proj1 (Hstream {| mountname := "/live"; mount_auth := Some 0%nat |}
                  eq_refl eq_refl)).
Defined.

(** The authenticator of the installation is cleared while the mount and
    the listener still refer to it. *)
Lemma clear_leaves_state_dangling_witness :
  exists w',
    auth_url_clear 0%nat Scenario.start = Returns tt w'
    /\ auth_url_clear 0%nat w' = Undefined
    /\ auth_removeurl_client (H := Scenario.admitting)
         Scenario.listener_event w' = Undefined.
Proof.
  destruct (proj2 (clear_leaves_state_dangling (H := Scenario.admitting)
                     0%nat Scenario.authenticator Scenario.listener_event
                     Scenario.start eq_refl)
              Scenario.url_info eq_refl)
    as (w' & au' & E & _ & _ & _ & _ & _ & _ & Hagain & _ & Hlistener).
  exists w'. split; [exact E |]. split; [exact Hagain |].
  exact (proj1 (proj2 (Hlistener 7%nat Scenario.listener eq_refl eq_refl eq_refl))).
Defined.

(** The remove flow of the installation kept the settings. *)
Lemma flows_keep_settings_witness :
  exists w',
    auth_removeurl_client (H := Scenario.admitting)
      Scenario.listener_event Scenario.start = Returns AUTH_OK w'
    /\ settings_kept Scenario.start w'.
Proof.
  assert (exists w',
             auth_removeurl_client (H := Scenario.admitting)
               Scenario.listener_event Scenario.start = Returns AUTH_OK w')
    as [w' E] by (vm_compute; eexists; reflexivity).
  exists w'. split; [exact E |].
  exact (proj1 (proj2 (flows_keep_settings (H := Scenario.admitting)
                         Scenario.listener_event Scenario.start AUTH_OK w')) E).
Defined.

(** The installation is registered again with its options, and its
    listener is admitted. *)
Lemma registration_then_add_flow_witness :
  exists w1 w2,
    auth_get_url_auth 0%nat Scenario.options (Some fresh_handle) Scenario.start
    = Returns 0 w1
    /\ auth_addurl_client (H := Scenario.admitting) Scenario.listener_event w1
       = Returns AUTH_OK w2.
Proof.
  destruct (registration_then_add_flow (H := Scenario.admitting)
              0%nat Scenario.authenticator Scenario.options fresh_handle
              Scenario.listener_event 7%nat Scenario.listener
              "http://auth.example/a" Scenario.start
              eq_refl eq_refl eq_refl eq_refl eq_refl eq_refl
              ltac:(vm_compute; discriminate) scenario_accept_fits)
    as (w1 & w2 & E1 & _ & _ & E2 & _).
  exists w1, w2. split; [exact E1 | exact E2].
Defined.

(** A recorded length of -1 reaches [strncasecmp] as the largest
    [size_t]: the comparison runs over the whole strings, so that only the
    expected header itself passes, and neither another line nor a line
    that merely starts with the header. *)
Lemma negative_length_compares_whole_lines :
  let url := set_auth_header_len (-1) Scenario.url_info in
  header_matches url ("HTTP/1.1 403 Forbidden" +:+ CRLF) = false
  /\ header_matches url ("Icecast-Auth-User: 1" +:+ CRLF) = true
  /\ header_matches url ("icecast-auth-user: 1" +:+ CRLF +:+ "x") = false
  /\ header_matches Scenario.url_info ("icecast-auth-user: 1" +:+ CRLF +:+ "x")
     = true.
Proof. by vm_compute. Qed.

(** An authenticator registered with an empty header option: the status
    line of a refusal flags the listener. *)
Lemma empty_header_option_flags_any_reply_witness :
  let w :=
    {| auths :=
         {[ 0%nat :=
              {| methods := url_methods;
                 state := Some (registered_url_info
                                  [("add", "http://auth.example/a");
                                   ("header", EmptyString)]%string
                                  fresh_handle);
                 refcount := 2 |} ]};
       clients := {[ 7%nat := Scenario.listener ]};
       config := Scenario.configuration;
       config_held := 0;
       clock := 1060;
       trace := [] |} in
  deliver_headers ["HTTP/1.1 403 Forbidden" +:+ CRLF]
    Scenario.listener_event w
  = Returns true
      (with_clients (insert 7%nat (set_authenticated 1 Scenario.listener)) w).
Proof.
  intros w.
  exact (proj2 (empty_header_option_flags_any_reply
                  [("add", "http://auth.example/a"); ("header", EmptyString)]%string
                  fresh_handle ["HTTP/1.1 403 Forbidden" +:+ CRLF]
                  Scenario.listener_event 7%nat Scenario.listener 0%nat _ w
                  eq_refl eq_refl eq_refl eq_refl eq_refl eq_refl
                  ltac:(repeat constructor; vm_compute; discriminate)
                  ltac:(discriminate))).
Defined.

(** ** Allocation: the registration and the clear on the heap *)

Lemma get_set (f g : Heap.member) (v : option nat) (u : Heap.auth_url) :
  Heap.get g (Heap.set f v u) = if decide (g = f) then v else Heap.get g u.
Proof. destruct f, g; by cbn. Qed.

Lemma wf_fresh (m : Heap.heap) : Heap.wf m -> Heap.live m !! Heap.brk m = None.
Proof.
  intros Hwf. destruct (Heap.live m !! Heap.brk m) as [b|] eqn:E; [| done].
  specialize (Hwf (Heap.brk m) (mk_is_Some _ _ E)). lia.
Qed.

(** A member is set to a fresh block [b]: a copy of a string, or the
    handle.  The string the member pointed to before was freed
    ([freed = 1]) or not ([freed = 0]). *)
Lemma building_store base old values values' n f b u m m1 (freed : nat) :
  building base old values n (u, m) ->
  (if decide (f = Heap.m_handle)
   then Heap.handle u = None /\ b = Heap.Handle
   else exists s, b = Heap.Bytes s) ->
  values' f = Heap.block_string b -> (forall g, g <> f -> values' g = values g) ->
  (m1 = m /\ freed = 0%nat)
  \/ (exists q, Heap.get f u = Some q
                /\ m1 = {| Heap.live := delete q (Heap.live m);
                           Heap.brk := Heap.brk m |}
                /\ freed = 1%nat) ->
  building base old values' (S n - freed)
    (Heap.set f (Some (Heap.brk m)) u,
     {| Heap.live := <[Heap.brk m := b]> (Heap.live m1);
        Heap.brk := S (Heap.brk m) |}).
Proof.
  intros Hinv Hf Hnew Hsame Hfreed. unfold building in Hinv.
  cbn [fst snd] in Hinv.
  destruct Hinv as (Hwf & Hold & Hbase & Hbytes & Hlive & Hinj & Hval & Hsize).
  pose proof (wf_fresh m Hwf) as Hfresh.
  assert (base < Heap.brk m)%nat as Hlt by (apply Hwf; rewrite Hbase; by eexists).
  assert ((f = Heap.m_handle /\ Heap.handle u = None /\ b = Heap.Handle)
          \/ (f <> Heap.m_handle /\ exists s, b = Heap.Bytes s)) as Hblock
    by (destruct (decide (f = Heap.m_handle)); [left | right]; by split).
  clear Hf.
  (* the blocks of [m1] are those of [m], but for the string freed *)
  assert (forall q b, Heap.live m1 !! q = Some b -> Heap.live m !! q = Some b)
    as Hsub.
  { destruct Hfreed as [[-> _] | (q0 & _ & -> & _)]; [done |].
    intros q b' Hq. cbn in Hq. by apply lookup_delete_Some in Hq as [_ Hq]. }
  assert (forall g q, g <> f -> Heap.get g u = Some q ->
            Heap.live m1 !! q = Heap.live m !! q) as Hkeep.
  { destruct Hfreed as [[-> _] | (q0 & Hq0 & -> & _)]; [done |].
    intros g q Hg Hq. cbn. apply lookup_delete_ne. intros ->.
    apply Hg. symmetry. by apply (Hinj f g q). }
  assert (forall q, (q <= base)%nat -> Heap.live m1 !! q = Heap.live m !! q)
    as Hlow.
  { destruct Hfreed as [[-> _] | (q0 & Hq0 & -> & _)]; [done |].
    intros q Hq. cbn. apply lookup_delete_ne. intros ->.
    destruct (Hlive f q Hq0) as [? _]. lia. }
  assert (size (Heap.live m1) = (n - freed)%nat /\ (freed <= n)%nat) as [Hsize1 Hle].
  { destruct Hfreed as [[-> ->] | (q0 & Hq0 & -> & ->)]; [split; lia |].
    destruct (Hlive f q0 Hq0) as [_ Hq0live]. cbn.
    rewrite map_size_delete_Some by done.
    assert (size (Heap.live m) <> 0%nat); [| lia].
    apply map_size_ne_0_lookup. eauto. }
  assert (Heap.live m1 !! Heap.brk m = None) as Hfresh1.
  { destruct (Heap.live m1 !! Heap.brk m) eqn:E; [| done].
    apply Hsub in E. congruence. }
  unfold building, Heap.wf in *. cbn [fst snd Heap.live Heap.brk].
  split; [| split; [| split; [| split; [| split; [| split; [| split]]]]]].
  - intros q [b' Hq]. apply lookup_insert_Some in Hq as [[<- _] | [_ Hq]]; [lia |].
    apply Hsub in Hq. specialize (Hwf q (mk_is_Some _ _ Hq)). lia.
  - intros q Hq. rewrite lookup_insert_ne by lia. rewrite Hlow by lia.
    by apply Hold.
  - rewrite lookup_insert_ne by lia. by rewrite Hlow.
  - intros q b' Hq Hb. change (Heap.handle ?x) with (Heap.get Heap.m_handle x).
    rewrite get_set.
    destruct Hblock as [(-> & Hnone & ->) | (Hfh & s & ->)].
    + rewrite decide_True by done.
      apply lookup_insert_Some in Hb as [[<- <-] | [Hne Hb]]; [by right |].
      apply Hsub in Hb. destruct (Hbytes q b' Hq Hb) as [? | Hh]; [by left |].
      congruence.
    + rewrite decide_False by done.
      apply lookup_insert_Some in Hb as [[<- <-] | [Hne Hb]]; [left; by eexists |].
      apply Hsub in Hb. apply (Hbytes q b' Hq Hb).
  - intros g q. rewrite get_set. case_decide as Hg.
    + intros [= <-]. split; [done |]. rewrite lookup_insert_eq. by eexists.
    + intros Hq. destruct (Hlive g q Hq) as [Hq1 Hq2]. split; [done |].
      assert (q <> Heap.brk m).
      { intros ->. destruct Hq2 as [b' Hq2]. congruence. }
      rewrite lookup_insert_ne by done. by rewrite (Hkeep g q).
  - intros g1 g2 q. rewrite !get_set. repeat case_decide; subst; try done.
    + intros [= <-] Hq. destruct (Hlive g2 _ Hq) as [_ [b' Hb]]. congruence.
    + intros Hq [= <-]. destruct (Hlive g1 _ Hq) as [_ [b' Hb]]. congruence.
    + apply Hinj.
  - intros g. rewrite get_set. case_decide as Hg.
    + subst g. cbn. by rewrite lookup_insert_eq, Hnew.
    + rewrite Hsame by done. rewrite <- Hval.
      destruct (Heap.get g u) as [q|] eqn:Hq; [| done]. cbn.
      destruct (Hlive g q Hq) as [_ [b' Hb]].
      assert (q <> Heap.brk m) by (intros ->; congruence).
      rewrite lookup_insert_ne by done. by rewrite (Hkeep g q).
  - rewrite map_size_insert_None by done. lia.
Qed.

(** A member is set to a fresh copy of [value]. *)
Lemma building_assign base old values values' n f value u m m1 (freed : nat) :
  building base old values n (u, m) ->
  f <> Heap.m_handle ->
  values' f = Some value -> (forall g, g <> f -> values' g = values g) ->
  (m1 = m /\ freed = 0%nat)
  \/ (exists q, Heap.get f u = Some q
                /\ m1 = {| Heap.live := delete q (Heap.live m);
                           Heap.brk := Heap.brk m |}
                /\ freed = 1%nat) ->
  building base old values' (S n - freed) (Heap.assign f value (u, m1)).
Proof.
  intros Hinv Hf Hnew Hsame Hfreed.
  assert (Heap.brk m1 = Heap.brk m) as Ebrk
    by (destruct Hfreed as [[-> _] | (q & _ & -> & _)]; done).
  unfold Heap.assign, Heap.strdup, Heap.malloc. cbn [fst snd]. rewrite Ebrk.
  apply (building_store base old values values' n f (Heap.Bytes value) u m m1 freed);
    [exact Hinv | | exact Hnew | exact Hsame | exact Hfreed].
  destruct (decide (f = Heap.m_handle)); [done | by eexists].
Qed.

Lemma occurrences_cons name k v rest :
  occurrences name ((k, v) :: rest)
  = ((if Libc.streq k name then 1 else 0) + occurrences name rest)%nat.
Proof.
  unfold occurrences. cbn [List.filter fst].
  by destruct (Libc.streq k name).
Qed.

Lemma copies_cons k v rest :
  copies ((k, v) :: rest) = (copies [(k, v)] + copies rest)%nat.
Proof. unfold copies. rewrite !occurrences_cons. unfold occurrences. cbn. lia. Qed.

(** The members that keep their value over a turn of the loop. *)
Ltac member_kept F1 F2 F3 F4 F5 F6 F7 :=
  let g := fresh "g" in
  let Hg := fresh "Hg" in
  intros g Hg; destruct g; try done; cbn [member_value];
  first [exact F1 | exact F2 | exact F3 | exact F4 | exact F5 | exact F6
        | by rewrite F7 | reflexivity].

(** One turn of the loop keeps the state under construction: a known name
    other than [header] adds one string, [header] replaces one. *)
Lemma building_read_option base old a n st k v :
  building base old (member_value a) n st ->
  exists st',
    Heap.read_option st (k, v) = Some st'
    /\ building base old (member_value (read_option a (k, v)))
         (n + copies [(k, v)]) st'.
Proof.
  destruct st as [u m]. intros Hinv.
  destruct (read_option_fields a k v) as (F1 & F2 & F3 & F4 & F5 & F6 & F7 & _).
  cbv zeta in F1, F2, F3, F4, F5, F6.
  destruct (Libc.streq k "username") eqn:E1.
  { apply String.eqb_eq in E1. subst k. eexists. split; [reflexivity |].
    replace (n + copies [(_, v)])%nat with (S n - 0)%nat by (cbn; lia).
    apply (building_assign base old (member_value a) _ n Heap.m_username v u m m 0);
      [exact Hinv | done | exact F5 | member_kept F1 F2 F3 F4 F5 F6 F7
      | by left]. }
  destruct (Libc.streq k "password") eqn:E2.
  { apply String.eqb_eq in E2. subst k. eexists. split; [reflexivity |].
    replace (n + copies [(_, v)])%nat with (S n - 0)%nat by (cbn; lia).
    apply (building_assign base old (member_value a) _ n Heap.m_password v u m m 0);
      [exact Hinv | done | exact F6 | member_kept F1 F2 F3 F4 F5 F6 F7
      | by left]. }
  destruct (Libc.streq k "add") eqn:E3.
  { apply String.eqb_eq in E3. subst k. eexists. split; [reflexivity |].
    replace (n + copies [(_, v)])%nat with (S n - 0)%nat by (cbn; lia).
    apply (building_assign base old (member_value a) _ n Heap.m_addurl v u m m 0);
      [exact Hinv | done | exact F1 | member_kept F1 F2 F3 F4 F5 F6 F7
      | by left]. }
  destruct (Libc.streq k "remove") eqn:E4.
  { apply String.eqb_eq in E4. subst k. eexists. split; [reflexivity |].
    replace (n + copies [(_, v)])%nat with (S n - 0)%nat by (cbn; lia).
    apply (building_assign base old (member_value a) _ n Heap.m_removeurl v u m m 0);
      [exact Hinv | done | exact F2 | member_kept F1 F2 F3 F4 F5 F6 F7
      | by left]. }
  destruct (Libc.streq k "start") eqn:E5.
  { apply String.eqb_eq in E5. subst k. eexists. split; [reflexivity |].
    replace (n + copies [(_, v)])%nat with (S n - 0)%nat by (cbn; lia).
    apply (building_assign base old (member_value a) _ n Heap.m_stream_start v u m m 0);
      [exact Hinv | done | exact F3 | member_kept F1 F2 F3 F4 F5 F6 F7
      | by left]. }
  destruct (Libc.streq k "end") eqn:E6.
  { apply String.eqb_eq in E6. subst k. eexists. split; [reflexivity |].
    replace (n + copies [(_, v)])%nat with (S n - 0)%nat by (cbn; lia).
    apply (building_assign base old (member_value a) _ n Heap.m_stream_end v u m m 0);
      [exact Hinv | done | exact F4 | member_kept F1 F2 F3 F4 F5 F6 F7
      | by left]. }
  destruct (Libc.streq k "header") eqn:E7.
  { apply String.eqb_eq in E7. subst k.
    pose proof Hinv as (_ & _ & _ & _ & Hlive & _ & Hval & _).
    cbn [fst snd] in Hlive, Hval.
    specialize (Hval Heap.m_auth_header). cbn [Heap.get member_value] in Hval.
    destruct (Heap.auth_header u) as [q|] eqn:Hq; [| done].
    destruct (Hlive Heap.m_auth_header q Hq) as [_ [b Hb]].
    exists (Heap.assign Heap.m_auth_header v
              (u, {| Heap.live := delete q (Heap.live m);
                     Heap.brk := Heap.brk m |})).
    split.
    - unfold Heap.read_option. cbn [fst snd Libc.streq String.eqb Ascii.eqb
        Bool.eqb]. rewrite Hq. cbn [Heap.free]. by rewrite Hb.
    - replace (n + copies [("header"%string, v)])%nat with (S n - 1)%nat
        by (cbn; lia).
      apply (building_assign base old (member_value a) _ n Heap.m_auth_header
               v u m _ 1);
        [exact Hinv | done | cbn [member_value]; f_equal; exact F7
        | member_kept F1 F2 F3 F4 F5 F6 F7 | right; by exists q]. }
  exists (u, m). split.
  - unfold Heap.read_option. by rewrite E1, E2, E3, E4, E5, E6, E7.
  - assert (copies [(k, v)] = 0%nat) as ->.
    { unfold copies. rewrite !occurrences_cons. rewrite E1, E2, E3, E4, E5, E6.
      reflexivity. }
    rewrite Nat.add_0_r.
    assert (forall g, member_value (read_option a (k, v)) g = member_value a g)
      as Hsame.
    { intros g. destruct g; cbn [member_value];
        first [exact F1 | exact F2 | exact F3 | exact F4 | exact F5 | exact F6
              | by rewrite F7 | reflexivity]. }
    destruct Hinv as (H1 & H2 & H3 & H4 & H5 & H6 & H7 & H8).
    refine (conj H1 (conj H2 (conj H3 (conj H4 (conj H5 (conj H6 (conj _ H8))))))).
    intros g. rewrite Hsame. apply H7.
Qed.

(** The loop keeps the state under construction and adds one string for
    every copy. *)
Lemma building_read_options base old options a n st :
  building base old (member_value a) n st ->
  exists st',
    Heap.read_options st options = Some st'
    /\ building base old (member_value (fold_left read_option options a))
         (n + copies options) st'.
Proof.
  revert a n st. induction options as [| [k v] options IH]; intros a n st Hinv.
  - exists st. split; [done |]. cbn [fold_left].
    by replace (n + copies [])%nat with n by (cbn; lia).
  - destruct (building_read_option base old a n st k v Hinv) as (st1 & E1 & Hinv1).
    destruct (IH _ _ _ Hinv1) as (st' & E' & Hinv').
    exists st'. split.
    + cbn [Heap.read_options]. rewrite E1. exact E'.
    + cbn [fold_left]. rewrite copies_cons. by rewrite Nat.add_assoc.
Qed.

(** The state after the loop of a registration that started on the
    well-formed heap [m0]. *)
Lemma building_registration options m0 :
  Heap.wf m0 ->
  exists st,
    Heap.read_options
      (Heap.assign Heap.m_auth_header default_auth_header
         (Heap.calloc_auth_url, snd (Heap.malloc Heap.UrlInfo m0)))
      options
    = Some st
    /\ building (Heap.brk m0) (Heap.live m0)
         (member_value (read_options options))
         (size (Heap.live m0) + 2 + copies options) st.
Proof.
  intros Hwf. pose proof (wf_fresh m0 Hwf) as Hfresh.
  assert (building (Heap.brk m0) (Heap.live m0) (fun _ => None)
            (S (size (Heap.live m0)))
            (Heap.calloc_auth_url, snd (Heap.malloc Heap.UrlInfo m0))) as Hinv0.
  { unfold building, Heap.wf in *. cbn [fst snd Heap.malloc Heap.live Heap.brk].
    split; [| split; [| split; [| split; [| split; [| split; [| split]]]]]].
    - intros q [b Hq]. apply lookup_insert_Some in Hq as [[<- _] | [_ Hq]]; [lia |].
      specialize (Hwf q (mk_is_Some _ _ Hq)). lia.
    - intros q Hq. apply lookup_insert_ne. lia.
    - apply lookup_insert_eq.
    - intros q b Hq Hb. rewrite lookup_insert_ne in Hb by lia.
      specialize (Hwf q (mk_is_Some _ _ Hb)). lia.
    - intros f q Hq. by destruct f.
    - intros f g q Hq. by destruct f.
    - intros f. by destruct f.
    - by apply map_size_insert_None. }
  assert (building (Heap.brk m0) (Heap.live m0)
            (member_value (set_auth_header default_auth_header calloc_auth_url))
            (size (Heap.live m0) + 2)
            (Heap.assign Heap.m_auth_header default_auth_header
               (Heap.calloc_auth_url, snd (Heap.malloc Heap.UrlInfo m0)))) as Hinv1.
  { replace (size (Heap.live m0) + 2)%nat with (S (S (size (Heap.live m0))) - 0)%nat
      by lia.
    apply (building_assign _ _ (fun _ => None) _ _ Heap.m_auth_header
             default_auth_header _ _ _ 0 Hinv0);
      [done | done | | by left].
    intros g Hg. by destruct g. }
  destruct (building_read_options _ _ options _ _ _ Hinv1) as (st & E & Hinv).
  exists st. split; [exact E | exact Hinv].
Qed.

(** ** The frees of the clear *)

Lemma pointers_cons (p : option nat) (ps : list (option nat)) :
  pointers (p :: ps) = from_option (fun q => q :: pointers ps) (pointers ps) p.
Proof. by destruct p. Qed.

Lemma lookup_released ps (blocks : gmap nat Heap.block) q :
  released ps blocks !! q
  = if decide (q ∈ pointers ps) then None else blocks !! q.
Proof.
  revert blocks. induction ps as [| p ps IH]; intros blocks.
  - cbn. rewrite decide_False; [done | apply not_elem_of_nil].
  - change (released (p :: ps) blocks)
      with (released ps (from_option (fun q => delete q blocks) blocks p)).
    rewrite IH, pointers_cons. destruct p as [q0|]; cbn [from_option]; [| done].
    rewrite lookup_delete.
    destruct (decide (q ∈ pointers ps)) as [Hin | Hout].
    + rewrite decide_True; [done | by apply list_elem_of_further].
    + destruct (decide (q0 = q)) as [-> | Hne].
      * rewrite decide_True; [done | apply list_elem_of_here].
      * rewrite decide_False; [done |].
        intros Hin. apply elem_of_cons in Hin as [-> | Hin]; done.
Qed.

Lemma free_all_released ps m :
  NoDup (pointers ps) ->
  (forall q, q ∈ pointers ps -> is_Some (Heap.live m !! q)) ->
  Heap.free_all ps m
  = Some {| Heap.live := released ps (Heap.live m); Heap.brk := Heap.brk m |}
  /\ (size (released ps (Heap.live m)) + length (pointers ps)
      = size (Heap.live m))%nat.
Proof.
  revert m. induction ps as [| p ps IH]; intros m Hnodup Hlive.
  - cbn. by destruct m.
  - rewrite pointers_cons in Hnodup, Hlive |- *.
    destruct p as [q|]; cbn [from_option] in Hnodup, Hlive |- *.
    + apply NoDup_cons in Hnodup as [Hq Hnodup].
      destruct (Hlive q (list_elem_of_here _ _)) as [b Hb].
      cbn [Heap.free_all Heap.free]. rewrite Hb. cbn [mbind option_bind].
      destruct (IH {| Heap.live := delete q (Heap.live m); Heap.brk := Heap.brk m |}
                  Hnodup) as [E Hsize].
      { intros q' Hq'. cbn. rewrite lookup_delete_ne by (intros ->; done).
        apply Hlive. by apply list_elem_of_further. }
      rewrite E. cbn [Heap.live Heap.brk] in *. split; [reflexivity |].
      cbn [length].
      change (released (Some q :: ps) (Heap.live m))
        with (released ps (delete q (Heap.live m))).
      rewrite map_size_delete_Some in Hsize by done.
      assert (size (Heap.live m) <> 0%nat) by (apply map_size_ne_0_lookup; eauto).
      lia.
    + cbn [Heap.free_all Heap.free mbind option_bind].
      destruct (IH m Hnodup Hlive) as [E Hsize]. by rewrite E.
Qed.

Lemma clear_free_all url_info url m :
  Heap.auth_url_clear url_info url m
  = Heap.free_all
      [Heap.handle url; Heap.username url; Heap.password url;
       Heap.removeurl url; Heap.addurl url; Some url_info] m.
Proof.
  unfold Heap.auth_url_clear. cbn [Heap.free_all].
  destruct (Heap.free (Heap.handle url) m) as [m1|]; [| done]. cbn.
  destruct (Heap.free (Heap.username url) m1) as [m2|]; [| done]. cbn.
  destruct (Heap.free (Heap.password url) m2) as [m3|]; [| done]. cbn.
  destruct (Heap.free (Heap.removeurl url) m3) as [m4|]; [| done]. cbn.
  destruct (Heap.free (Heap.addurl url) m4) as [m5|]; [| done]. cbn.
  by destruct (match Heap.live m5 !! url_info with
               | Some _ => _ | None => None end).
Qed.

(** ** The registration and the clear, block by block *)

Lemma handle_assign f value st :
  f <> Heap.m_handle ->
  Heap.handle (fst (Heap.assign f value st)) = Heap.handle (fst st).
Proof. intros Hf. destruct st as [u m]. by destruct f. Qed.

Lemma handle_assign_if (b : bool) f value st :
  f <> Heap.m_handle ->
  Heap.handle (fst (if b then Heap.assign f value st else st))
  = Heap.handle (fst st).
Proof. intros Hf. destruct b; [by apply handle_assign | done]. Qed.

(** The loop does not touch the handle. *)
Lemma read_options_handle options st st' :
  Heap.read_options st options = Some st' ->
  Heap.handle (fst st') = Heap.handle (fst st).
Proof.
  revert st. induction options as [| [k v] options IH]; intros st E.
  - by injection E as <-.
  - cbn [Heap.read_options] in E.
    destruct (Heap.read_option st (k, v)) as [st1|] eqn:E1; [| done].
    cbn in E. rewrite (IH _ E). clear E IH.
    unfold Heap.read_option in E1.
    set (s6 := if Libc.streq k "end" then _ else _) in E1.
    assert (Heap.handle (fst s6) = Heap.handle (fst st)) as E6.
    { unfold s6. by rewrite !handle_assign_if. }
    clearbody s6. destruct (Libc.streq k "header").
    + destruct (Heap.free (Heap.auth_header (fst s6)) (snd s6)) as [m|]; [| done].
      change (Some (Heap.assign Heap.m_auth_header v (fst s6, m)) = Some st1) in E1.
      injection E1 as <-. by rewrite handle_assign.
    + by injection E1 as <-.
Qed.

Lemma last_value_occurrences name options :
  last_value name options = None <-> occurrences name options = 0%nat.
Proof.
  induction options as [| [k v] options IH]; [done |].
  cbn [last_value]. rewrite occurrences_cons.
  destruct (last_value name options) as [v'|].
  - split; [done |]. intros E.
    assert (occurrences name options = 0%nat) as E' by lia.
    by apply IH in E'.
  - destruct (Libc.streq k name); [split; [done | lia] |].
    split; [intros _; by apply IH | done].
Qed.

(** A string member is null exactly when it has no value. *)
Lemma building_member_null base old values n url m f :
  building base old values n (url, m) ->
  f <> Heap.m_handle -> (Heap.get f url = None <-> values f = None).
Proof.
  intros (_ & _ & _ & Hbytes & Hlive & Hinj & Hval & _) Hf.
  cbn [fst snd] in *. rewrite <- Hval.
  destruct (Heap.get f url) as [q|] eqn:Hq; [| done].
  split; [done |]. cbn.
  destruct (Hlive f q Hq) as [Hlt [b Hb]]. rewrite Hb.
  destruct (Hbytes q b Hlt Hb) as [[s ->] | Hh]; [done |].
  destruct Hf. by apply (Hinj f Heap.m_handle q).
Qed.

Lemma NoDup_members base old values n url m (fs : list Heap.member) :
  building base old values n (url, m) -> NoDup fs ->
  NoDup (omap (fun f => Heap.get f url) fs).
Proof.
  intros (_ & _ & _ & _ & _ & Hinj & _) Hfs. cbn [fst snd] in Hinj.
  induction Hfs as [| f fs Hf Hfs IH]; [constructor |].
  cbn [omap list_omap]. fold (omap (fun f => Heap.get f url) fs).
  destruct (Heap.get f url) as [q|] eqn:Hq; [| exact IH].
  apply NoDup_cons. split; [| exact IH].
  intros Hin. apply list_elem_of_omap in Hin as (g & Hg & Hgq).
  assert (f = g) as -> by apply (Hinj f g q Hq Hgq). done.
Qed.

(** The registration that creates its handle, as it leaves the heap. *)
Lemma building_handle p options m0 :
  Heap.wf m0 ->
  exists url m1 h,
    Heap.auth_get_url_auth p options true m0
    = Some (0, Some (Heap.brk m0, url), m1)
    /\ building (Heap.brk m0) (Heap.live m0)
         (member_value (read_options options))
         (size (Heap.live m0) + 3 + copies options) (url, m1)
    /\ Heap.handle url = Some h
    /\ Heap.live m1 !! h = Some Heap.Handle.
Proof.
  intros Hwf. destruct (building_registration options m0 Hwf) as ([u m] & E & Hinv).
  pose proof (read_options_handle _ _ _ E) as Hnull. cbn in Hnull.
  exists (Heap.set Heap.m_handle (Some (Heap.brk m)) u),
    {| Heap.live := <[Heap.brk m := Heap.Handle]> (Heap.live m);
       Heap.brk := S (Heap.brk m) |}, (Heap.brk m).
  split; [| split; [| split]].
  - unfold Heap.auth_get_url_auth.
    change (let '(url_info, m1) := Heap.malloc Heap.UrlInfo m0 in _)
      with (Heap.read_options
              (Heap.assign Heap.m_auth_header default_auth_header
                 (Heap.calloc_auth_url, snd (Heap.malloc Heap.UrlInfo m0)))
              options
            ≫= fun st =>
                 let '(h, m1) := Heap.malloc Heap.Handle (snd st) in
                 Some (0, Some (Heap.brk m0,
                                Heap.set Heap.m_handle (Some h) (fst st)), m1)).
    by rewrite E.
  - replace (size (Heap.live m0) + 3 + copies options)%nat
      with (S (size (Heap.live m0) + 2 + copies options) - 0)%nat by lia.
    apply (building_store _ _ _ _ _ Heap.m_handle Heap.Handle u m m 0 Hinv);
      [by rewrite decide_True | done | done | by left].
  - done.
  - cbn. apply lookup_insert_eq.
Qed.

Lemma registered_values options :
  let a := read_options options in
  member_value a Heap.m_addurl = last_value "add" options
  /\ member_value a Heap.m_removeurl = last_value "remove" options
  /\ member_value a Heap.m_stream_start = last_value "start" options
  /\ member_value a Heap.m_stream_end = last_value "end" options
  /\ member_value a Heap.m_username = last_value "username" options
  /\ member_value a Heap.m_password = last_value "password" options
  /\ member_value a Heap.m_auth_header
     = Some (default default_auth_header (last_value "header" options)).
Proof.
  cbv zeta. unfold read_options.
  destruct (fold_read_option_fields options
              (set_auth_header default_auth_header calloc_auth_url))
    as (E1 & E2 & E3 & E4 & E5 & E6 & E7 & _).
  cbv zeta in E1, E2, E3, E4, E5, E6, E7. cbn [member_value].
  rewrite E1, E2, E3, E4, E5, E6, E7.
  by destruct (last_value "add" options), (last_value "remove" options),
    (last_value "start" options), (last_value "end" options),
    (last_value "username" options), (last_value "password" options).
Qed.


(** X18. The clear after a successful registration frees the handle, the
    state and the last copies of username, password, remove and add, and
    nothing else, so it never frees a block twice nor a block of the old
    heap.  It leaks the rest: the expected header, the copies of start and
    end and the copies that a repeated option had already orphaned stay
    allocated, all of them strings, and at least the header always. *)
Theorem clear_leaks_strings p options m0 :
  Heap.wf m0 ->
  exists url m1 m2,
    Heap.auth_get_url_auth p options true m0
    = Some (0, Some (Heap.brk m0, url), m1)
    /\ Heap.auth_url_clear (Heap.brk m0) url m1 = Some m2
    /\ (forall q, (q < Heap.brk m0)%nat ->
          Heap.live m2 !! q = Heap.live m0 !! q)
    /\ (forall q b, (Heap.brk m0 <= q)%nat -> Heap.live m2 !! q = Some b ->
          exists s, b = Heap.Bytes s)
    /\ Heap.string_at m2 (Heap.auth_header url)
       = Some (default default_auth_header (last_value "header" options))
    /\ Heap.string_at m2 (Heap.stream_start url) = last_value "start" options
    /\ Heap.string_at m2 (Heap.stream_end url) = last_value "end" options
    /\ size (Heap.live m2)
       = (size (Heap.live m0) + 1
          + occurrences "start" options + occurrences "end" options
          + Nat.pred (occurrences "username" options)
          + Nat.pred (occurrences "password" options)
          + Nat.pred (occurrences "remove" options)
          + Nat.pred (occurrences "add" options))%nat.
Proof.
  intros Hwf.
  destruct (building_handle p options m0 Hwf) as (url & m1 & h & E & Hinv & Hh & Hhl).
  set (base := Heap.brk m0) in *.
  set (fs := [Heap.m_handle; Heap.m_username; Heap.m_password;
              Heap.m_removeurl; Heap.m_addurl]).
  set (ps := [Heap.handle url; Heap.username url; Heap.password url;
              Heap.removeurl url; Heap.addurl url; Some base]).
  assert (pointers ps = omap (fun f => Heap.get f url) fs ++ [base]) as Eps.
  { unfold ps, fs, pointers. cbn [omap list_omap Heap.get].
    by destruct (Heap.handle url), (Heap.username url), (Heap.password url),
      (Heap.removeurl url), (Heap.addurl url). }
  pose proof (NoDup_members _ _ _ _ _ _ fs Hinv) as Hnodup.
  pose proof (building_member_null _ _ _ _ _ _ Heap.m_username Hinv ltac:(done))
    as Nu.
  pose proof (building_member_null _ _ _ _ _ _ Heap.m_password Hinv ltac:(done))
    as Np.
  pose proof (building_member_null _ _ _ _ _ _ Heap.m_removeurl Hinv ltac:(done))
    as Nr.
  pose proof (building_member_null _ _ _ _ _ _ Heap.m_addurl Hinv ltac:(done))
    as Na.
  destruct (registered_values options) as (Va & Vr & Vs & Ve & Vu & Vp & Vh).
  cbv zeta in Va, Vr, Vs, Ve, Vu, Vp, Vh.
  rewrite Vu, last_value_occurrences in Nu. rewrite Vp, last_value_occurrences in Np.
  rewrite Vr, last_value_occurrences in Nr. rewrite Va, last_value_occurrences in Na.
  destruct Hinv as (_ & Hold & Hbase & Hbytes & Hlive & Hinj & Hval & Hsize).
  cbn [fst snd] in *.
  assert (forall q, q ∈ pointers ps ->
            q = base \/ exists f, f ∈ fs /\ Heap.get f url = Some q) as Hps.
  { intros q. rewrite Eps, elem_of_app, list_elem_of_singleton.
    intros [Hq | ->]; [right | by left].
    by apply list_elem_of_omap in Hq. }
  destruct (free_all_released ps m1) as [Efree Hfreed].
  { rewrite Eps. apply NoDup_app. split; [| split].
    - apply Hnodup. unfold fs. apply (bool_decide_unpack (NoDup _)). by vm_compute.
    - intros q Hq ->%list_elem_of_singleton.
      apply list_elem_of_omap in Hq as (f & _ & Hq).
      destruct (Hlive f base Hq). lia.
    - apply NoDup_singleton. }
  { intros q Hq. destruct (Hps q Hq) as [-> | (f & _ & Hf)].
    - by rewrite Hbase.
    - by destruct (Hlive f q Hf). }
  exists url, m1,
    {| Heap.live := released ps (Heap.live m1); Heap.brk := Heap.brk m1 |}.
  split; [exact E |]. split; [by rewrite clear_free_all |].
  cbn [Heap.live].
  (* a string member that the clear does not free keeps its string *)
  assert (forall f, f ∉ fs ->
            Heap.string_at
              {| Heap.live := released ps (Heap.live m1); Heap.brk := Heap.brk m1 |}
              (Heap.get f url)
            = member_value (read_options options) f) as Hkept.
  { intros f Hf. rewrite <- Hval.
    destruct (Heap.get f url) as [q|] eqn:Hq; [| done].
    cbn [Heap.string_at Heap.live]. rewrite lookup_released.
    rewrite decide_False; [done |]. intros Hin.
    destruct (Hps q Hin) as [-> | (g & Hg & Hgq)].
    - destruct (Hlive f base Hq). lia.
    - assert (f = g) as -> by apply (Hinj f g q Hq Hgq). done. }
  split; [| split; [| split; [| split; [| split]]]].
  - intros q Hq. rewrite lookup_released. rewrite decide_False; [by apply Hold |].
    intros Hin. destruct (Hps q Hin) as [-> | (f & _ & Hf)]; [lia |].
    destruct (Hlive f q Hf). lia.
  - intros q b Hq Hb. rewrite lookup_released in Hb.
    destruct (decide (q ∈ pointers ps)) as [| Hout]; [done |].
    assert (q <> base).
    { intros ->. apply Hout. rewrite Eps, elem_of_app, list_elem_of_singleton.
      by right. }
    destruct (Hbytes q b ltac:(lia) Hb) as [Hs | Hq']; [exact Hs |].
    destruct Hout. rewrite Eps, elem_of_app. left.
    apply list_elem_of_omap. exists Heap.m_handle. split; [| exact Hq'].
    unfold fs. apply list_elem_of_here.
  - rewrite <- Vh. apply (Hkept Heap.m_auth_header). unfold fs.
    apply (bool_decide_unpack (_ ∉ _)). by vm_compute.
  - rewrite <- Vs. apply (Hkept Heap.m_stream_start). unfold fs.
    apply (bool_decide_unpack (_ ∉ _)). by vm_compute.
  - rewrite <- Ve. apply (Hkept Heap.m_stream_end). unfold fs.
    apply (bool_decide_unpack (_ ∉ _)). by vm_compute.
  - set (freed f := if Heap.get f url is Some _ then 1%nat else 0%nat).
    assert (length (pointers ps)
            = (2 + freed Heap.m_username + freed Heap.m_password
               + freed Heap.m_removeurl + freed Heap.m_addurl)%nat) as Elen.
    { unfold ps, pointers, freed. cbn [omap list_omap Heap.get]. rewrite Hh.
      by destruct (Heap.username url), (Heap.password url),
        (Heap.removeurl url), (Heap.addurl url). }
    assert (forall f name,
              (Heap.get f url = None <-> occurrences name options = 0%nat) ->
              (freed f + Nat.pred (occurrences name options)
               = occurrences name options)%nat) as Hlast.
    { intros f name Hnull. unfold freed. destruct (Heap.get f url) as [q|].
      - assert (occurrences name options <> 0%nat); [| lia].
        intros Hz. by apply Hnull in Hz.
      - assert (occurrences name options = 0%nat) by (by apply Hnull). lia. }
    apply Hlast in Nu, Np, Nr, Na. unfold copies in Hsize. lia.
Qed.

(** X19. When [curl_easy_init] fails, the registration frees the state and
    the authenticator and nothing else: it answers -1 with the expected
    header and every copy of an option value still allocated, and it
    returns no pointer to any of them.  The heap has lost the
    authenticator and gained one string for each option of a name other
    than [header], and the header. *)
Theorem failed_registration_leaks_strings p options m0 :
  Heap.wf m0 -> Heap.live m0 !! p = Some Heap.Authenticator ->
  exists m1,
    Heap.auth_get_url_auth p options false m0 = Some (-1, None, m1)
    /\ Heap.live m1 !! p = None
    /\ (forall q, (q < Heap.brk m0)%nat -> q <> p ->
          Heap.live m1 !! q = Heap.live m0 !! q)
    /\ (forall q b, (Heap.brk m0 <= q)%nat -> Heap.live m1 !! q = Some b ->
          exists s, b = Heap.Bytes s)
    /\ (exists q,
          Heap.live m1 !! q
          = Some (Heap.Bytes
                    (default default_auth_header (last_value "header" options))))
    /\ size (Heap.live m1) = (size (Heap.live m0) + copies options)%nat.
Proof.
  intros Hwf Hp.
  destruct (building_registration options m0 Hwf) as ([u m] & E & Hinv).
  pose proof (read_options_handle _ _ _ E) as Hnull. cbn in Hnull.
  destruct (registered_values options) as (_ & _ & _ & _ & _ & _ & Vh).
  cbv zeta in Vh.
  destruct Hinv as (_ & Hold & Hbase & Hbytes & Hlive & _ & Hval & Hsize).
  cbn [fst snd] in *. set (base := Heap.brk m0) in *.
  assert (p < base)%nat as Hlt by (apply Hwf; by rewrite Hp).
  assert (Heap.live m !! p = Some Heap.Authenticator) as Hpm
    by (by rewrite Hold).
  exists {| Heap.live := delete p (delete base (Heap.live m));
            Heap.brk := Heap.brk m |}.
  split; [| split; [| split; [| split; [| split]]]].
  - unfold Heap.auth_get_url_auth.
    change (let '(url_info, m1) := Heap.malloc Heap.UrlInfo m0 in _)
      with (Heap.read_options
              (Heap.assign Heap.m_auth_header default_auth_header
                 (Heap.calloc_auth_url, snd (Heap.malloc Heap.UrlInfo m0)))
              options
            ≫= fun st =>
                 Heap.free (Some base) (snd st)
                 ≫= fun m1 => Heap.free (Some p) m1
                 ≫= fun m2 => Some (-1, @None (nat * Heap.auth_url), m2)).
    rewrite E. cbn [mbind option_bind snd Heap.free]. rewrite Hbase.
    cbn [mbind option_bind Heap.free Heap.live].
    rewrite lookup_delete_ne by lia. by rewrite Hpm.
  - cbn. apply lookup_delete_eq.
  - intros q Hq Hne. cbn. rewrite !lookup_delete_ne by lia. by apply Hold.
  - intros q b Hq Hb. cbn in Hb.
    apply lookup_delete_Some in Hb as [_ Hb].
    apply lookup_delete_Some in Hb as [Hne Hb].
    destruct (Hbytes q b ltac:(lia) Hb) as [Hs | Hh]; [exact Hs | congruence].
  - specialize (Hval Heap.m_auth_header). rewrite Vh in Hval.
    cbn [Heap.get] in Hval.
    destruct (Heap.auth_header u) as [q|] eqn:Hq; [| done].
    destruct (Hlive Heap.m_auth_header q Hq) as [Hbq [b Hb]].
    cbn in Hval. rewrite Hb in Hval. destruct b; try done.
    injection Hval as ->. exists q. cbn.
    rewrite !lookup_delete_ne by lia. exact Hb.
  - cbn. rewrite !map_size_delete_Some.
    + assert (size (delete base (Heap.live m)) <> 0%nat).
      { apply map_size_ne_0_lookup. exists p. rewrite lookup_delete_ne by lia.
        by rewrite Hpm. }
      rewrite map_size_delete_Some in * by (by rewrite Hbase). lia.
    + by rewrite Hbase.
    + rewrite lookup_delete_ne by lia. by rewrite Hpm.
Qed.

(** ** The heap of the installation *)

Lemma installation_heap_wf : Heap.wf installation_heap.
Proof.
  intros q [b Hq]. cbn in Hq. apply lookup_singleton_Some in Hq as [<- _].
  cbn. lia.
Defined.


(** An installation registered with two add options and a start option,
    then cleared: the header, the start endpoint and the first add
    endpoint stay allocated beside the authenticator. *)
Lemma clear_leaks_strings_witness :
  exists url m1 m2,
    Heap.auth_get_url_auth 0
      [("add", "http://auth.example/b"); ("add", "http://auth.example/a");
       ("start", "http://auth.example/s")]%string true installation_heap
    = Some (0, Some (1%nat, url), m1)
    /\ Heap.auth_url_clear 1 url m1 = Some m2
    /\ Heap.string_at m2 (Heap.stream_start url)
       = Some "http://auth.example/s"%string
    /\ size (Heap.live m2) = 4%nat.
Proof.
  destruct (clear_leaks_strings 0
              [("add", "http://auth.example/b"); ("add", "http://auth.example/a");
               ("start", "http://auth.example/s")]%string installation_heap
              installation_heap_wf)
    as (url & m1 & m2 & E & Eclear & _ & _ & _ & Hstart & _ & Hsize).
  exists url, m1, m2. split; [exact E |]. split; [exact Eclear |].
  split; [exact Hstart | exact Hsize].
Defined.

(** The registration of the installation fails: the authenticator is gone,
    the header and the four endpoints stay allocated. *)
Lemma failed_registration_leaks_strings_witness :
  exists m1,
    Heap.auth_get_url_auth 0 Scenario.options false installation_heap
    = Some (-1, None, m1)
    /\ Heap.live m1 !! 0%nat = None
    /\ size (Heap.live m1) = 5%nat.
Proof.
  destruct (failed_registration_leaks_strings 0 Scenario.options
              installation_heap installation_heap_wf eq_refl)
    as (m1 & E & Hgone & _ & _ & _ & Hsize).
  exists m1. split; [exact E |]. split; [exact Hgone | exact Hsize].
Defined.

(** ** What the flows never read *)

Lemma lookup_with_credentials user pass a au url w :
  auths w !! a = Some au -> state au = Some url ->
  auths (with_credentials user pass w) !! a
  = Some {| methods := methods au;
            state := Some (set_credentials user pass url);
            refcount := refcount au |}.
Proof.
  intros Hau Hs. cbn. rewrite lookup_fmap, Hau. cbn. unfold set_state. cbn.
  by rewrite Hs.
Qed.

Section Credentials.
Context `{External}.

(** X20. The username and password options are stored and never read: a
    flow run on registered authenticators gives the same answer, the same
    requests, warnings and trace, and the same clients whatever these two
    members hold, and leaves them as they were.  The credentials a request
    carries are always those of the listener. *)
Theorem credentials_never_read user pass auth_user w :
  (forall c cl a au url,
      client auth_user = Some c -> clients w !! c = Some cl ->
      auth cl = Some a -> auths w !! a = Some au -> state au = Some url ->
      handle_registered url ->
      (forall target, addurl url = Some target ->
         lines_fit (reply_headers
                      (http_server target (add_post (config w) auth_user cl)))) ->
      (forall target, removeurl url = Some target ->
         lines_fit (reply_headers
                      (http_server target
                         (removeurl_post (config w) auth_user cl (clock w))))) ->
      auth_addurl_client auth_user (with_credentials user pass w)
      = outcome_map (with_credentials user pass) (auth_addurl_client auth_user w)
      /\ auth_removeurl_client auth_user (with_credentials user pass w)
         = outcome_map (with_credentials user pass)
             (auth_removeurl_client auth_user w))
  /\ (forall mi a au url,
        client auth_user = None ->
        config_find_mount (config w) (mount auth_user) = Some mi ->
        mount_auth mi = Some a -> auths w !! a = Some au ->
        state au = Some url -> handle_registered url ->
        (forall target, stream_start url = Some target ->
           lines_fit (reply_headers
                        (http_server target
                           (stream_post "start" (config w) auth_user)))) ->
        (forall target, stream_end url = Some target ->
           lines_fit (reply_headers
                        (http_server target
                           (stream_post "end" (config w) auth_user)))) ->
        url_stream_start auth_user (with_credentials user pass w)
        = outcome_map (with_credentials user pass) (url_stream_start auth_user w)
        /\ url_stream_end auth_user (with_credentials user pass w)
           = outcome_map (with_credentials user pass)
               (url_stream_end auth_user w)).
Proof.
  split.
  - intros c cl a au url Hc Hcl Ha Hau Hs Hreg Hadd Hrem.
    pose proof (lookup_with_credentials user pass a au url w Hau Hs) as Hau'.
    split.
    + destruct (addurl url) as [target|] eqn:Hu.
      * rewrite (run_add_registered auth_user c cl a _
                   (set_credentials user pass url) target
                   (with_credentials user pass w) Hc Hcl Ha Hau' eq_refl Hreg Hu
                   (Hadd target eq_refl)).
        rewrite (run_add_registered auth_user c cl a au url target w
                   Hc Hcl Ha Hau Hs Hreg Hu (Hadd target eq_refl)).
        cbv zeta.
        change (after_reply (set_credentials user pass url))
          with (after_reply url).
        change (config (with_credentials user pass w)) with (config w).
        change (clients (with_credentials user pass w)) with (clients w).
        set (post := add_post (config w) auth_user cl).
        set (reply := http_server target post).
        set (cl1 := after_reply url (reply_headers reply) cl).
        assert (forall tr cs,
                  {| auths :=
                       <[a := requesting target post auth_user
                                (set_credentials user pass url)
                                {| methods := methods au;
                                   state := Some (set_credentials user pass url);
                                   refcount := refcount au |}]>
                         (auths (with_credentials user pass w));
                     clients := cs; config := config w;
                     config_held := config_held w; clock := clock w;
                     trace := tr |}
                  = with_credentials user pass
                      {| auths := <[a := requesting target post auth_user url au]>
                                    (auths w);
                         clients := cs; config := config w;
                         config_held := config_held w; clock := clock w;
                         trace := tr |}) as Eworld.
        { intros tr cs. apply world_ext; try reflexivity.
          cbn. by rewrite fmap_insert. }
        destruct (negb (reply_code reply =? 0)); cbn [outcome_map].
        { f_equal. apply (Eworld _ _). }
        destruct (negb (authenticated cl1 =? 0)); cbn [outcome_map];
          f_equal; apply (Eworld _ _).
      * rewrite (run_add_none auth_user c cl a _ (set_credentials user pass url)
                   (with_credentials user pass w) Hc Hcl Ha Hau' eq_refl Hu).
        by rewrite (run_add_none auth_user c cl a au url w Hc Hcl Ha Hau Hs Hu).
    + destruct (removeurl url) as [target|] eqn:Hu.
      * rewrite (run_remove_registered auth_user c cl a _
                   (set_credentials user pass url) target
                   (with_credentials user pass w) Hc Hcl Ha Hau' eq_refl Hreg Hu
                   (Hrem target eq_refl)).
        rewrite (run_remove_registered auth_user c cl a au url target w
                   Hc Hcl Ha Hau Hs Hreg Hu (Hrem target eq_refl)).
        cbn [outcome_map]. f_equal. apply world_ext; try reflexivity.
        cbn. destruct (refcount au - 1 =? 0).
        -- by rewrite fmap_delete.
        -- by rewrite fmap_insert.
      * rewrite (run_remove_none auth_user c cl a _ (set_credentials user pass url)
                   (with_credentials user pass w) Hc Hcl Ha Hau' eq_refl Hu).
        by rewrite (run_remove_none auth_user c cl a au url w Hc Hcl Ha Hau Hs Hu).
  - intros mi a au url Hc Hm Ha Hau Hs Hreg Hstart Hend.
    pose proof (lookup_with_credentials user pass a au url w Hau Hs) as Hau'.
    split.
    + destruct (stream_start url) as [target|] eqn:Hu.
      * rewrite (run_stream_start_registered auth_user mi a _
                   (set_credentials user pass url) target
                   (with_credentials user pass w) Hc Hm Ha Hau' eq_refl Hreg Hu
                   (Hstart target eq_refl)).
        rewrite (run_stream_start_registered auth_user mi a au url target w
                   Hc Hm Ha Hau Hs Hreg Hu (Hstart target eq_refl)).
        cbn [outcome_map]. f_equal. apply world_ext; try reflexivity.
        cbn. destruct (refcount au =? 0).
        -- by rewrite fmap_delete.
        -- by rewrite fmap_insert.
      * rewrite (run_stream_start_none auth_user mi a _
                   (set_credentials user pass url)
                   (with_credentials user pass w) Hm Ha Hau' eq_refl Hu).
        by rewrite (run_stream_start_none auth_user mi a au url w Hm Ha Hau Hs Hu).
    + destruct (stream_end url) as [target|] eqn:Hu.
      * rewrite (run_stream_end_registered auth_user mi a _
                   (set_credentials user pass url) target
                   (with_credentials user pass w) Hc Hm Ha Hau' eq_refl Hreg Hu
                   (Hend target eq_refl)).
        rewrite (run_stream_end_registered auth_user mi a au url target w
                   Hc Hm Ha Hau Hs Hreg Hu (Hend target eq_refl)).
        cbn [outcome_map]. f_equal. apply world_ext; try reflexivity.
        cbn. destruct (refcount au =? 0).
        -- by rewrite fmap_delete.
        -- by rewrite fmap_insert.
      * rewrite (run_stream_end_none auth_user mi a _
                   (set_credentials user pass url)
                   (with_credentials user pass w) Hm Ha Hau' eq_refl Hu).
        by rewrite (run_stream_end_none auth_user mi a au url w Hm Ha Hau Hs Hu).
Qed.

End Credentials.

(** The installation with credentials in its authenticator: its listener
    is served as before. *)
Lemma credentials_never_read_witness :
  auth_addurl_client (H := Scenario.admitting) Scenario.listener_event
    (with_credentials (Some "admin"%string) (Some "secret"%string) Scenario.start)
  = outcome_map (with_credentials (Some "admin"%string) (Some "secret"%string))
      (auth_addurl_client (H := Scenario.admitting)
         Scenario.listener_event Scenario.start).
Proof.
  exact (proj1 (proj1 (credentials_never_read (H := Scenario.admitting)
                         (Some "admin"%string) (Some "secret"%string)
                         Scenario.listener_event Scenario.start)
                  7%nat Scenario.listener 0%nat Scenario.authenticator
                  Scenario.url_info eq_refl eq_refl eq_refl eq_refl eq_refl
                  scenario_handle_registered
                  (fun _ _ => scenario_accept_fits)
                  (fun _ _ => scenario_accept_fits))).
Defined.
